(** * fish: a small interactive shell (src/fish.c)

    A shallow embedding of the execution core of the shell: the status
    report buffer, the SIGCHLD reaper, the pipeline stage spawner with its
    redirections, the line executor and the flush of the main loop, over a
    small executable model of the kernel objects the C code manipulates
    (descriptor tables, pipes, files, child processes).

    The model of the machine:
    - descriptors are allocated lowest-first; [pipe], [dup2] and [close]
      succeed on valid descriptors ([pipe] always: fish.c does not look at
      its result);
    - [fork] fails when the environment says so; a child's part of
      [execute_command] runs in one step at the fork, on a copy of the
      shell's descriptor table, and its effects on files are applied then;
      only its termination is asynchronous;
    - a signal handler runs to completion between two steps of [main], or
      while the shell sleeps in the blocking [waitpid] of [execute_command]:
      that call ends as the environment says, with the child, or cut short
      by SIGINT, or after [sigchld_handler] has run in its place;
    - every program terminates, so that a blocking wait, and a handler that
      loops until no child is left, do return;
    - values C leaves unspecified (an uninitialised [int], the mode [open]
      reads when none is passed) are fields of the environment. *)

From Stdlib Require Import ZArith List String Ascii Lia DecimalString Sorted.
From stdpp Require Import base gmap list strings.

Open Scope Z_scope.

(** ** Constants of fish.c *)

Definition BUFLEN : nat := 512.
Definition ENDSTATUS_BUF_LEN : nat := 4096.

(** ** C strings in a byte array *)

Definition NUL : ascii := zero.
Definition LF : ascii := ascii_of_nat 10.

(** [calloc n 1]: [n] zero bytes. *)
Definition calloc (n : nat) : list ascii := replicate n NUL.

(** [strlen]: the index of the first NUL byte of the array. *)
Fixpoint strlen (b : list ascii) : nat :=
  match b with
  | [] => 0%nat
  | c :: r => if Ascii.eqb c NUL then 0%nat else S (strlen r)
  end.

(** The text a C reader sees in the array: the bytes before the first NUL. *)
Definition c_string (b : list ascii) : list ascii := take (strlen b) b.

(** [size_t] subtraction [a - b], with the wrap-around of 64-bit unsigned
    arithmetic. *)
Definition size_sub (a b : nat) : Z := (Z.of_nat a - Z.of_nat b) mod 2 ^ 64.

(** [snprintf(b + off, size, "%s", s)]: nothing is written when [size] is 0;
    otherwise at most [size - 1] bytes of [s] and then a NUL are stored from
    index [off] on.  A store past the end of the array would show as a result
    longer than the array. *)
Definition snprintf (b : list ascii) (off : nat) (size : Z) (s : string)
  : list ascii :=
  if size =? 0 then b
  else
    let out := take (Z.to_nat (size - 1)) (list_ascii_of_string s) ++ [NUL] in
    take off b ++ out ++ drop (off + length out) b.

(** [%d] and [%i]: the decimal text of an [int]. *)
Definition string_of_Z (z : Z) : string := NilZero.string_of_int (Z.to_int z).

(** ** Wait statuses (the macros of <sys/wait.h> as glibc defines them) *)

Definition WTERMSIG (stat : Z) : Z := Z.land stat 127.
Definition WEXITSTATUS (stat : Z) : Z := Z.shiftr (Z.land stat 65280) 8.
Definition WIFEXITED (stat : Z) : bool := WTERMSIG stat =? 0.
Definition signed_char (x : Z) : Z :=
  let y := x mod 256 in if 128 <=? y then y - 256 else y.
Definition WIFSIGNALED (stat : Z) : bool :=
  0 <? Z.shiftr (signed_char (Z.land stat 127 + 1)) 1.

(** The status of a child that called [exit(code)], and of one killed by
    signal [sig]. *)
Definition W_EXITCODE (code sig : Z) : Z := Z.lor (Z.shiftl code 8) sig.

(** ** display_process_end *)

Definition exit_line (pid n : Z) : string :=
  ("PID " ++ string_of_Z pid ++ " finished with exit status " ++ string_of_Z n
     ++ String LF EmptyString)%string.

Definition signal_line (pid n : Z) : string :=
  ("PID " ++ string_of_Z pid ++ " finished with signal " ++ string_of_Z n
     ++ String LF EmptyString)%string.

(** One bounded append at the end of the text of [endstatus]. *)
Definition append_status (endstatus : list ascii) (s : string) : list ascii :=
  snprintf endstatus (strlen endstatus)
           (size_sub ENDSTATUS_BUF_LEN (strlen endstatus)) s.

Definition display_process_end (stat pid : Z) (endstatus : list ascii)
  : list ascii :=
  let b1 :=
    if WIFEXITED stat
    then append_status endstatus (exit_line pid (WEXITSTATUS stat))
    else endstatus in
  if WIFSIGNALED stat
  then append_status b1 (signal_line pid (WTERMSIG stat))
  else b1.

(** The buffer after a sequence of observed terminations, each a pair of a
    wait status and a process identifier. *)
Definition display_all (events : list (Z * Z)) (endstatus : list ascii)
  : list ascii :=
  fold_left (fun b e => display_process_end (fst e) (snd e) b) events endstatus.

(** The status line a termination status stands for. *)
Definition status_line (stat pid : Z) : string :=
  if WIFEXITED stat then exit_line pid (WEXITSTATUS stat)
  else signal_line pid (WTERMSIG stat).

(** A status [waitpid] reports for a terminated child. *)
Definition is_termination (stat : Z) : bool := WIFEXITED stat || WIFSIGNALED stat.

(** The text [display_process_end] tries to add for a status. *)
Definition display_text (stat pid : Z) : string :=
  if WIFEXITED stat then exit_line pid (WEXITSTATUS stat)
  else if WIFSIGNALED stat then signal_line pid (WTERMSIG stat)
  else EmptyString.

Definition no_nul (s : string) : Prop :=
  Forall (fun c => c <> NUL) (list_ascii_of_string s).

(** The invariant of the status report buffer: it is the array allocated at
    start-up and its text, with the closing NUL, lies inside it. *)
Definition buffer_ok (b : list ascii) : Prop :=
  length b = ENDSTATUS_BUF_LEN /\ (strlen b < ENDSTATUS_BUF_LEN)%nat.

(** ** The parsed line (cmdline.h) *)

Record cmd := { args : list string }.

Record line := {
  cmds : list cmd;
  file_input : option string;
  file_output : option string;
  file_output_append : bool;
  background : bool }.

Definition n_args (c : cmd) : nat := length (args c).
Definition n_cmds (l : line) : nat := length (cmds l).
Definition arg (c : cmd) (j : nat) : string := nth j (args c) EmptyString.

(** [commandIndex == line->n_cmds - 1], in [size_t] arithmetic. *)
Definition is_last (l : line) (commandIndex : nat) : bool :=
  Z.of_nat commandIndex =? size_sub (n_cmds l) 1.

(** ** Kernel objects *)

(** What a descriptor refers to. *)
Inductive file :=
| Inherited (slot : Z)   (* the stream the shell was started with on [slot] *)
| PipeRead (p : nat)
| PipeWrite (p : nat)
| OpenFile (path : string) (flags : Z).

Inductive inode :=
| Regular (mode : Z) (data : string)
| NullDevice.

(** Linux values of <fcntl.h> and <unistd.h>. *)
Definition O_RDONLY : Z := 0.
Definition O_WRONLY : Z := 1.
Definition O_CREAT : Z := 64.
Definition O_TRUNC : Z := 512.
Definition O_APPEND : Z := 1024.
Definition STDIN_FILENO : Z := 0.
Definition STDOUT_FILENO : Z := 1.
Definition WNOHANG : Z := 1.
Definition S_IRUSR : Z := 256.
Definition S_IWUSR : Z := 128.

Definition has_flag (flags f : Z) : bool := negb (Z.land flags f =? 0).

(** The lowest descriptor that is not open, as [open] and [pipe] pick it. *)
Fixpoint lowest_free_from (fds : gmap Z file) (fuel : nat) (n : Z) : Z :=
  match fuel with
  | O => n
  | S k => match fds !! n with
           | None => n
           | Some _ => lowest_free_from fds k (n + 1)
           end
  end.

Definition lowest_free (fds : gmap Z file) : Z := lowest_free_from fds (size fds) 0.

Definition sys_dup2 (oldfd newfd : Z) (fds : gmap Z file) : gmap Z file :=
  match fds !! oldfd with
  | Some f => <[newfd := f]> fds
  | None => fds
  end.

Definition sys_close (fd : Z) (fds : gmap Z file) : gmap Z file := delete fd fds.

(** [pipe]: the read end and the write end of a new pipe on the two lowest
    free descriptors. *)
Definition sys_pipe (p : nat) (fds : gmap Z file) : Z * Z * gmap Z file :=
  let r := lowest_free fds in
  let fds1 := <[r := PipeRead p]> fds in
  let w := lowest_free fds1 in
  (r, w, <[w := PipeWrite p]> fds1).

(** A path as the kernel resolves it from the working directory. *)
Definition resolve (cwd path : string) : string :=
  match path with
  | String "/" _ => path
  | _ => (cwd ++ "/" ++ path)%string
  end.

(** How a blocking [waitpid(pid, &stat, 0)] of the shell ends.  [main]
    handles SIGCHLD with [sigchld_handler] and SA_RESTART, SIGINT with an
    empty handler and no SA_RESTART, and blocks neither signal. *)
Inductive wait_end :=
| Collected     (* the awaited child ends while the call sleeps: the call
                   returns it, and SIGCHLD is handled as the call returns *)
| Interrupted   (* SIGINT comes first: the call fails (EINTR) *)
| Preempted.    (* SIGCHLD is handled first, for the awaited child before the
                   call sleeps or for another child: the handler runs, and
                   the call, started again, fails (ECHILD) *)

(** What the machine is, outside the shell: which forks fail, what programs
    do, when signals come, the file creation mask, and the values C leaves
    unspecified. *)
Record env := {
  e_fork_fails : nat -> bool;          (* by number of earlier forks *)
  e_wait : Z -> wait_end;              (* the blocking wait for a child *)
  e_exits : Z -> list (list Z);        (* while the handler runs at that wait:
                                          the children that terminate before
                                          each of its calls of [waitpid] *)
  e_exec : list string -> option Z;    (* wait status of the loaded program;
                                          [None]: [execvp] fails *)
  e_output : list string -> string;    (* what the program writes to stdout *)
  e_umask : Z;
  e_vararg : Z;      (* what [open] reads as its mode when none is passed *)
  e_uninit : Z;      (* the content of an uninitialised [int] *)
  e_home : option string;              (* getenv("HOME") *)
  e_passwd : string -> option string;  (* getpwnam(user)->pw_dir *)
  e_isdir : string -> bool }.

(** [open(path, flags)] or [open(path, flags, mode)] for the owner of the
    files.  The result is the new descriptor, or -1. *)
Definition sys_open (e : env) (cwd path : string) (flags : Z) (mode : option Z)
    (fds : gmap Z file) (files : gmap string inode)
  : Z * gmap Z file * gmap string inode :=
  let key := resolve cwd path in
  let fd := lowest_free fds in
  let opened := <[fd := OpenFile key flags]> fds in
  let writing := has_flag flags O_WRONLY in
  match files !! key with
  | Some NullDevice => (fd, opened, files)
  | Some (Regular m d) =>
      if has_flag m (if writing then S_IWUSR else S_IRUSR)
      then (fd, opened,
            if writing && has_flag flags O_TRUNC
            then <[key := Regular m EmptyString]> files else files)
      else (-1, fds, files)
  | None =>
      if has_flag flags O_CREAT
      then
        let m := Z.land (Z.land (default (e_vararg e) mode) (Z.lnot (e_umask e))) 4095 in
        (fd, opened, <[key := Regular m EmptyString]> files)
      else (-1, fds, files)
  end.

(** What a program that writes [data] to its standard output leaves in the
    file system. *)
Definition write_stdout (data : string) (fds : gmap Z file)
    (files : gmap string inode) : gmap string inode :=
  match fds !! STDOUT_FILENO with
  | Some (OpenFile key flags) =>
      match files !! key with
      | Some (Regular m d) =>
          if has_flag flags O_WRONLY
          then <[key := Regular m
                   (if has_flag flags O_APPEND then (d ++ data)%string
                    else (data ++ string_of_list_ascii
                                    (drop (String.length data) (list_ascii_of_string d)))%string)]>
                 files
          else files
      | _ => files
      end
  | _ => files
  end.

(** ** Processes *)

(** A child of the shell that has not been waited for. *)
Record child := { c_pid : Z; c_status : Z; c_exited : bool }.

(** A spawned process at the point where it calls [execvp]. *)
Record image := {
  im_pid : Z;
  im_index : nat;                 (* commandIndex *)
  im_pipeIn : Z;                  (* the pipeIn it was spawned with *)
  im_args : list string;
  im_fds : gmap Z file;           (* its descriptor table *)
  im_perror : list string;        (* the messages it passed to [perror] *)
  im_sigchld_ignored : bool;
  im_loaded : bool;               (* [execvp] succeeded *)
  im_status : Z }.                (* the wait status it terminates with *)

Inductive syscall :=
| SysPipe (r w : Z)
| SysFork (ret : Z)
| SysClose (fd : Z)
| SysWaitpid (pid options ret : Z)
| SysChdir (path : string) (ret : Z).

(** The shell process and the machine around it. *)
Record world := {
  w_fds : gmap Z file;            (* the shell's descriptor table *)
  w_files : gmap string inode;
  w_cwd : string;
  w_npipes : nat;                 (* pipes created so far *)
  w_nforks : nat;                 (* calls of [fork] so far *)
  w_next_pid : Z;
  w_children : list child;
  w_images : list image;          (* every process spawned, oldest first *)
  w_endstatus : list ascii;       (* the array [endstatus] points to *)
  w_stderr : list string;         (* what the shell wrote to its stderr *)
  w_trace : list syscall }.       (* the shell's system calls, oldest first *)

Definition set_fds (fds : gmap Z file) (w : world) : world :=
  {| w_fds := fds; w_files := w_files w; w_cwd := w_cwd w; w_npipes := w_npipes w;
     w_nforks := w_nforks w; w_next_pid := w_next_pid w; w_children := w_children w;
     w_images := w_images w; w_endstatus := w_endstatus w; w_stderr := w_stderr w;
     w_trace := w_trace w |}.

Definition set_files (files : gmap string inode) (w : world) : world :=
  {| w_fds := w_fds w; w_files := files; w_cwd := w_cwd w; w_npipes := w_npipes w;
     w_nforks := w_nforks w; w_next_pid := w_next_pid w; w_children := w_children w;
     w_images := w_images w; w_endstatus := w_endstatus w; w_stderr := w_stderr w;
     w_trace := w_trace w |}.

Definition set_cwd (cwd : string) (w : world) : world :=
  {| w_fds := w_fds w; w_files := w_files w; w_cwd := cwd; w_npipes := w_npipes w;
     w_nforks := w_nforks w; w_next_pid := w_next_pid w; w_children := w_children w;
     w_images := w_images w; w_endstatus := w_endstatus w; w_stderr := w_stderr w;
     w_trace := w_trace w |}.

Definition set_npipes (n : nat) (w : world) : world :=
  {| w_fds := w_fds w; w_files := w_files w; w_cwd := w_cwd w; w_npipes := n;
     w_nforks := w_nforks w; w_next_pid := w_next_pid w; w_children := w_children w;
     w_images := w_images w; w_endstatus := w_endstatus w; w_stderr := w_stderr w;
     w_trace := w_trace w |}.

Definition set_nforks (n : nat) (w : world) : world :=
  {| w_fds := w_fds w; w_files := w_files w; w_cwd := w_cwd w; w_npipes := w_npipes w;
     w_nforks := n; w_next_pid := w_next_pid w; w_children := w_children w;
     w_images := w_images w; w_endstatus := w_endstatus w; w_stderr := w_stderr w;
     w_trace := w_trace w |}.

Definition set_next_pid (pid : Z) (w : world) : world :=
  {| w_fds := w_fds w; w_files := w_files w; w_cwd := w_cwd w; w_npipes := w_npipes w;
     w_nforks := w_nforks w; w_next_pid := pid; w_children := w_children w;
     w_images := w_images w; w_endstatus := w_endstatus w; w_stderr := w_stderr w;
     w_trace := w_trace w |}.

Definition set_children (cs : list child) (w : world) : world :=
  {| w_fds := w_fds w; w_files := w_files w; w_cwd := w_cwd w; w_npipes := w_npipes w;
     w_nforks := w_nforks w; w_next_pid := w_next_pid w; w_children := cs;
     w_images := w_images w; w_endstatus := w_endstatus w; w_stderr := w_stderr w;
     w_trace := w_trace w |}.

Definition add_image (im : image) (w : world) : world :=
  {| w_fds := w_fds w; w_files := w_files w; w_cwd := w_cwd w; w_npipes := w_npipes w;
     w_nforks := w_nforks w; w_next_pid := w_next_pid w; w_children := w_children w;
     w_images := w_images w ++ [im]; w_endstatus := w_endstatus w;
     w_stderr := w_stderr w; w_trace := w_trace w |}.

Definition set_endstatus (b : list ascii) (w : world) : world :=
  {| w_fds := w_fds w; w_files := w_files w; w_cwd := w_cwd w; w_npipes := w_npipes w;
     w_nforks := w_nforks w; w_next_pid := w_next_pid w; w_children := w_children w;
     w_images := w_images w; w_endstatus := b; w_stderr := w_stderr w;
     w_trace := w_trace w |}.

(** One write of the shell to its standard error. *)
Definition to_stderr (s : string) (w : world) : world :=
  {| w_fds := w_fds w; w_files := w_files w; w_cwd := w_cwd w; w_npipes := w_npipes w;
     w_nforks := w_nforks w; w_next_pid := w_next_pid w; w_children := w_children w;
     w_images := w_images w; w_endstatus := w_endstatus w;
     w_stderr := w_stderr w ++ [s]; w_trace := w_trace w |}.

Definition traced (c : syscall) (w : world) : world :=
  {| w_fds := w_fds w; w_files := w_files w; w_cwd := w_cwd w; w_npipes := w_npipes w;
     w_nforks := w_nforks w; w_next_pid := w_next_pid w; w_children := w_children w;
     w_images := w_images w; w_endstatus := w_endstatus w; w_stderr := w_stderr w;
     w_trace := w_trace w ++ [c] |}.

(** [close(fd)] called by the shell. *)
Definition shell_close (fd : Z) (w : world) : world :=
  traced (SysClose fd) (set_fds (sys_close fd (w_fds w)) w).

(** [waitpid(pid, &stat, options)] over the children of the caller; [stat] is
    what the variable held before the call.  The result is the return value,
    the variable after the call, and the children left.  A blocking wait
    that no signal disturbs returns once the awaited child has terminated;
    [blocking_wait] below has the signals. *)
Definition awaited (pid : Z) (c : child) : bool := (pid =? -1) || (c_pid c =? pid).

Fixpoint reap (pid : Z) (ready : child -> bool) (cs : list child)
  : option (child * list child) :=
  match cs with
  | [] => None
  | c :: r =>
      if awaited pid c && ready c then Some (c, r)
      else match reap pid ready r with
           | Some (x, r') => Some (x, c :: r')
           | None => None
           end
  end.

Definition sys_waitpid (pid options stat : Z) (cs : list child)
  : Z * Z * list child :=
  if forallb (fun c => negb (awaited pid c)) cs then (-1, stat, cs)
  else
    match reap pid c_exited cs with
    | Some (c, r) => (c_pid c, c_status c, r)
    | None =>
        if has_flag options WNOHANG then (0, stat, cs)
        else match reap pid (fun _ => true) cs with
             | Some (c, r) => (c_pid c, c_status c, r)
             | None => (-1, stat, cs)
             end
    end.

(** Child [pid] terminates. *)
Definition terminate (pid : Z) (cs : list child) : list child :=
  map (fun c => if c_pid c =? pid
                then {| c_pid := c_pid c; c_status := c_status c; c_exited := true |}
                else c) cs.

Definition terminate_all (pids : list Z) (cs : list child) : list child :=
  fold_left (fun cs pid => terminate pid cs) pids cs.

Definition ended (c : child) : child :=
  {| c_pid := c_pid c; c_status := c_status c; c_exited := true |}.

(** ** The spawned child, from [fork] to [execvp] *)

Record proc := {
  p_fds : gmap Z file;
  p_files : gmap string inode;
  p_perror : list string }.

(** [fd = open(path, flags); if (fd == -1) perror(msg); else { dup2(fd,
    target); close(fd); }] *)
Definition redirect (e : env) (cwd path : string) (flags target : Z)
    (msg : string) (p : proc) : proc :=
  let '(fd, fds, files) := sys_open e cwd path flags None (p_fds p) (p_files p) in
  if fd =? -1
  then {| p_fds := fds; p_files := files; p_perror := p_perror p ++ [msg] |}
  else {| p_fds := sys_close fd (sys_dup2 fd target fds); p_files := files;
          p_perror := p_perror p |}.

Definition is_set (o : option string) : bool :=
  match o with Some _ => true | None => false end.

(** Redirecting input. *)
Definition redirect_input (e : env) (l : line) (commandIndex : nat) (pipeIn : Z)
    (cwd : string) (p : proc) : proc :=
  if 0 <? pipeIn then
    {| p_fds := sys_close pipeIn (sys_dup2 pipeIn STDIN_FILENO (p_fds p));
       p_files := p_files p; p_perror := p_perror p |}
  else if ((commandIndex =? 0)%nat && is_set (file_input l)) || background l then
    redirect e cwd (default "/dev/null"%string (file_input l)) O_RDONLY
             STDIN_FILENO "Input redirection failed" p
  else p.

(** Redirecting output. *)
Definition redirect_output (e : env) (l : line) (commandIndex : nat)
    (pipes : Z * Z) (cwd : string) (p : proc) : proc :=
  let p1 :=
    if negb (is_last l commandIndex) then
      {| p_fds := sys_close (snd pipes) (sys_dup2 (snd pipes) STDOUT_FILENO (p_fds p));
         p_files := p_files p; p_perror := p_perror p |}
    else p in
  match file_output l with
  | Some path =>
      if is_last l commandIndex then
        redirect e cwd path
                 (Z.lor (Z.lor O_WRONLY O_CREAT)
                        (if file_output_append l then O_APPEND else O_TRUNC))
                 STDOUT_FILENO "Output redirection failed" p1
      else p1
  | None => p1
  end.

(** The child branch of [execute_command]: the process image at [execvp],
    the file system it leaves, and the status it will terminate with. *)
Definition child_branch (e : env) (l : line) (command : cmd) (commandIndex : nat)
    (pipeIn : Z) (pipes : Z * Z) (pid : Z) (cwd : string)
    (fds : gmap Z file) (files : gmap string inode)
  : image * gmap string inode * Z :=
  let p0 := {| p_fds := fds; p_files := files; p_perror := [] |} in
  let p1 := redirect_input e l commandIndex pipeIn cwd p0 in
  let p2 := redirect_output e l commandIndex pipes cwd p1 in
  let im loaded diag st :=
    {| im_pid := pid; im_index := commandIndex; im_pipeIn := pipeIn;
       im_args := args command; im_fds := p_fds p2; im_perror := diag;
       im_sigchld_ignored := background l; im_loaded := loaded;
       im_status := st |} in
  match e_exec e (args command) with
  | Some st =>
      (im true (p_perror p2) st,
       write_stdout (e_output e (args command)) (p_fds p2) (p_files p2), st)
  | None =>
      (im false (p_perror p2 ++ ["execvp failed"%string]) (W_EXITCODE 1 0),
       p_files p2, W_EXITCODE 1 0)
  end.

(** ** sigchld_handler *)

(** The do-while loop of the handler; [None] when [fuel] iterations did not
    reach its exit. *)
Fixpoint sigchld_loop (fuel : nat) (stat : Z) (w : world) : option world :=
  match fuel with
  | O => None
  | S k =>
      let '(pid, stat', cs) := sys_waitpid (-1) WNOHANG stat (w_children w) in
      let w1 := traced (SysWaitpid (-1) WNOHANG pid) (set_children cs w) in
      let w2 :=
        if 0 <? pid
        then set_endstatus (display_process_end stat' pid (w_endstatus w1)) w1
        else w1 in
      if negb (pid =? -1) then sigchld_loop k stat' w2 else Some w2
  end.

Definition sigchld_handler (fuel : nat) (e : env) (w : world) : option world :=
  sigchld_loop fuel (e_uninit e) w.

(** The handler entered while the shell is in a blocking wait: the loop of
    [sigchld_handler] again, with the children of [sched] terminating
    before each call of [waitpid].  When [sched] is used up every child
    still there terminates, and the loop runs to its end. *)
Fixpoint sigchld_among (sched : list (list Z)) (stat : Z) (w : world)
  : option world :=
  match sched with
  | [] =>
      let w0 := set_children (map ended (w_children w)) w in
      sigchld_loop (S (length (w_children w0))) stat w0
  | pids :: rest =>
      let w0 := set_children (terminate_all pids (w_children w)) w in
      let '(pid, stat', cs) := sys_waitpid (-1) WNOHANG stat (w_children w0) in
      let w1 := traced (SysWaitpid (-1) WNOHANG pid) (set_children cs w0) in
      let w2 :=
        if 0 <? pid
        then set_endstatus (display_process_end stat' pid (w_endstatus w1)) w1
        else w1 in
      if negb (pid =? -1) then sigchld_among rest stat' w2 else Some w2
  end.

(** The handler run at the wait for [pid]; it does return
    ([sigchld_among_returns]). *)
Definition handler_at_wait (e : env) (pid : Z) (w : world) : world :=
  default w (sigchld_among (e_exits e pid) (e_uninit e) w).

(** [waitpid(pid, &stat, 0)] as [execute_command] calls it, with [stat] not
    initialised: the content of [stat] after the call, and the world. *)
Definition blocking_wait (e : env) (pid : Z) (w : world) : Z * world :=
  match e_wait e pid with
  | Collected =>
      let '(ret, stat, cs) := sys_waitpid pid 0 (e_uninit e) (w_children w) in
      (stat, handler_at_wait e pid (traced (SysWaitpid pid 0 ret) (set_children cs w)))
  | Interrupted => (e_uninit e, traced (SysWaitpid pid 0 (-1)) w)
  | Preempted =>
      let w1 := handler_at_wait e pid w in
      let '(ret, stat, cs) := sys_waitpid pid 0 (e_uninit e) (w_children w1) in
      (stat, traced (SysWaitpid pid 0 ret) (set_children cs w1))
  end.

(** ** execute_command *)

Definition execute_command (e : env) (l : line) (command : cmd)
    (commandIndex : nat) (pipeIn : Z) (w : world) : Z * world :=
  let last := is_last l commandIndex in
  (* Opening pipe if needed *)
  let '(pipes, w1) :=
    if negb last then
      let '(r, wr, fds) := sys_pipe (w_npipes w) (w_fds w) in
      ((r, wr), traced (SysPipe r wr) (set_npipes (S (w_npipes w)) (set_fds fds w)))
    else ((e_uninit e, e_uninit e), w) in
  (* Forking *)
  let w2 := set_nforks (S (w_nforks w1)) w1 in
  if e_fork_fails e (w_nforks w1) then
    (-1, to_stderr "fork failed" (traced (SysFork (-1)) w2))
  else
    let pid := w_next_pid w2 in
    let '(im, files, st) :=
      child_branch e l command commandIndex pipeIn pipes pid
                   (w_cwd w2) (w_fds w2) (w_files w2) in
    let w3 :=
      traced (SysFork pid)
        (add_image im
           (set_children (w_children w2 ++ [{| c_pid := pid; c_status := st;
                                                c_exited := false |}])
              (set_next_pid (pid + 1) (set_files files w2)))) in
    let w4 := if negb last then shell_close (snd pipes) w3 else w3 in
    let w5 := if 0 <? pipeIn then shell_close pipeIn w4 else w4 in
    let w6 :=
      if negb (background l) && last then
        let '(stat, w') := blocking_wait e pid w5 in
        set_endstatus (display_process_end stat pid (w_endstatus w')) w'
      else w5 in
    (if negb last then fst pipes else -1, w6).

(** ** cd *)

(** The bytes of [path] after its first one, up to the next '/'. *)
Fixpoint until_slash (s : string) : string :=
  match s with
  | EmptyString => EmptyString
  | String c r => if Ascii.eqb c "/" then EmptyString else String c (until_slash r)
  end.

Definition names_user (path : string) : bool :=
  match path with
  | String "~" (String c _) => negb (Ascii.eqb c "/")
  | _ => false
  end.

Definition sys_chdir (e : env) (path : string) (w : world) : world :=
  let target := resolve (w_cwd w) path in
  if e_isdir e target then traced (SysChdir path 0) (set_cwd target w)
  else to_stderr "Failed to set working directory" (traced (SysChdir path (-1)) w).

Definition cd (e : env) (path : string) (w : world) : world :=
  let at_home := String.eqb path "~" in
  if at_home && negb (is_set (e_home e)) then
    to_stderr "Error while reading the HOME environment variable" w
  else
    let newPath := if at_home then e_home e else None in
    if names_user path then
      match e_passwd e (until_slash (String.substring 1 (String.length path) path)) with
      | None => to_stderr ("This user does not exist" ++ String LF EmptyString) w
      | Some dir => sys_chdir e dir w
      end
    else sys_chdir e (default path newPath) w.

(** ** execute_line *)

Definition is_cd (c : cmd) : bool :=
  (n_args c =? 2)%nat && String.eqb (arg c 0) "cd".

(** The loop of [execute_line] from command [i] on, [cs] being the commands
    that are left. *)
Fixpoint execute_from (e : env) (l : line) (cs : list cmd) (i : nat)
    (currPipe : Z) (w : world) : Z * world :=
  match cs with
  | [] => (currPipe, w)
  | c :: rest =>
      if is_cd c then execute_from e l rest (S i) currPipe (cd e (arg c 1) w)
      else
        let '(p, w') := execute_command e l c i currPipe w in
        execute_from e l rest (S i) p w'
  end.

Definition execute_line (e : env) (l : line) (w : world) : world :=
  snd (execute_from e l (cmds l) 0 (-1) w).

(** ** The flush at the top of the loop of [main] *)

Definition flush_print (w : world) : world :=
  to_stderr (string_of_list_ascii (c_string (w_endstatus w))) w.

Definition flush_clear (w : world) : world :=
  set_endstatus
    (fold_left (fun b i => <[i := NUL]> b) (seq 0 ENDSTATUS_BUF_LEN) (w_endstatus w)) w.

Definition flush (w : world) : world :=
  if (0 <? strlen (w_endstatus w))%nat then flush_clear (flush_print w) else w.

(** ** The shell among asynchronous terminations *)

(** The shell as [main] leaves it before its loop: the three streams it was
    started with, and the zeroed status buffer. *)
Definition boot (files : gmap string inode) (cwd : string) (first_pid : Z) : world :=
  {| w_fds := <[0 := Inherited 0]> (<[1 := Inherited 1]> (<[2 := Inherited 2]> ∅));
     w_files := files; w_cwd := cwd; w_npipes := 0; w_nforks := 0;
     w_next_pid := first_pid; w_children := []; w_images := [];
     w_endstatus := calloc ENDSTATUS_BUF_LEN; w_stderr := []; w_trace := [] |}.

(** Where the loop of [main] stands: before the test of the buffer, between
    the test and [fprintf], between [fprintf] and the clearing loop, and from
    there to the end of [execute_line]. *)
Inductive pc := AtTest | AtPrint | AtClear | AtRead.

Record shell := { sh_pc : pc; sh_input : list line; sh_world : world }.

Inductive tick :=
| Step                   (* [main] runs up to its next point *)
| ChildExit (pid : Z).   (* a child terminates and SIGCHLD is handled *)

Definition main_step (e : env) (s : shell) : shell :=
  let w := sh_world s in
  match sh_pc s with
  | AtTest =>
      {| sh_pc := if (0 <? strlen (w_endstatus w))%nat then AtPrint else AtRead;
         sh_input := sh_input s; sh_world := w |}
  | AtPrint => {| sh_pc := AtClear; sh_input := sh_input s; sh_world := flush_print w |}
  | AtClear => {| sh_pc := AtRead; sh_input := sh_input s; sh_world := flush_clear w |}
  | AtRead =>
      match sh_input s with
      | [] => s
      | l :: rest =>
          {| sh_pc := AtTest; sh_input := rest; sh_world := execute_line e l w |}
      end
  end.

(** The handler needs one call of [waitpid] for each child it collects and
    one more to see that none is left. *)
Definition deliver (e : env) (pid : Z) (s : shell) : option shell :=
  let w := set_children (terminate pid (w_children (sh_world s))) (sh_world s) in
  match sigchld_handler (S (length (w_children w))) e w with
  | Some w' => Some {| sh_pc := sh_pc s; sh_input := sh_input s; sh_world := w' |}
  | None => None
  end.

(** A run of the shell under a schedule; [None] when a handler does not
    return. *)
Fixpoint run (e : env) (ticks : list tick) (s : shell) : option shell :=
  match ticks with
  | [] => Some s
  | Step :: r => run e r (main_step e s)
  | ChildExit pid :: r =>
      match deliver e pid s with
      | Some s' => run e r s'
      | None => None
      end
  end.

(** ** Vocabulary of the statements *)

Definition is_pipe_end (f : file) : Prop :=
  exists p, f = PipeRead p \/ f = PipeWrite p.

(** The descriptor table of the shell while it executes lines: the three
    streams it was started with, and above them only ends of pipes. *)
Definition shell_table (fds : gmap Z file) : Prop :=
  fds !! 0 = Some (Inherited 0) /\ fds !! 1 = Some (Inherited 1) /\
  fds !! 2 = Some (Inherited 2) /\
  forall fd f, fds !! fd = Some f -> fd < 0 \/ 2 < fd -> 3 <= fd /\ is_pipe_end f.

(** The descriptor threaded from stage to stage: none, or the open read end
    of a pipe. *)
Definition threaded (fds : gmap Z file) (pipeIn : Z) : Prop :=
  pipeIn = -1 \/ exists p, fds !! pipeIn = Some (PipeRead p).

(** Process identifiers are positive, and every live child was created
    before the next one is handed out. *)
Definition pids_fresh (w : world) : Prop :=
  0 < w_next_pid w /\ Forall (fun c => 0 < c_pid c < w_next_pid w) (w_children w).

(** [open(path, flags)] fails for the owner of the files. *)
Definition open_fails (files : gmap string inode) (cwd path : string) (flags : Z)
  : bool :=
  match files !! resolve cwd path with
  | Some NullDevice => false
  | Some (Regular m _) =>
      negb (has_flag m (if has_flag flags O_WRONLY then S_IWUSR else S_IRUSR))
  | None => negb (has_flag flags O_CREAT)
  end.

(** Standard input is the null device. *)
Definition null_bound (files : gmap string inode) (fds : gmap Z file) : Prop :=
  exists key flags,
    fds !! STDIN_FILENO = Some (OpenFile key flags) /\ files !! key = Some NullDevice.

(** What a first [read] on a descriptor returns without waiting for anyone:
    the bytes at hand (none at end-of-stream); [None] when the answer depends
    on a writer or on the terminal. *)
Definition read_now (files : gmap string inode) (fds : gmap Z file) (fd : Z)
  : option string :=
  match fds !! fd with
  | Some (OpenFile key _) =>
      match files !! key with
      | Some (Regular _ d) => Some d
      | Some NullDevice => Some EmptyString
      | None => None
      end
  | _ => None
  end.

(** The processes on which a trace waits without WNOHANG. *)
Definition blocking_waits (t : list syscall) : list Z :=
  flat_map (fun c => match c with
                     | SysWaitpid pid options _ =>
                         if has_flag options WNOHANG then [] else [pid]
                     | _ => []
                     end) t.

(** The processes spawned between two states of the world. *)
Definition spawned (w w' : world) : list image :=
  drop (length (w_images w)) (w_images w').

(** The images among [ims] that run the final command of [l]. *)
Definition final_stage (l : line) (ims : list image) : list image :=
  filter (fun im => is_last l (im_index im) = true) ims.

(** The flags of the output redirection of [l]. *)
Definition output_flags (l : line) : Z :=
  Z.lor (Z.lor O_WRONLY O_CREAT) (if file_output_append l then O_APPEND else O_TRUNC).

(** The input redirection of a stage is attempted and fails. *)
Definition input_fails (l : line) (commandIndex : nat) (pipeIn : Z)
    (files : gmap string inode) (cwd : string) : bool :=
  negb (0 <? pipeIn) &&
  (((commandIndex =? 0)%nat && is_set (file_input l)) || background l) &&
  open_fails files cwd (default "/dev/null"%string (file_input l)) O_RDONLY.

(** The output redirection of a stage is attempted and fails. *)
Definition output_fails (l : line) (commandIndex : nat)
    (files : gmap string inode) (cwd : string) : bool :=
  is_last l commandIndex &&
  match file_output l with
  | Some path => open_fails files cwd path (output_flags l)
  | None => false
  end.

(** The descriptor table of a child after [redirect_input], when the shell's
    table is [fds]. *)
Definition input_table (l : line) (commandIndex : nat) (pipeIn : Z)
    (files : gmap string inode) (cwd : string) (fds : gmap Z file) : gmap Z file :=
  if 0 <? pipeIn then
    match fds !! pipeIn with
    | Some f => delete pipeIn (<[STDIN_FILENO := f]> fds)
    | None => fds
    end
  else if (((commandIndex =? 0)%nat && is_set (file_input l)) || background l)
          && negb (open_fails files cwd (default "/dev/null"%string (file_input l)) O_RDONLY)
  then <[STDIN_FILENO :=
           OpenFile (resolve cwd (default "/dev/null"%string (file_input l))) O_RDONLY]> fds
  else fds.

(** The descriptor table of a child after [redirect_output], [fds] being its
    table before and [wr] the write end of the pipe of the stage. *)
Definition output_table (l : line) (commandIndex : nat) (wr : Z)
    (files : gmap string inode) (cwd : string) (fds : gmap Z file) : gmap Z file :=
  let fds1 :=
    if negb (is_last l commandIndex) then
      match fds !! wr with
      | Some f => delete wr (<[STDOUT_FILENO := f]> fds)
      | None => fds
      end
    else fds in
  match file_output l with
  | Some path =>
      if is_last l commandIndex && negb (open_fails files cwd path (output_flags l))
      then <[STDOUT_FILENO := OpenFile (resolve cwd path) (output_flags l)]> fds1
      else fds1
  | None => fds1
  end.

(** The pipe [execute_command] opens for a stage, with the shell's table
    after it: the two descriptors, or uninitialised values for the last
    stage. *)
Definition stage_pipe (e : env) (l : line) (commandIndex : nat) (w : world)
  : (Z * Z) * gmap Z file :=
  if negb (is_last l commandIndex) then
    let '(r, wr, fds) := sys_pipe (w_npipes w) (w_fds w) in ((r, wr), fds)
  else ((e_uninit e, e_uninit e), w_fds w).

(** The child [execute_command] spawns for a stage when [fork] succeeds. *)
Definition stage_child (e : env) (l : line) (command : cmd) (commandIndex : nat)
    (pipeIn : Z) (w : world) : image * gmap string inode * Z :=
  child_branch e l command commandIndex pipeIn (stage_pipe e l commandIndex w).1
               (w_next_pid w) (w_cwd w) (stage_pipe e l commandIndex w).2 (w_files w).

(** [execvp] finds the program of a command. *)
Definition loads (e : env) (c : cmd) : bool :=
  match e_exec e (args c) with Some _ => true | None => false end.

(** ** A sample machine *)

(** Every fork succeeds; every blocking wait returns its child, and the
    children left terminate while its SIGCHLD is handled; "false" exits with
    1, "nosuch" is not a program, any other program exits with 0; a program
    writes its arguments to its standard output.  [vararg] is what [open]
    finds in place of a mode. *)
Definition machine (vararg : Z) : env :=
  {| e_fork_fails := fun _ => false;
     e_wait := fun _ => Collected;
     e_exits := fun _ => [];
     e_exec := fun a => match a with
                        | "false"%string :: _ => Some (W_EXITCODE 1 0)
                        | "nosuch"%string :: _ => None
                        | _ => Some (W_EXITCODE 0 0)
                        end;
     e_output := fun a => String.concat " " (tl a);
     e_umask := 18;
     e_vararg := vararg;
     e_uninit := 0;
     e_home := Some "/home/u"%string;
     e_passwd := fun _ => None;
     e_isdir := fun p => String.eqb p "/tmp" || String.eqb p "/home/u" |}.

(** A machine with other signals at the blocking waits. *)
Definition with_signals (how : Z -> wait_end) (exits : Z -> list (list Z)) (e : env)
  : env :=
  {| e_fork_fails := e_fork_fails e; e_wait := how; e_exits := exits;
     e_exec := e_exec e; e_output := e_output e; e_umask := e_umask e;
     e_vararg := e_vararg e; e_uninit := e_uninit e; e_home := e_home e;
     e_passwd := e_passwd e; e_isdir := e_isdir e |}.

(** A file system with the null device only, and the shell started in it. *)
Definition root_fs : gmap string inode := <["/dev/null"%string := NullDevice]> ∅.
Definition fresh_shell : world := boot root_fs "/home/u" 100.

Definition command (a : list string) : cmd := {| args := a |}.

Definition plain_line (cs : list (list string)) (bg : bool) : line :=
  {| cmds := map command cs; file_input := None; file_output := None;
     file_output_append := false; background := bg |}.

(** [w'] is [w] after calls of [waitpid] and records in the buffer only:
    children may have been collected, nothing else of the shell differs. *)
Definition same_shell (w w' : world) : Prop :=
  w_fds w' = w_fds w /\ w_files w' = w_files w /\ w_cwd w' = w_cwd w /\
  w_npipes w' = w_npipes w /\ w_nforks w' = w_nforks w /\
  w_next_pid w' = w_next_pid w /\ w_images w' = w_images w /\
  w_stderr w' = w_stderr w /\
  map c_pid (w_children w') ⊆ map c_pid (w_children w).

(** What [waitpid] reports of a child: wait status and process identifier. *)
Definition report (c : child) : Z * Z := (c_status c, c_pid c).

(** One iteration of the loop of the handler: the value of [pid], the
    content of [stat] and the world at the test of the loop. *)
Definition sigchld_iteration (stat : Z) (w : world) : Z * Z * world :=
  let '(pid, stat', cs) := sys_waitpid (-1) WNOHANG stat (w_children w) in
  let w1 := traced (SysWaitpid (-1) WNOHANG pid) (set_children cs w) in
  (pid, stat',
   if 0 <? pid
   then set_endstatus (display_process_end stat' pid (w_endstatus w1)) w1
   else w1).


(** ** More vocabulary: the text recorded, the copy of a user name *)

(** Everything [display_process_end] was asked to record for [events], in
    order and uncut. *)
Definition recorded_text (events : list (Z * Z)) : list ascii :=
  concat (map (fun e => list_ascii_of_string (display_text (fst e) (snd e))) events).

(** The entry a spawned process has in the table of children until it is
    waited for. *)
Definition child_of (im : image) : child :=
  {| c_pid := im_pid im; c_status := im_status im; c_exited := false |}.

(** The commands of a line that are run as processes. *)
Definition external (cs : list cmd) : list cmd :=
  filter (fun c => is_cd c = false) cs.

(** [b[i] = c]; a store past the end of the array shows as a longer array. *)
Definition store (b : list ascii) (i : nat) (c : ascii) : list ascii :=
  take i b ++ c :: drop (S i) b.

(** The loop of [cd] that copies a user name: [path] is what follows the
    '~', [user] the array the name goes to, [index] the next free place. *)
Fixpoint copy_user (path : string) (user : list ascii) (index : nat) : list ascii :=
  match path with
  | EmptyString => user
  | String c r =>
      if Ascii.eqb c "/" || Ascii.eqb c NUL then user
      else copy_user r (store user index c) (S index)
  end.

Definition no_slash (s : string) : Prop :=
  Forall (fun c => c <> "/"%char) (list_ascii_of_string s).

(** The standard output of [a] is the write end of the pipe whose read end
    is the standard input of [b]. *)
Definition feeds (a b : image) : Prop :=
  exists k, im_fds a !! STDOUT_FILENO = Some (PipeWrite k) /\
            im_fds b !! STDIN_FILENO = Some (PipeRead k).

(** Each process of the list feeds the next. *)
Fixpoint chained (ims : list image) : Prop :=
  match ims with
  | a :: (b :: _) as rest => feeds a b /\ chained rest
  | _ => True
  end.

(** What links the stage about to run to the one spawned before it: the
    descriptor threaded is the read end of the pipe the earlier process
    writes to, or there is neither. *)
Definition linked (prev : option image) (p : Z) (fds : gmap Z file) : Prop :=
  match prev with
  | None => p = -1
  | Some a => exists k, im_fds a !! STDOUT_FILENO = Some (PipeWrite k) /\
                        fds !! p = Some (PipeRead k)
  end.

(** The shell's table between two stages, [fds0] being its table before the
    line: nothing more when no descriptor is threaded, and otherwise just the
    threaded read end, on a descriptor that was free. *)
Definition threads_over (fds0 : gmap Z file) (p : Z) (fds : gmap Z file) : Prop :=
  (p = -1 /\ fds = fds0) \/
  (exists k, 3 <= p /\ fds0 !! p = None /\ fds = <[p := PipeRead k]> fds0).

(** The permission bits of a file that [open] creates when it is passed no
    mode. *)
Definition created_mode (e : env) : Z :=
  Z.land (Z.land (e_vararg e) (Z.lnot (e_umask e))) 4095.

(** A line of one command with an output path and nothing else. *)
Definition output_line (c : cmd) (path : string) (append : bool) : line :=
  {| cmds := [c]; file_input := None; file_output := Some path;
     file_output_append := append; background := false |}.

(** * Properties *)

(** ** C strings *)

Lemma strlen_le (b : list ascii) : (strlen b <= length b)%nat.
Proof.
  induction b as [|c r IH]; simpl; [lia|].
  destruct (Ascii.eqb c NUL); lia.
Qed.

Lemma c_string_no_nul (b : list ascii) : Forall (fun c => c <> NUL) (c_string b).
Proof.
  unfold c_string. induction b as [|c r IH]; simpl; [constructor|].
  destruct (Ascii.eqb_spec c NUL) as [->|Hc]; simpl; [constructor|].
  constructor; assumption.
Qed.

Lemma strlen_app_nul (l r : list ascii) :
  Forall (fun c => c <> NUL) l -> strlen (l ++ NUL :: r) = length l.
Proof.
  induction 1 as [|c l Hc _ IH]; simpl; [reflexivity|].
  destruct (Ascii.eqb_spec c NUL); [contradiction|]. now rewrite IH.
Qed.

Lemma take_strlen_app_nul (l r : list ascii) :
  Forall (fun c => c <> NUL) l -> c_string (l ++ NUL :: r) = l.
Proof.
  intros H. unfold c_string. rewrite strlen_app_nul by assumption.
  now rewrite take_app_length.
Qed.

Lemma strlen_calloc (n : nat) : strlen (calloc n) = 0%nat.
Proof. destruct n; reflexivity. Qed.

Lemma strlen_lt_nul (b : list ascii) :
  (strlen b < length b)%nat -> b !! strlen b = Some NUL.
Proof.
  induction b as [|c r IH]; simpl; [lia|].
  destruct (Ascii.eqb_spec c NUL) as [->|Hc]; simpl; [reflexivity|].
  intros H. apply IH. lia.
Qed.

(** ** Decimal text never contains a NUL byte *)

Lemma no_nul_app (s t : string) : no_nul s -> no_nul t -> no_nul (s ++ t).
Proof.
  unfold no_nul. induction s as [|c s IH]; simpl; [auto|].
  intros Hs Ht. inversion Hs; subst. constructor; auto.
Qed.

Lemma no_nul_uint (d : Decimal.uint) : no_nul (NilEmpty.string_of_uint d).
Proof.
  unfold no_nul.
  induction d; simpl; constructor; try assumption; discriminate.
Qed.

Lemma no_nul_string_of_Z (z : Z) : no_nul (string_of_Z z).
Proof.
  unfold string_of_Z, NilZero.string_of_int, NilZero.string_of_uint.
  destruct (Z.to_int z) as [d|d].
  - destruct d; try apply no_nul_uint. repeat constructor; discriminate.
  - unfold no_nul; simpl. constructor; [discriminate|].
    destruct d; try apply no_nul_uint. repeat constructor; discriminate.
Qed.

Lemma no_nul_exit_line (pid n : Z) : no_nul (exit_line pid n).
Proof.
  unfold exit_line.
  repeat (apply no_nul_app; try apply no_nul_string_of_Z);
    unfold no_nul; simpl; repeat constructor; discriminate.
Qed.

Lemma no_nul_signal_line (pid n : Z) : no_nul (signal_line pid n).
Proof.
  unfold signal_line.
  repeat (apply no_nul_app; try apply no_nul_string_of_Z);
    unfold no_nul; simpl; repeat constructor; discriminate.
Qed.

(** ** The bounded append *)

Lemma size_sub_small (a b : nat) :
  (b <= a)%nat -> (a <= 4096)%nat -> size_sub a b = Z.of_nat (a - b).
Proof.
  intros H1 H2. unfold size_sub. rewrite Z.mod_small; lia.
Qed.

(** What one append does to a well-formed buffer: the text grows by the
    message cut to the room left before the last byte, and the array keeps
    its size. *)
Lemma append_status_spec (b : list ascii) (s : string) :
  buffer_ok b -> no_nul s ->
  let room := (ENDSTATUS_BUF_LEN - 1 - strlen b)%nat in
  buffer_ok (append_status b s) /\
  c_string (append_status b s) = c_string b ++ take room (list_ascii_of_string s).
Proof.
  intros [Hlen Hs] Hn room.
  unfold append_status, snprintf.
  rewrite size_sub_small by (unfold ENDSTATUS_BUF_LEN in *; lia).
  destruct (Z.eqb_spec (Z.of_nat (ENDSTATUS_BUF_LEN - strlen b)) 0) as [E|E]; [lia|].
  replace (Z.to_nat (Z.of_nat (ENDSTATUS_BUF_LEN - strlen b) - 1)) with room
    by (unfold room; lia).
  set (msg := take room (list_ascii_of_string s)).
  assert (Hmsg : (length msg <= room)%nat) by (unfold msg; rewrite length_take; lia).
  assert (Hnn : Forall (fun c => c <> NUL) (take (strlen b) b ++ msg)).
  { apply Forall_app; split; [apply c_string_no_nul|].
    unfold msg. now apply Forall_take. }
  cbv zeta.
  replace (take (strlen b) b ++ (msg ++ [NUL]) ++ drop (strlen b + length (msg ++ [NUL])) b)
    with ((take (strlen b) b ++ msg) ++ NUL :: drop (strlen b + length (msg ++ [NUL])) b)
    by (rewrite <- !app_assoc; reflexivity).
  split; [split|].
  - rewrite length_app, !length_app, length_take, length_cons, length_drop; simpl.
    unfold room in Hmsg. lia.
  - rewrite strlen_app_nul by assumption.
    rewrite length_app, length_take. unfold room in Hmsg. lia.
  - now rewrite take_strlen_app_nul.
Qed.

(** ** display_process_end *)

Lemma exited_not_signaled (stat : Z) : WIFEXITED stat = true -> WIFSIGNALED stat = false.
Proof.
  unfold WIFEXITED, WIFSIGNALED, WTERMSIG. intros H.
  apply Z.eqb_eq in H. rewrite H. reflexivity.
Qed.

Lemma no_nul_display_text (stat pid : Z) : no_nul (display_text stat pid).
Proof.
  unfold display_text.
  destruct (WIFEXITED stat); [apply no_nul_exit_line|].
  destruct (WIFSIGNALED stat); [apply no_nul_signal_line|constructor].
Qed.

Lemma display_text_termination (stat pid : Z) :
  is_termination stat = true -> display_text stat pid = status_line stat pid.
Proof.
  unfold is_termination, display_text, status_line.
  destruct (WIFEXITED stat); [reflexivity|]. simpl. now intros ->.
Qed.

Lemma display_process_end_spec (stat pid : Z) (b : list ascii) :
  buffer_ok b ->
  buffer_ok (display_process_end stat pid b) /\
  c_string (display_process_end stat pid b) =
    c_string b ++ take (ENDSTATUS_BUF_LEN - 1 - strlen b)
                       (list_ascii_of_string (display_text stat pid)).
Proof.
  intros Hb. unfold display_process_end, display_text.
  destruct (WIFEXITED stat) eqn:He.
  - rewrite (exited_not_signaled _ He).
    apply append_status_spec; [assumption|apply no_nul_exit_line].
  - destruct (WIFSIGNALED stat).
    + apply append_status_spec; [assumption|apply no_nul_signal_line].
    + split; [assumption|]. simpl. rewrite take_nil. now rewrite app_nil_r.
Qed.

Lemma buffer_ok_calloc : buffer_ok (calloc ENDSTATUS_BUF_LEN).
Proof. split; [apply length_replicate|rewrite strlen_calloc; unfold ENDSTATUS_BUF_LEN; lia]. Qed.

Lemma display_all_ok (events : list (Z * Z)) (b : list ascii) :
  buffer_ok b -> buffer_ok (display_all events b).
Proof.
  revert b. induction events as [|[stat pid] es IH]; intros b Hb; simpl; [assumption|].
  apply IH. now apply display_process_end_spec.
Qed.

(** C7. Whatever terminations were recorded since the buffer was allocated,
    one more call of [display_process_end] stores nothing outside the 4096
    bytes of the array, leaves its text (with the closing NUL) inside them,
    and adds the status line cut to the room that was left: the excess is
    dropped silently. *)
Theorem status_buffer_never_overflows (events : list (Z * Z)) (stat pid : Z) :
  let b := display_all events (calloc ENDSTATUS_BUF_LEN) in
  let b' := display_process_end stat pid b in
  length b' = ENDSTATUS_BUF_LEN /\
  (length (c_string b') < ENDSTATUS_BUF_LEN)%nat /\
  c_string b' = c_string b ++ take (ENDSTATUS_BUF_LEN - 1 - length (c_string b))
                                   (list_ascii_of_string (display_text stat pid)).
Proof.
  intros b b'.
  assert (Hb : buffer_ok b) by (apply display_all_ok, buffer_ok_calloc).
  destruct (display_process_end_spec stat pid b Hb) as [[Hl Hs] Hc].
  assert (Hlen : forall x, length (c_string x) = strlen x).
  { intros x. unfold c_string. rewrite length_take. pose proof (strlen_le x). lia. }
  fold b' in Hl, Hs, Hc. rewrite !Hlen. auto.
Qed.

(** C6, as the code has it.  For a buffer that satisfies its invariant and a
    status of a terminated child, [display_process_end] appends the one line
    of the fixed form for that status, cut to the room left in the buffer;
    the line is appended whole whenever it fits. *)
Theorem display_process_end_one_line (stat pid : Z) (b : list ascii) :
  buffer_ok b -> is_termination stat = true ->
  let line := list_ascii_of_string (status_line stat pid) in
  c_string (display_process_end stat pid b) =
    c_string b ++ take (ENDSTATUS_BUF_LEN - 1 - strlen b) line /\
  ((strlen b + length line < ENDSTATUS_BUF_LEN)%nat ->
   c_string (display_process_end stat pid b) = c_string b ++ line).
Proof.
  intros Hb Ht line.
  destruct (display_process_end_spec stat pid b Hb) as [_ Hc].
  rewrite (display_text_termination _ _ Ht) in Hc. fold line in Hc.
  split; [assumption|].
  intros Hfit. rewrite Hc. f_equal. apply take_ge. lia.
Qed.

(** A child that exits with status 3 into the empty buffer. *)
Lemma display_process_end_one_line_witness :
  c_string (display_process_end (W_EXITCODE 3 0) 4242 (calloc ENDSTATUS_BUF_LEN)) =
  list_ascii_of_string (exit_line 4242 3).
Proof.
  pose proof (display_process_end_one_line (W_EXITCODE 3 0) 4242
                (calloc ENDSTATUS_BUF_LEN) buffer_ok_calloc eq_refl) as [_ H].
  apply H. vm_compute. lia.
Defined.

(** C6, as the claim states it, fails once the buffer is nearly full: after
    102 recorded terminations of 40 bytes each, the line of the next
    terminated child is not appended in its fixed form. *)
Lemma display_process_end_line_cut :
  let b := display_all (repeat (W_EXITCODE 0 0, 1000000) 102) (calloc ENDSTATUS_BUF_LEN) in
  is_termination (W_EXITCODE 0 0) = true /\
  string_of_list_ascii (drop (strlen b) (c_string (display_process_end (W_EXITCODE 0 0) 1000000 b)))
    = "PID 1000000 fin"%string /\
  c_string (display_process_end (W_EXITCODE 0 0) 1000000 b) <>
    c_string b ++ list_ascii_of_string (exit_line 1000000 0).
Proof.
  cbv zeta. split; [reflexivity|]. split; [vm_compute; reflexivity|].
  intros H. apply (f_equal length) in H. revert H.
  match goal with |- ?x = ?y -> False =>
    assert (Hx : x = 4095%nat) by (vm_compute; reflexivity);
    assert (Hy : y = 4120%nat) by (vm_compute; reflexivity)
  end.
  rewrite Hx, Hy. intros H. apply Nat.eqb_eq in H. vm_compute in H. discriminate.
Qed.

(** ** Descriptor allocation *)

Lemma lowest_free_from_spec (fds : gmap Z file) (fuel : nat) (n : Z) :
  let m := lowest_free_from fds fuel n in
  n <= m <= n + Z.of_nat fuel /\
  (forall k, n <= k < m -> is_Some (fds !! k)) /\
  (fds !! m = None \/ m = n + Z.of_nat fuel).
Proof.
  revert n. induction fuel as [|fuel IH]; intros n; simpl.
  - split; [lia|]. split; [intros k Hk; lia|right; lia].
  - destruct (fds !! n) as [f|] eqn:E.
    + destruct (IH (n + 1)) as (H1 & H2 & H3).
      split; [lia|]. split.
      * intros k Hk. destruct (decide (k = n)) as [-> | Hne]; [rewrite E; eauto|].
        apply H2. lia.
      * destruct H3 as [H3|H3]; [left; exact H3|right; lia].
    + split; [lia|]. split; [intros k Hk; lia|left; exact E].
Qed.

Lemma lowest_free_fresh (fds : gmap Z file) : fds !! lowest_free fds = None.
Proof.
  unfold lowest_free.
  destruct (lowest_free_from_spec fds (size fds) 0) as (H1 & H2 & [H3|H3]); [exact H3|].
  destruct (fds !! lowest_free_from fds (size fds) 0) as [f|] eqn:E; [|reflexivity].
  exfalso.
  set (m := lowest_free_from fds (size fds) 0) in *.
  assert (Hsub : (list_to_set (seqZ 0 (Z.of_nat (S (size fds)))) : gset Z) ⊆ dom fds).
  { intros k Hk. apply elem_of_list_to_set, elem_of_seqZ in Hk.
    apply elem_of_dom. destruct (decide (k = m)) as [-> | Hne]; [rewrite E; eauto|].
    apply H2. lia. }
  apply subseteq_size in Hsub.
  rewrite size_dom, size_list_to_set, length_seqZ in Hsub by apply NoDup_seqZ.
  lia.
Qed.

Lemma lowest_free_nonneg (fds : gmap Z file) : 0 <= lowest_free fds.
Proof. unfold lowest_free. apply (lowest_free_from_spec fds (size fds) 0). Qed.

Lemma lowest_free_above (fds : gmap Z file) (n : Z) :
  (forall k, 0 <= k < n -> is_Some (fds !! k)) -> n <= lowest_free fds.
Proof.
  intros H. pose proof (lowest_free_fresh fds) as Hf.
  pose proof (lowest_free_nonneg fds) as H0.
  destruct (Z_lt_le_dec (lowest_free fds) n) as [Hlt|]; [|assumption].
  destruct (H (lowest_free fds)) as [f Hf']; [lia|]. congruence.
Qed.

(** ** The table of the shell *)

Lemma shell_table_boot files cwd pid : shell_table (w_fds (boot files cwd pid)).
Proof.
  unfold boot, shell_table; simpl.
  repeat split; try reflexivity.
  - destruct (decide (fd = 0)) as [-> | ?]; [lia|].
    destruct (decide (fd = 1)) as [-> | ?]; [lia|].
    destruct (decide (fd = 2)) as [-> | ?]; [lia|].
    rewrite !lookup_insert_ne, lookup_empty in H by congruence. discriminate.
  - destruct (decide (fd = 0)) as [-> | ?]; [lia|].
    destruct (decide (fd = 1)) as [-> | ?]; [lia|].
    destruct (decide (fd = 2)) as [-> | ?]; [lia|].
    rewrite !lookup_insert_ne, lookup_empty in H by congruence. discriminate.
Qed.

Lemma shell_table_free (fds : gmap Z file) : shell_table fds -> 3 <= lowest_free fds.
Proof.
  intros (H0 & H1 & H2 & _). apply lowest_free_above.
  intros k Hk.
  assert (k = 0 \/ k = 1 \/ k = 2) as [-> | [-> | ->]] by lia; eauto.
Qed.

Lemma shell_table_insert (fds : gmap Z file) (fd : Z) (f : file) :
  shell_table fds -> 3 <= fd -> is_pipe_end f -> shell_table (<[fd := f]> fds).
Proof.
  intros (H0 & H1 & H2 & H3) Hfd Hf.
  repeat split; try (rewrite lookup_insert_ne by lia; assumption).
  - destruct (decide (fd = fd0)) as [-> | Hne]; [lia|].
    rewrite lookup_insert_ne in H by assumption. now apply (H3 _ _ H).
  - destruct (decide (fd = fd0)) as [-> | Hne].
    + rewrite lookup_insert_eq in H. now inversion H; subst.
    + rewrite lookup_insert_ne in H by assumption. now apply (H3 _ _ H).
Qed.

Lemma shell_table_delete (fds : gmap Z file) (fd : Z) :
  shell_table fds -> 3 <= fd -> shell_table (delete fd fds).
Proof.
  intros (H0 & H1 & H2 & H3) Hfd.
  repeat split; try (rewrite lookup_delete_ne by lia; assumption).
  - destruct (decide (fd = fd0)) as [-> | Hne]; [lia|].
    rewrite lookup_delete_ne in H by assumption. now apply (H3 _ _ H).
  - destruct (decide (fd = fd0)) as [-> | Hne].
    + rewrite lookup_delete_eq in H. discriminate.
    + rewrite lookup_delete_ne in H by assumption. now apply (H3 _ _ H).
Qed.

Lemma threaded_above (fds : gmap Z file) (p : Z) :
  shell_table fds -> threaded fds p -> p = -1 \/ 3 <= p.
Proof.
  intros (H0 & H1 & H2 & H3) [-> | [k Hk]]; [now left|right].
  destruct (decide (p = 0)) as [-> | ?]; [congruence|].
  destruct (decide (p = 1)) as [-> | ?]; [congruence|].
  destruct (decide (p = 2)) as [-> | ?]; [congruence|].
  apply (H3 _ _ Hk). lia.
Qed.

(** ** open *)

Lemma sys_open_fd e cwd path flags mode fds files :
  (sys_open e cwd path flags mode fds files).1.1 =
  if open_fails files cwd path flags then -1 else lowest_free fds.
Proof.
  unfold sys_open, open_fails.
  destruct (files !! resolve cwd path) as [[m d|]|]; simpl; try reflexivity.
  - destruct (has_flag m _); reflexivity.
  - destruct (has_flag flags O_CREAT); reflexivity.
Qed.

Lemma sys_open_fds e cwd path flags mode fds files :
  (sys_open e cwd path flags mode fds files).1.2 =
  if open_fails files cwd path flags then fds
  else <[lowest_free fds := OpenFile (resolve cwd path) flags]> fds.
Proof.
  unfold sys_open, open_fails.
  destruct (files !! resolve cwd path) as [[m d|]|]; simpl; try reflexivity.
  - destruct (has_flag m _); reflexivity.
  - destruct (has_flag flags O_CREAT); reflexivity.
Qed.

Lemma sys_open_rdonly e cwd path mode fds files :
  (sys_open e cwd path O_RDONLY mode fds files).2 = files.
Proof.
  unfold sys_open.
  destruct (files !! resolve cwd path) as [[m d|]|]; simpl; try reflexivity.
  destruct (has_flag m _); reflexivity.
Qed.

Lemma sys_open_files_failed e cwd path flags mode fds files :
  open_fails files cwd path flags = true ->
  (sys_open e cwd path flags mode fds files).2 = files.
Proof.
  unfold sys_open, open_fails.
  destruct (files !! resolve cwd path) as [[m d|]|]; simpl; try discriminate.
  - destruct (has_flag m _); [discriminate|reflexivity].
  - destruct (has_flag flags O_CREAT); [discriminate|reflexivity].
Qed.

(** ** The open-dup2-close of a redirection *)

Lemma redirect_spec e cwd path flags target msg p :
  (forall k, 0 <= k <= target -> is_Some (p_fds p !! k)) ->
  let r := redirect e cwd path flags target msg p in
  p_fds r = (if open_fails (p_files p) cwd path flags then p_fds p
             else <[target := OpenFile (resolve cwd path) flags]> (p_fds p)) /\
  p_perror r = p_perror p ++ (if open_fails (p_files p) cwd path flags then [msg] else []) /\
  p_files r = (sys_open e cwd path flags None (p_fds p) (p_files p)).2.
Proof.
  intros Hopen. unfold redirect.
  pose proof (sys_open_fd e cwd path flags None (p_fds p) (p_files p)) as Hfd.
  pose proof (sys_open_fds e cwd path flags None (p_fds p) (p_files p)) as Hfds.
  destruct (sys_open e cwd path flags None (p_fds p) (p_files p)) as [[fd fds] files].
  simpl in *. subst fd fds.
  assert (Hlow : target < lowest_free (p_fds p)).
  { pose proof (lowest_free_above (p_fds p) (target + 1)) as H.
    assert (target + 1 <= lowest_free (p_fds p)); [|lia].
    apply H. intros k Hk. apply Hopen. lia. }
  pose proof (lowest_free_fresh (p_fds p)) as Hfresh.
  destruct (open_fails (p_files p) cwd path flags); simpl.
  - repeat split. 
  - destruct (Z.eqb_spec (lowest_free (p_fds p)) (-1)) as [E|E].
    + pose proof (lowest_free_nonneg (p_fds p)). lia.
    + simpl. repeat split; [|now rewrite app_nil_r].
      unfold sys_close, sys_dup2. rewrite lookup_insert_eq.
      apply map_eq. intros x.
      destruct (decide (x = lowest_free (p_fds p))) as [-> | Hx].
      * rewrite lookup_delete_eq, lookup_insert_ne by lia. now rewrite Hfresh.
      * rewrite lookup_delete_ne by congruence.
        destruct (decide (x = target)) as [-> | Hy].
        -- now rewrite !lookup_insert_eq.
        -- now rewrite !lookup_insert_ne by congruence.
Qed.

(** ** The child between fork and execvp *)

Lemma std_streams_open (fds : gmap Z file) (t : Z) :
  shell_table fds -> 0 <= t <= 2 -> forall k, 0 <= k <= t -> is_Some (fds !! k).
Proof.
  intros (H0 & H1 & H2 & _) Ht k Hk.
  assert (k = 0 \/ k = 1 \/ k = 2) as [-> | [-> | ->]] by lia; eauto.
Qed.

Lemma redirect_input_spec e l i pipeIn cwd fds files :
  shell_table fds ->
  let p := redirect_input e l i pipeIn cwd
             {| p_fds := fds; p_files := files; p_perror := [] |} in
  p_fds p = input_table l i pipeIn files cwd fds /\
  p_files p = files /\
  p_perror p = if input_fails l i pipeIn files cwd
               then ["Input redirection failed"%string] else [].
Proof.
  intros Hst. unfold redirect_input, input_table, input_fails.
  destruct (0 <? pipeIn) eqn:Hp; simpl.
  - split; [|split; reflexivity].
    unfold sys_dup2, sys_close. destruct (fds !! pipeIn) as [f|] eqn:E; [reflexivity|].
    apply delete_id. exact E.
  - destruct (((i =? 0)%nat && is_set (file_input l)) || background l); simpl;
      [|repeat split].
    destruct (redirect_spec e cwd (default "/dev/null"%string (file_input l)) O_RDONLY
                STDIN_FILENO "Input redirection failed"
                {| p_fds := fds; p_files := files; p_perror := [] |}) as (H1 & H2 & H3).
    { simpl. apply std_streams_open; [assumption|unfold STDIN_FILENO; lia]. }
    simpl in *. rewrite H1, H2, H3, sys_open_rdonly.
    destruct (open_fails files cwd _ O_RDONLY); repeat split.
Qed.

Lemma redirect_output_spec e l i pipes cwd p :
  (forall k, 0 <= k <= 1 -> is_Some (p_fds p !! k)) ->
  let q := redirect_output e l i pipes cwd p in
  p_fds q = output_table l i (snd pipes) (p_files p) cwd (p_fds p) /\
  p_perror q = p_perror p ++ (if output_fails l i (p_files p) cwd
                              then ["Output redirection failed"%string] else []).
Proof.
  intros Hopen. unfold redirect_output, output_table, output_fails.
  destruct (is_last l i) eqn:Hlast; simpl.
  - destruct (file_output l) as [path|]; [|split; [reflexivity|now rewrite app_nil_r]].
    destruct (redirect_spec e cwd path (output_flags l) STDOUT_FILENO
                "Output redirection failed" p) as (H1 & H2 & H3).
    { exact Hopen. }
    fold (output_flags l). simpl in *. rewrite H1, H2.
    destruct (open_fails (p_files p) cwd path (output_flags l)); split; reflexivity.
  - assert (Hfds : sys_close (snd pipes) (sys_dup2 (snd pipes) STDOUT_FILENO (p_fds p)) =
                   match p_fds p !! snd pipes with
                   | Some f => delete (snd pipes) (<[STDOUT_FILENO := f]> (p_fds p))
                   | None => p_fds p
                   end).
    { unfold sys_close, sys_dup2.
      destruct (p_fds p !! snd pipes) as [f|] eqn:E; [reflexivity|].
      now apply delete_id. }
    destruct (file_output l) as [path|]; simpl; rewrite Hfds, app_nil_r; split; reflexivity.
Qed.

Lemma input_table_std l i pipeIn files cwd fds :
  shell_table fds -> threaded fds pipeIn ->
  let t := input_table l i pipeIn files cwd fds in
  is_Some (t !! 0) /\ t !! 1 = Some (Inherited 1) /\ t !! 2 = Some (Inherited 2).
Proof.
  intros Hst Hth. pose proof (threaded_above _ _ Hst Hth) as Hp.
  destruct Hst as (H0 & H1 & H2 & H3).
  unfold input_table, STDIN_FILENO.
  destruct (0 <? pipeIn) eqn:E.
  - apply Z.ltb_lt in E. destruct Hp as [-> | Hp]; [lia|].
    destruct (fds !! pipeIn) as [f|]; [|eauto].
    rewrite !lookup_delete_ne, lookup_insert_eq, !lookup_insert_ne by lia. eauto.
  - destruct (_ && _); [|eauto].
    rewrite lookup_insert_eq, !lookup_insert_ne by lia. eauto.
Qed.

Lemma child_branch_spec e l c i pipeIn pipes pid cwd fds files :
  shell_table fds -> threaded fds pipeIn ->
  let im := (child_branch e l c i pipeIn pipes pid cwd fds files).1.1 in
  im_fds im = output_table l i (snd pipes) files cwd (input_table l i pipeIn files cwd fds) /\
  im_perror im =
    (if input_fails l i pipeIn files cwd then ["Input redirection failed"%string] else []) ++
    (if output_fails l i files cwd then ["Output redirection failed"%string] else []) ++
    (if loads e c then [] else ["execvp failed"%string]) /\
  im_args im = args c /\ im_pid im = pid /\ im_index im = i /\ im_pipeIn im = pipeIn /\
  im_loaded im = loads e c /\
  im_status im = default (W_EXITCODE 1 0) (e_exec e (args c)) /\
  (child_branch e l c i pipeIn pipes pid cwd fds files).2 = im_status im.
Proof.
  intros Hst Hth. unfold child_branch.
  destruct (redirect_input_spec e l i pipeIn cwd fds files Hst) as (Hi1 & Hi2 & Hi3).
  set (p1 := redirect_input e l i pipeIn cwd _) in *.
  destruct (redirect_output_spec e l i pipes cwd p1) as (Ho1 & Ho2).
  { intros k Hk. rewrite Hi1.
    destruct (input_table_std l i pipeIn files cwd fds Hst Hth) as (A0 & A1 & A2).
    assert (k = 0 \/ k = 1) as [-> | ->] by lia; [assumption|rewrite A1; eauto]. }
  set (p2 := redirect_output e l i pipes cwd p1) in *.
  rewrite Hi1, Hi2 in Ho1. rewrite Hi2, Hi3 in Ho2.
  unfold loads. destruct (e_exec e (args c)) as [st|]; simpl; rewrite Ho1, Ho2;
    rewrite ?app_nil_r, <- ?app_assoc; repeat split.
Qed.

(** ** The handler at the blocking wait *)

Lemma blocking_waits_app (t u : list syscall) :
  blocking_waits (t ++ u) = blocking_waits t ++ blocking_waits u.
Proof. unfold blocking_waits. apply flat_map_app. Qed.

Lemma same_shell_refl w : same_shell w w.
Proof. unfold same_shell. repeat split; reflexivity. Qed.

Lemma same_shell_trans w1 w2 w3 :
  same_shell w1 w2 -> same_shell w2 w3 -> same_shell w1 w3.
Proof.
  unfold same_shell.
  intros (A1 & A2 & A3 & A4 & A5 & A6 & A7 & A8 & A9)
         (B1 & B2 & B3 & B4 & B5 & B6 & B7 & B8 & B9).
  repeat split; try congruence. intros x Hx. apply A9, B9, Hx.
Qed.

Lemma awaited_any c : awaited (-1) c = true.
Proof. reflexivity. Qed.

Lemma reap_perm pid ready cs c r :
  reap pid ready cs = Some (c, r) -> cs ≡ₚ c :: r.
Proof.
  revert c r. induction cs as [|a cs IH]; intros c r; simpl; [discriminate|].
  destruct (awaited pid a && ready a).
  - intros H. injection H as <- <-. reflexivity.
  - destruct (reap pid ready cs) as [[x r']|]; [|discriminate].
    intros H. injection H as <- <-. rewrite (IH x r' eq_refl). apply Permutation_swap.
Qed.

Lemma reap_ready pid ready cs c r :
  reap pid ready cs = Some (c, r) -> awaited pid c = true /\ ready c = true.
Proof.
  revert c r. induction cs as [|a cs IH]; intros c r; simpl; [discriminate|].
  destruct (awaited pid a && ready a) eqn:Ha.
  - intros H. injection H as <- <-. now apply andb_true_iff.
  - destruct (reap pid ready cs) as [[x r']|]; [|discriminate].
    intros H. injection H as <- <-. now apply (IH x r').
Qed.

Lemma reap_none_all ready cs :
  reap (-1) ready cs = None -> Forall (fun c => ready c = false) cs.
Proof.
  induction cs as [|a cs IH]; simpl; [constructor|].
  destruct (ready a) eqn:Ha; [discriminate|].
  destruct (reap (-1) ready cs) as [[x r']|]; [discriminate|].
  intros _. constructor; [assumption|now apply IH].
Qed.

Lemma sys_waitpid_children pid options stat cs :
  (sys_waitpid pid options stat cs).2 ⊆ cs.
Proof.
  unfold sys_waitpid.
  destruct (forallb _ cs); [reflexivity|].
  destruct (reap pid c_exited cs) as [[c r]|] eqn:E.
  - simpl. intros x Hx. rewrite (reap_perm _ _ _ _ _ E). now right.
  - destruct (has_flag options WNOHANG); [reflexivity|].
    destruct (reap pid (fun _ => true) cs) as [[c r]|] eqn:E'; [|reflexivity].
    simpl. intros x Hx. rewrite (reap_perm _ _ _ _ _ E'). now right.
Qed.

Lemma pids_sub (cs' cs : list child) : cs' ⊆ cs -> map c_pid cs' ⊆ map c_pid cs.
Proof.
  intros H x Hx. apply list_elem_of_fmap in Hx as (c & -> & Hc).
  apply list_elem_of_fmap. exists c. split; [reflexivity|now apply H].
Qed.

(** One iteration of the loop: no child to wait for; or children, none of
    which has terminated; or a terminated child, collected and recorded. *)
Lemma sigchld_iteration_cases stat w :
  let r := sigchld_iteration stat w in
  same_shell w r.2 /\ blocking_waits (w_trace r.2) = blocking_waits (w_trace w) /\
  ((r.1.1 = -1 /\ w_children w = [] /\ w_children r.2 = [] /\
    w_endstatus r.2 = w_endstatus w) \/
   (r.1.1 = 0 /\ w_children w <> [] /\
    Forall (fun c => c_exited c = false) (w_children w) /\
    w_children r.2 = w_children w /\ w_endstatus r.2 = w_endstatus w) \/
   (exists x, r.1.1 = c_pid x /\ c_exited x = true /\
              w_children w ≡ₚ x :: w_children r.2 /\
              w_endstatus r.2 =
                if 0 <? c_pid x
                then display_process_end (c_status x) (c_pid x) (w_endstatus w)
                else w_endstatus w)).
Proof.
  cbv zeta. unfold sigchld_iteration.
  pose proof (sys_waitpid_children (-1) WNOHANG stat (w_children w)) as Hsub.
  unfold sys_waitpid in *.
  destruct (w_children w) as [|c0 cs] eqn:Hcs.
  - simpl. split; [|split].
    + unfold same_shell. simpl. rewrite Hcs. repeat split; reflexivity.
    + rewrite blocking_waits_app. simpl. apply app_nil_r.
    + left. repeat split.
  - cbn [forallb] in *. rewrite awaited_any in *. cbn [negb andb] in *.
    destruct (reap (-1) c_exited (c0 :: cs)) as [[x r]|] eqn:Hreap.
    + cbn [fst snd] in *.
      assert (Hframe : forall b : list ascii,
                same_shell w
                  (if 0 <? c_pid x
                   then set_endstatus b
                          (traced (SysWaitpid (-1) WNOHANG (c_pid x)) (set_children r w))
                   else traced (SysWaitpid (-1) WNOHANG (c_pid x)) (set_children r w))).
      { intros b. unfold same_shell. destruct (0 <? c_pid x); simpl; rewrite Hcs;
          repeat split; now apply pids_sub. }
      split; [apply Hframe|]. split.
      * destruct (0 <? c_pid x); simpl; rewrite blocking_waits_app; simpl;
          apply app_nil_r.
      * right. right. exists x. split; [reflexivity|].
        split; [apply (reap_ready _ _ _ _ _ Hreap)|].
        split; [destruct (0 <? c_pid x); simpl; apply (reap_perm _ _ _ _ _ Hreap)|].
        destruct (0 <? c_pid x); reflexivity.
    + change (has_flag WNOHANG WNOHANG) with true. cbn [fst snd Z.ltb Z.compare].
      split; [|split].
      * unfold same_shell. simpl. rewrite Hcs. repeat split; reflexivity.
      * simpl. rewrite blocking_waits_app. simpl. apply app_nil_r.
      * right. left. split; [reflexivity|]. split; [discriminate|].
        split; [apply (reap_none_all _ _ Hreap)|]. split; reflexivity.
Qed.

Lemma sigchld_loop_S fuel stat w :
  sigchld_loop (S fuel) stat w =
    if negb ((sigchld_iteration stat w).1.1 =? -1)
    then sigchld_loop fuel (sigchld_iteration stat w).1.2 (sigchld_iteration stat w).2
    else Some (sigchld_iteration stat w).2.
Proof.
  unfold sigchld_iteration. cbn [sigchld_loop].
  destruct (sys_waitpid (-1) WNOHANG stat (w_children w)) as [[pid stat'] cs].
  reflexivity.
Qed.

Lemma sigchld_among_nil stat w :
  sigchld_among [] stat w =
    sigchld_loop (S (length (w_children w))) stat
                 (set_children (map ended (w_children w)) w).
Proof. cbn [sigchld_among]. simpl. now rewrite length_map. Qed.

Lemma sigchld_among_cons pids rest stat w :
  sigchld_among (pids :: rest) stat w =
    let w0 := set_children (terminate_all pids (w_children w)) w in
    if negb ((sigchld_iteration stat w0).1.1 =? -1)
    then sigchld_among rest (sigchld_iteration stat w0).1.2 (sigchld_iteration stat w0).2
    else Some (sigchld_iteration stat w0).2.
Proof.
  unfold sigchld_iteration. cbn [sigchld_among]. cbv zeta.
  destruct (sys_waitpid (-1) WNOHANG stat _) as [[pid stat'] cs].
  reflexivity.
Qed.

Lemma sigchld_loop_frame fuel stat w w' :
  sigchld_loop fuel stat w = Some w' ->
  same_shell w w' /\ blocking_waits (w_trace w') = blocking_waits (w_trace w).
Proof.
  revert stat w. induction fuel as [|fuel IH]; intros stat w; [discriminate|].
  rewrite sigchld_loop_S.
  destruct (sigchld_iteration_cases stat w) as (Hs & Hb & _).
  destruct (negb _).
  - intros H. destruct (IH _ _ H) as [Hs' Hb'].
    split; [eapply same_shell_trans; eassumption|congruence].
  - intros H. injection H as <-. now split.
Qed.

(** When every child has terminated the loop ends within one iteration for
    each child and one more. *)
Lemma sigchld_loop_ends stat w :
  Forall (fun c => c_exited c = true) (w_children w) ->
  is_Some (sigchld_loop (S (length (w_children w))) stat w).
Proof.
  remember (length (w_children w)) as n eqn:Hn. revert stat w Hn.
  induction n as [|n IH]; intros stat w Hn Hall; rewrite sigchld_loop_S;
    destruct (sigchld_iteration_cases stat w) as (_ & _ & Hcases);
    destruct Hcases as [(Hpid & _) | [(_ & Hne & Hrun & _) | (x & Hpid & _ & Hperm & _)]].
  - rewrite Hpid. simpl. eauto.
  - destruct (w_children w); [congruence|discriminate].
  - apply Permutation_length in Hperm. simpl in Hperm. lia.
  - rewrite Hpid. simpl. eauto.
  - destruct (w_children w) as [|c cs]; [congruence|].
    inversion Hall; subst. inversion Hrun; subst. congruence.
  - destruct (negb _); [|eauto]. apply IH.
    + apply Permutation_length in Hperm. simpl in Hperm. lia.
    + rewrite Hperm in Hall. now inversion Hall.
Qed.

Lemma terminate_pids pid cs : map c_pid (terminate pid cs) = map c_pid cs.
Proof.
  unfold terminate. rewrite map_map. apply map_ext. intros c.
  destruct (c_pid c =? pid); reflexivity.
Qed.

Lemma terminate_report pid cs : map report (terminate pid cs) = map report cs.
Proof.
  unfold terminate. rewrite map_map. apply map_ext. intros c.
  destruct (c_pid c =? pid); reflexivity.
Qed.

Lemma terminate_all_pids pids cs : map c_pid (terminate_all pids cs) = map c_pid cs.
Proof.
  unfold terminate_all. revert cs. induction pids as [|p r IH]; intros cs; simpl;
    [reflexivity|]. now rewrite IH, terminate_pids.
Qed.

Lemma terminate_all_report pids cs :
  map report (terminate_all pids cs) = map report cs.
Proof.
  unfold terminate_all. revert cs. induction pids as [|p r IH]; intros cs; simpl;
    [reflexivity|]. now rewrite IH, terminate_report.
Qed.

Lemma ended_all cs : Forall (fun c => c_exited c = true) (map ended cs).
Proof. apply Forall_forall. intros c Hc. apply list_elem_of_fmap in Hc as (x & -> & _). reflexivity. Qed.

Lemma ended_pids cs : map c_pid (map ended cs) = map c_pid cs.
Proof. rewrite map_map. reflexivity. Qed.

Lemma ended_report cs : map report (map ended cs) = map report cs.
Proof. rewrite map_map. reflexivity. Qed.

Lemma same_shell_children cs w : map c_pid cs = map c_pid (w_children w) ->
  same_shell w (set_children cs w).
Proof. intros H. unfold same_shell. simpl. rewrite H. repeat split; reflexivity. Qed.

(** The handler at a wait returns, whatever the schedule. *)
Lemma sigchld_among_returns sched stat w : is_Some (sigchld_among sched stat w).
Proof.
  revert stat w. induction sched as [|pids rest IH]; intros stat w.
  - rewrite sigchld_among_nil.
    pose proof (sigchld_loop_ends stat (set_children (map ended (w_children w)) w)) as H.
    simpl in H. rewrite length_map in H. apply H, ended_all.
  - rewrite sigchld_among_cons. cbv zeta. destruct (negb _); [apply IH|eauto].
Qed.

Lemma sigchld_among_frame sched stat w w' :
  sigchld_among sched stat w = Some w' ->
  same_shell w w' /\ blocking_waits (w_trace w') = blocking_waits (w_trace w).
Proof.
  revert stat w. induction sched as [|pids rest IH]; intros stat w.
  - rewrite sigchld_among_nil. intros H. apply sigchld_loop_frame in H as [Hs Hb].
    split; [|exact Hb].
    eapply same_shell_trans; [|exact Hs]. apply same_shell_children, ended_pids.
  - rewrite sigchld_among_cons. cbv zeta.
    set (w0 := set_children (terminate_all pids (w_children w)) w).
    assert (H0 : same_shell w w0) by apply same_shell_children, terminate_all_pids.
    destruct (sigchld_iteration_cases stat w0) as (Hs & Hb & _).
    destruct (negb _).
    + intros H. destruct (IH _ _ H) as [Hs' Hb'].
      split; [eapply same_shell_trans; [exact H0|eapply same_shell_trans; eassumption]|].
      rewrite Hb', Hb. reflexivity.
    + intros H. injection H as <-.
      split; [eapply same_shell_trans; eassumption|exact Hb].
Qed.


(** With positive process identifiers, a handler that returns has collected
    every child and recorded each of them once. *)
Lemma sigchld_loop_collects fuel stat w w' :
  Forall (fun c => 0 < c_pid c) (w_children w) ->
  sigchld_loop fuel stat w = Some w' ->
  w_children w' = [] /\
  exists events, events ≡ₚ map report (w_children w) /\
                 w_endstatus w' = display_all events (w_endstatus w).
Proof.
  revert stat w. induction fuel as [|fuel IH]; intros stat w Hpos; [discriminate|].
  rewrite sigchld_loop_S.
  destruct (sigchld_iteration_cases stat w) as (_ & _ & Hcases).
  destruct Hcases as [(Hpid & Hnil & Hnil' & He)
                     | [(Hpid & _ & _ & Hc & He) | (x & Hpid & _ & Hperm & He)]].
  - rewrite Hpid. simpl. intros H. injection H as <-. split; [assumption|].
    exists []. rewrite Hnil. split; [reflexivity|exact He].
  - rewrite Hpid. simpl. intros H.
    destruct (IH _ _ (eq_ind_r (Forall _) Hpos Hc) H) as (H1 & events & H2 & H3).
    split; [assumption|]. exists events. rewrite <- Hc, <- He. now split.
  - assert (Hx : 0 < c_pid x).
    { rewrite Hperm in Hpos. now inversion Hpos. }
    assert (E : (c_pid x =? -1) = false) by (apply Z.eqb_neq; lia).
    rewrite Hpid, E. simpl. intros H.
    assert (Hpos' : Forall (fun c => 0 < c_pid c) (w_children (sigchld_iteration stat w).2)).
    { rewrite Hperm in Hpos. now inversion Hpos. }
    destruct (IH _ _ Hpos' H) as (H1 & events & H2 & H3).
    split; [assumption|]. exists (report x :: events). split.
    + rewrite Hperm. simpl. now rewrite H2.
    + rewrite H3, He. apply Z.ltb_lt in Hx. rewrite Hx. reflexivity.
Qed.

Lemma sigchld_among_collects sched stat w w' :
  Forall (fun c => 0 < c_pid c) (w_children w) ->
  sigchld_among sched stat w = Some w' ->
  w_children w' = [] /\
  exists events, events ≡ₚ map report (w_children w) /\
                 w_endstatus w' = display_all events (w_endstatus w).
Proof.
  assert (Hpids : forall cs cs' : list child, map c_pid cs' = map c_pid cs ->
            Forall (fun c => 0 < c_pid c) cs -> Forall (fun c => 0 < c_pid c) cs').
  { intros cs cs' Heq H.
    apply (proj1 (List.Forall_map c_pid (Z.lt 0) cs')). rewrite Heq.
    now apply List.Forall_map. }
  revert stat w. induction sched as [|pids rest IH]; intros stat w Hpos.
  - rewrite sigchld_among_nil. intros H.
    apply sigchld_loop_collects in H; [|simpl; eapply Hpids; [apply ended_pids|assumption]].
    simpl in H. now rewrite ended_report in H.
  - rewrite sigchld_among_cons. cbv zeta.
    set (w0 := set_children (terminate_all pids (w_children w)) w).
    assert (Hpos0 : Forall (fun c => 0 < c_pid c) (w_children w0)).
    { simpl. eapply Hpids; [apply terminate_all_pids|assumption]. }
    assert (Hrep : map report (w_children w0) = map report (w_children w))
      by apply terminate_all_report.
    change (w_endstatus w) with (w_endstatus w0). rewrite <- Hrep.
    clearbody w0.
    destruct (sigchld_iteration_cases stat w0) as (_ & _ & Hcases).
    destruct Hcases as [(Hpid & Hnil & Hnil' & He)
                       | [(Hpid & _ & _ & Hc & He) | (x & Hpid & _ & Hperm & He)]].
    + rewrite Hpid. simpl. intros H. injection H as <-. split; [assumption|].
      exists []. rewrite Hnil. split; [reflexivity|exact He].
    + rewrite Hpid. simpl. intros H.
      destruct (IH _ _ (eq_ind_r (Forall _) Hpos0 Hc) H) as (H1 & events & H2 & H3).
      split; [assumption|]. exists events. rewrite <- Hc, <- He. now split.
    + assert (Hx : 0 < c_pid x).
      { rewrite Hperm in Hpos0. now inversion Hpos0. }
      assert (E : (c_pid x =? -1) = false) by (apply Z.eqb_neq; lia).
      rewrite Hpid, E. simpl. intros H.
      assert (Hpos' : Forall (fun c => 0 < c_pid c)
                             (w_children (sigchld_iteration stat w0).2)).
      { rewrite Hperm in Hpos0. now inversion Hpos0. }
      destruct (IH _ _ Hpos' H) as (H1 & events & H2 & H3).
      split; [assumption|]. exists (report x :: events). split.
      * rewrite Hperm. simpl. now rewrite H2.
      * rewrite H3, He. apply Z.ltb_lt in Hx. rewrite Hx. reflexivity.
Qed.

Lemma handler_at_wait_frame e pid w :
  same_shell w (handler_at_wait e pid w) /\
  blocking_waits (w_trace (handler_at_wait e pid w)) = blocking_waits (w_trace w).
Proof.
  unfold handler_at_wait.
  destruct (sigchld_among (e_exits e pid) (e_uninit e) w) as [w'|] eqn:E; simpl.
  - now apply sigchld_among_frame in E.
  - split; [apply same_shell_refl|reflexivity].
Qed.

Lemma handler_at_wait_collects e pid w :
  Forall (fun c => 0 < c_pid c) (w_children w) ->
  w_children (handler_at_wait e pid w) = [] /\
  exists events, events ≡ₚ map report (w_children w) /\
                 w_endstatus (handler_at_wait e pid w) =
                   display_all events (w_endstatus w).
Proof.
  intros Hpos. unfold handler_at_wait.
  destruct (sigchld_among_returns (e_exits e pid) (e_uninit e) w) as [w' E].
  rewrite E. simpl. now apply (sigchld_among_collects _ _ _ _ Hpos E).
Qed.

(** The blocking wait of the executor, however it ends: one blocking call,
    for [pid]; descriptors, files and processes are as they were. *)
Lemma blocking_wait_frame e pid w :
  same_shell w (blocking_wait e pid w).2 /\
  blocking_waits (w_trace (blocking_wait e pid w).2) =
    blocking_waits (w_trace w) ++ [pid].
Proof.
  unfold blocking_wait. destruct (e_wait e pid).
  - pose proof (sys_waitpid_children pid 0 (e_uninit e) (w_children w)) as Hsub.
    destruct (sys_waitpid pid 0 (e_uninit e) (w_children w)) as [[ret stat] cs].
    cbn [fst snd] in *.
    destruct (handler_at_wait_frame e pid
                (traced (SysWaitpid pid 0 ret) (set_children cs w))) as [Hs Hb].
    split.
    + eapply same_shell_trans; [|exact Hs].
      unfold same_shell. simpl. repeat split. now apply pids_sub.
    + rewrite Hb. simpl. now rewrite blocking_waits_app.
  - simpl. split.
    + unfold same_shell. simpl. repeat split; reflexivity.
    + now rewrite blocking_waits_app.
  - destruct (handler_at_wait_frame e pid w) as [Hs Hb].
    pose proof (sys_waitpid_children pid 0 (e_uninit e)
                  (w_children (handler_at_wait e pid w))) as Hsub.
    destruct (sys_waitpid pid 0 (e_uninit e) (w_children (handler_at_wait e pid w)))
      as [[ret stat] cs].
    cbn [fst snd] in *. split.
    + eapply same_shell_trans; [exact Hs|].
      unfold same_shell. simpl. repeat split. now apply pids_sub.
    + simpl. now rewrite blocking_waits_app, Hb.
Qed.

(** ** execute_command, step by step *)

Lemma execute_command_failed e l c i pipeIn w :
  e_fork_fails e (w_nforks w) = true ->
  let w' := (execute_command e l c i pipeIn w).2 in
  (execute_command e l c i pipeIn w).1 = -1 /\
  w_images w' = w_images w /\ w_endstatus w' = w_endstatus w /\
  w_children w' = w_children w /\ w_next_pid w' = w_next_pid w /\
  w_files w' = w_files w /\ w_cwd w' = w_cwd w /\
  w_fds w' = (stage_pipe e l i w).2 /\
  blocking_waits (w_trace w') = blocking_waits (w_trace w).
Proof.
  intros Hf. unfold execute_command, stage_pipe.
  destruct (is_last l i); simpl.
  - rewrite Hf. simpl. repeat split.
    unfold blocking_waits. rewrite flat_map_app. simpl. now rewrite app_nil_r.
  - destruct (sys_pipe (w_npipes w) (w_fds w)) as [[r wr] fds]. simpl.
    rewrite Hf. simpl. repeat split.
    unfold blocking_waits. rewrite !flat_map_app. simpl. now rewrite !app_nil_r.
Qed.

Ltac split_ands := repeat match goal with |- _ /\ _ => split end.

(** The shell after a successful [fork], at the test of the foreground
    wait, and what [execute_command] makes of it. *)
Lemma execute_command_parent e l c i pipeIn w :
  e_fork_fails e (w_nforks w) = false ->
  let last := is_last l i in
  let pipes := (stage_pipe e l i w).1 in
  let pid := w_next_pid w in
  let ch := stage_child e l c i pipeIn w in
  exists w5,
    w_images w5 = w_images w ++ [ch.1.1] /\
    w_files w5 = ch.1.2 /\ w_cwd w5 = w_cwd w /\ w_next_pid w5 = pid + 1 /\
    w_stderr w5 = w_stderr w /\
    w_fds w5 =
      (if 0 <? pipeIn then sys_close pipeIn else id)
        ((if negb last then sys_close (snd pipes) else id) (stage_pipe e l i w).2) /\
    w_children w5 =
      w_children w ++ [{| c_pid := pid; c_status := ch.2; c_exited := false |}] /\
    w_endstatus w5 = w_endstatus w /\
    blocking_waits (w_trace w5) = blocking_waits (w_trace w) /\
    execute_command e l c i pipeIn w =
      (if negb last then fst pipes else -1,
       if negb (background l) && last
       then let '(stat, w6) := blocking_wait e pid w5 in
            set_endstatus (display_process_end stat pid (w_endstatus w6)) w6
       else w5).
Proof.
  intros Hf. unfold execute_command, stage_child, stage_pipe.
  destruct (is_last l i); simpl.
  - rewrite Hf. simpl.
    destruct (child_branch e l c i pipeIn _ _ _ _ _) as [[im files] st]. simpl.
    destruct (0 <? pipeIn), (background l); simpl;
      (eexists; split_ands; [..|reflexivity]);
      simpl; rewrite ?blocking_waits_app; simpl; rewrite ?app_nil_r; reflexivity.
  - destruct (sys_pipe (w_npipes w) (w_fds w)) as [[r wr] fds]. simpl.
    rewrite Hf. simpl.
    destruct (child_branch e l c i pipeIn _ _ _ _ _) as [[im files] st]. simpl.
    destruct (0 <? pipeIn), (background l); simpl;
      (eexists; split_ands; [..|reflexivity]);
      simpl; rewrite ?blocking_waits_app; simpl; rewrite ?app_nil_r; reflexivity.
Qed.

Lemma execute_command_ok e l c i pipeIn w :
  e_fork_fails e (w_nforks w) = false ->
  let last := is_last l i in
  let pipes := (stage_pipe e l i w).1 in
  let pid := w_next_pid w in
  let ch := stage_child e l c i pipeIn w in
  let w' := (execute_command e l c i pipeIn w).2 in
  (execute_command e l c i pipeIn w).1 = (if negb last then fst pipes else -1) /\
  w_images w' = w_images w ++ [ch.1.1] /\
  w_files w' = ch.1.2 /\ w_cwd w' = w_cwd w /\ w_next_pid w' = pid + 1 /\
  w_stderr w' = w_stderr w /\
  w_fds w' =
    (if 0 <? pipeIn then sys_close pipeIn else id)
      ((if negb last then sys_close (snd pipes) else id) (stage_pipe e l i w).2) /\
  blocking_waits (w_trace w') =
    blocking_waits (w_trace w) ++ (if negb (background l) && last then [pid] else []).
Proof.
  intros Hf. cbv zeta.
  destruct (execute_command_parent e l c i pipeIn w Hf)
    as (w5 & H1 & H2 & H3 & H4 & H5 & H6 & H7 & H8 & H9 & ->).
  cbn [fst snd]. split; [reflexivity|].
  destruct (negb (background l) && is_last l i).
  - destruct (blocking_wait_frame e (w_next_pid w) w5)
      as ((F1 & F2 & F3 & F4 & F5 & F6 & F7 & F8 & F9) & Fb).
    destruct (blocking_wait e (w_next_pid w) w5) as [stat w6]. simpl in *.
    repeat split; congruence.
  - rewrite app_nil_r. repeat split; assumption.
Qed.

(** ** The pipe of a stage and the invariant of the shell's table *)

Lemma stage_pipe_last e l i w :
  is_last l i = true -> (stage_pipe e l i w).2 = w_fds w.
Proof. intros H. unfold stage_pipe. now rewrite H. Qed.

Lemma stage_pipe_spec e l i w pipeIn :
  shell_table (w_fds w) -> threaded (w_fds w) pipeIn -> is_last l i = false ->
  let r := (stage_pipe e l i w).1.1 in
  let wr := (stage_pipe e l i w).1.2 in
  let fds1 := (stage_pipe e l i w).2 in
  3 <= r /\ 3 <= wr /\ r <> wr /\ r <> pipeIn /\ wr <> pipeIn /\
  w_fds w !! r = None /\ w_fds w !! wr = None /\
  fds1 = <[wr := PipeWrite (w_npipes w)]> (<[r := PipeRead (w_npipes w)]> (w_fds w)) /\
  shell_table fds1 /\ threaded fds1 pipeIn.
Proof.
  intros Hst Hth Hlast. unfold stage_pipe. rewrite Hlast. simpl.
  set (r := lowest_free (w_fds w)).
  set (fdsr := <[r := PipeRead (w_npipes w)]> (w_fds w)).
  set (wr := lowest_free fdsr).
  assert (Hr : 3 <= r) by now apply shell_table_free.
  assert (Hfr : w_fds w !! r = None) by apply lowest_free_fresh.
  assert (Hstr : shell_table fdsr).
  { apply shell_table_insert; [assumption..|]. exists (w_npipes w). now left. }
  assert (Hw : 3 <= wr) by now apply shell_table_free.
  assert (Hfw : fdsr !! wr = None) by apply lowest_free_fresh.
  assert (Hne : r <> wr).
  { intros E. rewrite <- E in Hfw. unfold fdsr in Hfw.
    rewrite lookup_insert_eq in Hfw. discriminate. }
  assert (Hfw' : w_fds w !! wr = None).
  { unfold fdsr in Hfw. now rewrite lookup_insert_ne in Hfw. }
  assert (Hrp : r <> pipeIn /\ wr <> pipeIn).
  { destruct Hth as [-> | [k Hk]]; [lia|]. split; congruence. }
  destruct Hrp as [Hrp Hwp].
  assert (Hst1 : shell_table (<[wr := PipeWrite (w_npipes w)]> fdsr)).
  { apply shell_table_insert; [assumption..|]. exists (w_npipes w). now right. }
  do 8 (split; [first [assumption | reflexivity]|]).
  split; [exact Hst1|].
  destruct Hth as [-> | [k Hk]]; [now left|right]. exists k.
  unfold fdsr. now rewrite !lookup_insert_ne by congruence.
Qed.

Lemma execute_command_table e l c i pipeIn w :
  shell_table (w_fds w) -> threaded (w_fds w) pipeIn ->
  let w' := (execute_command e l c i pipeIn w).2 in
  shell_table (w_fds w') /\ threaded (w_fds w') (execute_command e l c i pipeIn w).1.
Proof.
  intros Hst Hth. cbv zeta.
  pose proof (threaded_above _ _ Hst Hth) as Hp.
  destruct (e_fork_fails e (w_nforks w)) eqn:Hf.
  - destruct (execute_command_failed e l c i pipeIn w Hf) as (-> & _ & _ & _ & _ & _ & _ & -> & _).
    split; [|now left].
    destruct (is_last l i) eqn:Hl.
    + now rewrite stage_pipe_last.
    + apply (stage_pipe_spec e l i w pipeIn Hst Hth Hl).
  - destruct (execute_command_ok e l c i pipeIn w Hf) as (-> & _ & _ & _ & _ & _ & -> & _).
    destruct (is_last l i) eqn:Hl; simpl.
    + rewrite stage_pipe_last by assumption. split; [|now left].
      destruct (0 <? pipeIn) eqn:E; [|assumption].
      apply Z.ltb_lt in E. apply shell_table_delete; [assumption|lia].
    + destruct (stage_pipe_spec e l i w pipeIn Hst Hth Hl)
        as (Hr & Hw & Hne & Hrp & Hwp & Hfr & Hfw & Heq & Hst1 & Hth1).
      assert (Hst2 : shell_table (sys_close (stage_pipe e l i w).1.2 (stage_pipe e l i w).2)).
      { now apply shell_table_delete. }
      split.
      * destruct (0 <? pipeIn) eqn:E; [|assumption].
        apply Z.ltb_lt in E. apply shell_table_delete; [assumption|lia].
      * right. exists (w_npipes w).
        assert (Hl1 : sys_close (stage_pipe e l i w).1.2 (stage_pipe e l i w).2
                        !! (stage_pipe e l i w).1.1 = Some (PipeRead (w_npipes w))).
        { unfold sys_close. rewrite lookup_delete_ne by congruence.
          rewrite Heq, lookup_insert_ne, lookup_insert_eq by congruence. reflexivity. }
        destruct (0 <? pipeIn); [|exact Hl1].
        unfold sys_close in *. rewrite lookup_delete_ne by congruence. exact Hl1.
Qed.

(** ** Lookups in the table of a child *)

Lemma output_table_other l i wr files cwd (fds : gmap Z file) (x : Z) :
  x <> STDOUT_FILENO -> (is_last l i = false -> x <> wr) ->
  output_table l i wr files cwd fds !! x = fds !! x.
Proof.
  intros Hx Hwr. unfold output_table.
  assert (H1 : (if negb (is_last l i)
                then match fds !! wr with
                     | Some f => delete wr (<[STDOUT_FILENO := f]> fds)
                     | None => fds
                     end
                else fds) !! x = fds !! x).
  { destruct (is_last l i); simpl; [reflexivity|].
    destruct (fds !! wr); [|reflexivity].
    rewrite lookup_delete_ne by (intros E; now apply Hwr).
    now rewrite lookup_insert_ne by congruence. }
  destruct (file_output l); [|exact H1].
  destruct (_ && _); [|exact H1].
  now rewrite lookup_insert_ne by congruence.
Qed.

Lemma output_table_pipe l i wr files cwd (fds : gmap Z file) (f : file) :
  is_last l i = false -> fds !! wr = Some f ->
  output_table l i wr files cwd fds !! STDOUT_FILENO =
    if decide (wr = STDOUT_FILENO) then None else Some f.
Proof.
  intros Hl Hf. unfold output_table. rewrite Hl, Hf. simpl.
  assert (H1 : delete wr (<[STDOUT_FILENO := f]> fds) !! STDOUT_FILENO =
               if decide (wr = STDOUT_FILENO) then None else Some f).
  { case_decide as E.
    - rewrite E. apply lookup_delete_eq.
    - rewrite lookup_delete_ne by assumption. apply lookup_insert_eq. }
  destruct (file_output l); exact H1.
Qed.

Lemma output_table_failed l i wr files cwd (fds : gmap Z file) :
  output_fails l i files cwd = true -> output_table l i wr files cwd fds = fds.
Proof.
  unfold output_fails, output_table. intros H.
  apply andb_prop in H as [Hl H]. rewrite Hl. simpl.
  destruct (file_output l); [|discriminate]. now rewrite H.
Qed.

Lemma input_table_failed l i pipeIn files cwd (fds : gmap Z file) :
  input_fails l i pipeIn files cwd = true -> input_table l i pipeIn files cwd fds = fds.
Proof.
  unfold input_fails, input_table. intros H.
  apply andb_prop in H as [H Hf]. apply andb_prop in H as [Hp Hc].
  apply negb_true_iff in Hp. rewrite Hp, Hc, Hf. reflexivity.
Qed.

(** What [execute_command] spawns when [fork] succeeds, with the facts the
    child relies on. *)
Lemma stage_child_spec e l c i pipeIn w :
  shell_table (w_fds w) -> threaded (w_fds w) pipeIn ->
  let im := (stage_child e l c i pipeIn w).1.1 in
  let fds1 := (stage_pipe e l i w).2 in
  let wr := (stage_pipe e l i w).1.2 in
  shell_table fds1 /\ threaded fds1 pipeIn /\
  im_fds im = output_table l i wr (w_files w) (w_cwd w)
                (input_table l i pipeIn (w_files w) (w_cwd w) fds1) /\
  im_perror im =
    (if input_fails l i pipeIn (w_files w) (w_cwd w)
     then ["Input redirection failed"%string] else []) ++
    (if output_fails l i (w_files w) (w_cwd w)
     then ["Output redirection failed"%string] else []) ++
    (if loads e c then [] else ["execvp failed"%string]) /\
  im_args im = args c /\ im_pid im = w_next_pid w /\ im_index im = i /\
  im_pipeIn im = pipeIn /\ im_loaded im = loads e c /\
  (stage_child e l c i pipeIn w).2 = im_status im.
Proof.
  intros Hst Hth. cbv zeta.
  assert (H1 : shell_table (stage_pipe e l i w).2 /\ threaded (stage_pipe e l i w).2 pipeIn).
  { destruct (is_last l i) eqn:Hl.
    - now rewrite stage_pipe_last.
    - split; apply (stage_pipe_spec e l i w pipeIn Hst Hth Hl). }
  destruct H1 as [Hst1 Hth1].
  unfold stage_child.
  destruct (child_branch_spec e l c i pipeIn (stage_pipe e l i w).1 (w_next_pid w)
              (w_cwd w) (stage_pipe e l i w).2 (w_files w) Hst1 Hth1)
    as (A & B & C & D & E & F & G & _ & I).
  repeat (split; [assumption|]). assumption.
Qed.

(** C9. A stage whose redirection file cannot be opened: each failed open
    gives one [perror] message and no other, the stream keeps what the shell
    itself has on it, messages go to the shell's standard error, and the
    process goes on to [execvp] with the arguments of its command. *)
Theorem redirection_failure_falls_back e l c i pipeIn w :
  shell_table (w_fds w) -> threaded (w_fds w) pipeIn ->
  e_fork_fails e (w_nforks w) = false ->
  exists im,
    spawned w (execute_command e l c i pipeIn w).2 = [im] /\
    im_args im = args c /\ im_loaded im = loads e c /\
    im_perror im =
      (if input_fails l i pipeIn (w_files w) (w_cwd w)
       then ["Input redirection failed"%string] else []) ++
      (if output_fails l i (w_files w) (w_cwd w)
       then ["Output redirection failed"%string] else []) ++
      (if loads e c then [] else ["execvp failed"%string]) /\
    im_fds im !! 2 = w_fds w !! 2 /\
    (input_fails l i pipeIn (w_files w) (w_cwd w) = true ->
     im_fds im !! STDIN_FILENO = w_fds w !! STDIN_FILENO) /\
    (output_fails l i (w_files w) (w_cwd w) = true ->
     im_fds im !! STDOUT_FILENO = w_fds w !! STDOUT_FILENO).
Proof.
  intros Hst Hth Hf.
  destruct (execute_command_ok e l c i pipeIn w Hf) as (_ & Him & _).
  destruct (stage_child_spec e l c i pipeIn w Hst Hth)
    as (Hst1 & Hth1 & Hfds & Hper & Hargs & _ & _ & _ & Hload & _).
  exists (stage_child e l c i pipeIn w).1.1.
  assert (Hshell : forall x, 0 <= x <= 2 -> (stage_pipe e l i w).2 !! x = w_fds w !! x).
  { intros x Hx. destruct (is_last l i) eqn:Hl; [now rewrite stage_pipe_last|].
    destruct (stage_pipe_spec e l i w pipeIn Hst Hth Hl)
      as (Hr & Hw & _ & _ & _ & _ & _ & -> & _).
    now rewrite !lookup_insert_ne by lia. }
  assert (Hwr : is_last l i = false -> 3 <= (stage_pipe e l i w).1.2).
  { intros Hl. apply (stage_pipe_spec e l i w pipeIn Hst Hth Hl). }
  split; [unfold spawned; rewrite Him; now rewrite drop_app_length|].
  split; [assumption|]. split; [assumption|]. split; [assumption|].
  rewrite Hfds. split; [|split].
  - rewrite output_table_other;
      [|unfold STDOUT_FILENO; lia|intros Hl; specialize (Hwr Hl); lia].
    destruct (input_table_std l i pipeIn (w_files w) (w_cwd w) _ Hst1 Hth1) as (_ & _ & ->).
    destruct Hst as (_ & _ & -> & _). reflexivity.
  - intros Hin.
    rewrite output_table_other;
      [|unfold STDOUT_FILENO, STDIN_FILENO; lia
       |intros Hl; specialize (Hwr Hl); unfold STDIN_FILENO; lia].
    rewrite input_table_failed by assumption. apply Hshell. unfold STDIN_FILENO. lia.
  - intros Hout. rewrite output_table_failed by assumption.
    unfold STDOUT_FILENO.
    destruct (input_table_std l i pipeIn (w_files w) (w_cwd w) _ Hst1 Hth1) as (_ & -> & _).
    destruct Hst as (_ & -> & _). reflexivity.
Qed.

(** [cat < missing] on the sample machine: one message, the shell's own
    standard input, and [cat] is loaded. *)
Lemma redirection_failure_falls_back_witness :
  let l := {| cmds := [command ["cat"%string]]; file_input := Some "missing"%string;
              file_output := None; file_output_append := false; background := false |} in
  input_fails l 0 (-1) (w_files fresh_shell) (w_cwd fresh_shell) = true /\
  exists im,
    spawned fresh_shell (execute_command (machine 420) l (command ["cat"%string]) 0 (-1)
                           fresh_shell).2 = [im] /\
    im_loaded im = true /\
    im_perror im = ["Input redirection failed"%string] /\
    im_fds im !! STDIN_FILENO = Some (Inherited 0).
Proof.
  intros l. split; [reflexivity|].
  destruct (redirection_failure_falls_back (machine 420) l (command ["cat"%string]) 0 (-1)
              fresh_shell (shell_table_boot _ _ _) (or_introl eq_refl) eq_refl)
    as (im & H1 & _ & H3 & H4 & _ & H6 & _).
  exists im. split; [exact H1|]. split; [exact H3|]. split; [exact H4|].
  exact (H6 eq_refl).
Defined.

(** ** Standard input of a background stage *)

Lemma resolve_absolute cwd : resolve cwd "/dev/null" = "/dev/null"%string.
Proof. reflexivity. Qed.

(** C3, as the code has it.  In a background line, a spawned stage has the
    null device on its standard input exactly when it is given no pipe
    descriptor and the line has no input path, whatever its index; with an
    input path that is not the null device it never has; and a read of a
    null standard input returns end-of-stream at once. *)
Theorem background_null_input e l c i pipeIn w :
  background l = true ->
  shell_table (w_fds w) -> threaded (w_fds w) pipeIn ->
  e_fork_fails e (w_nforks w) = false ->
  w_files w !! "/dev/null"%string = Some NullDevice ->
  exists im,
    spawned w (execute_command e l c i pipeIn w).2 = [im] /\ im_index im = i /\
    (file_input l = None -> (null_bound (w_files w) (im_fds im) <-> pipeIn <= 0)) /\
    (forall path, file_input l = Some path ->
       w_files w !! resolve (w_cwd w) path <> Some NullDevice ->
       ~ null_bound (w_files w) (im_fds im)) /\
    (null_bound (w_files w) (im_fds im) ->
     read_now (w_files w) (im_fds im) STDIN_FILENO = Some EmptyString).
Proof.
  intros Hbg Hst Hth Hf Hnull.
  destruct (execute_command_ok e l c i pipeIn w Hf) as (_ & Him & _).
  destruct (stage_child_spec e l c i pipeIn w Hst Hth)
    as (Hst1 & Hth1 & Hfds & _ & _ & _ & Hidx & _).
  exists (stage_child e l c i pipeIn w).1.1.
  split; [unfold spawned; rewrite Him; now rewrite drop_app_length|].
  split; [exact Hidx|].
  assert (Hwr : is_last l i = false -> 3 <= (stage_pipe e l i w).1.2).
  { intros Hl. apply (stage_pipe_spec e l i w pipeIn Hst Hth Hl). }
  assert (H0 : im_fds (stage_child e l c i pipeIn w).1.1 !! STDIN_FILENO =
               input_table l i pipeIn (w_files w) (w_cwd w) (stage_pipe e l i w).2
                 !! STDIN_FILENO).
  { rewrite Hfds. apply output_table_other;
      [unfold STDOUT_FILENO, STDIN_FILENO; lia
      |intros Hl; specialize (Hwr Hl); unfold STDIN_FILENO; lia]. }
  pose proof (threaded_above _ _ Hst1 Hth1) as Hp.
  assert (Hpipe : 0 < pipeIn -> forall key flags,
            input_table l i pipeIn (w_files w) (w_cwd w) (stage_pipe e l i w).2
              !! STDIN_FILENO <> Some (OpenFile key flags)).
  { intros Hpos key flags. unfold input_table.
    apply Z.ltb_lt in Hpos as Hpos'. rewrite Hpos'.
    destruct Hth1 as [-> | [k Hk]]; [lia|]. rewrite Hk.
    destruct Hp as [-> | Hp]; [lia|].
    unfold STDIN_FILENO. rewrite lookup_delete_ne, lookup_insert_eq by lia. discriminate. }
  assert (Hnopipe : pipeIn <= 0 ->
            input_table l i pipeIn (w_files w) (w_cwd w) (stage_pipe e l i w).2
              !! STDIN_FILENO =
            if open_fails (w_files w) (w_cwd w) (default "/dev/null"%string (file_input l)) O_RDONLY
            then Some (Inherited 0)
            else Some (OpenFile (resolve (w_cwd w) (default "/dev/null"%string (file_input l)))
                                O_RDONLY)).
  { intros Hle. unfold input_table.
    assert (E : (0 <? pipeIn) = false) by (apply Z.ltb_ge; lia). rewrite E, Hbg.
    rewrite orb_true_r. simpl.
    destruct (open_fails _ _ _ _); simpl.
    - apply Hst1.
    - apply lookup_insert_eq. }
  split; [|split].
  - intros Hnone. split.
    + intros (key & flags & Hk & _). rewrite H0 in Hk.
      destruct (Z_lt_le_dec 0 pipeIn) as [Hpos|Hle]; [|assumption].
      exfalso. exact (Hpipe Hpos _ _ Hk).
    + intros Hle. exists "/dev/null"%string, O_RDONLY.
      split; [|assumption]. rewrite H0, (Hnopipe Hle), Hnone. simpl.
      unfold open_fails. rewrite resolve_absolute, Hnull. reflexivity.
  - intros path Hpath Hreg (key & flags & Hk & Hdev). rewrite H0 in Hk.
    destruct (Z_lt_le_dec 0 pipeIn) as [Hpos|Hle]; [exact (Hpipe Hpos _ _ Hk)|].
    rewrite (Hnopipe Hle), Hpath in Hk. simpl in Hk.
    clear Hnopipe.
    destruct (open_fails _ _ _ _); [discriminate|].
    injection Hk as Hkey _. rewrite <- Hkey in Hdev. exact (Hreg Hdev).
  - intros (key & flags & Hk & Hdev). unfold read_now. now rewrite Hk, Hdev.
Qed.

(** The stage [cat] of [cd /tmp | cat &], reached with no pipe. *)
Lemma background_null_input_witness :
  exists im,
    spawned (cd (machine 420) "/tmp" fresh_shell)
      (execute_command (machine 420)
         (plain_line [["cd"; "/tmp"]; ["cat"]]%string true)
         (command ["cat"%string]) 1 (-1) (cd (machine 420) "/tmp" fresh_shell)).2 = [im] /\
    im_index im = 1%nat /\
    null_bound root_fs (im_fds im).
Proof.
  destruct (background_null_input (machine 420)
              (plain_line [["cd"; "/tmp"]; ["cat"]]%string true)
              (command ["cat"%string]) 1 (-1) (cd (machine 420) "/tmp" fresh_shell)
              eq_refl (shell_table_boot _ _ _) (or_introl eq_refl) eq_refl eq_refl)
    as (im & H1 & H2 & H3 & _).
  exists im. split; [exact H1|]. split; [exact H2|].
  apply (H3 eq_refl). lia.
Defined.

(** C3, as the claim states it, fails: in the background line
    [cd /tmp | cat &] the stage [cat] has index 1 and still gets the null
    device, because the builtin before it hands it no pipe. *)
Lemma null_input_beyond_first_stage :
  let l := plain_line [["cd"; "/tmp"]; ["cat"]]%string true in
  background l = true /\
  exists im,
    spawned fresh_shell (execute_line (machine 420) l fresh_shell) = [im] /\
    im_fds im !! STDIN_FILENO = Some (OpenFile "/dev/null" O_RDONLY) /\
    ~ (null_bound root_fs (im_fds im) <->
       im_index im = 0%nat /\ im_pipeIn im <= 0 /\ file_input l = None).
Proof.
  cbv zeta. split; [reflexivity|].
  eexists. split; [vm_compute; reflexivity|]. split; [vm_compute; reflexivity|].
  intros [H _]. destruct H as [H _]; [|discriminate H].
  exists "/dev/null"%string, O_RDONLY. split; vm_compute; reflexivity.
Qed.

(** ** Pipe descriptors across fork *)

Lemma input_table_other l i pipeIn files cwd (fds : gmap Z file) (x : Z) :
  x <> STDIN_FILENO -> x <> pipeIn ->
  input_table l i pipeIn files cwd fds !! x = fds !! x.
Proof.
  intros H0 Hp. unfold input_table.
  destruct (0 <? pipeIn).
  - destruct (fds !! pipeIn); [|reflexivity].
    rewrite lookup_delete_ne, lookup_insert_ne by congruence. reflexivity.
  - destruct (_ && _); [|reflexivity]. now rewrite lookup_insert_ne by congruence.
Qed.

(** What the parent and the child hold after a stage that is not the last:
    the parent has closed the write end and the descriptor it was given and
    keeps the read end to thread it on; the child has the write end on its
    standard output, and still has the read end of the same pipe. *)
Lemma nonfinal_stage_descriptors e l c i pipeIn w :
  shell_table (w_fds w) -> threaded (w_fds w) pipeIn ->
  e_fork_fails e (w_nforks w) = false -> is_last l i = false ->
  let res := execute_command e l c i pipeIn w in
  let k := w_npipes w in
  exists im wr,
    spawned w res.2 = [im] /\ 3 <= res.1 /\
    w_fds res.2 !! res.1 = Some (PipeRead k) /\
    w_fds res.2 !! wr = None /\ w_fds w !! wr = None /\
    (0 < pipeIn -> w_fds res.2 !! pipeIn = None) /\
    im_fds im !! STDOUT_FILENO = Some (PipeWrite k) /\
    im_fds im !! wr = None /\
    im_fds im !! res.1 = Some (PipeRead k).
Proof.
  intros Hst Hth Hf Hl. cbv zeta.
  destruct (execute_command_ok e l c i pipeIn w Hf) as (Hret & Him & _ & _ & _ & _ & Hfds & _).
  destruct (stage_child_spec e l c i pipeIn w Hst Hth) as (Hst1 & Hth1 & Hcf & _).
  destruct (stage_pipe_spec e l i w pipeIn Hst Hth Hl)
    as (Hr & Hw & Hne & Hrp & Hwp & Hfr & Hfw & Heq & _ & _).
  rewrite Hl in Hret, Hfds. simpl in Hret, Hfds.
  set (r := (stage_pipe e l i w).1.1) in *.
  set (wr := (stage_pipe e l i w).1.2) in *.
  set (fds1 := (stage_pipe e l i w).2) in *.
  assert (H1r : fds1 !! r = Some (PipeRead (w_npipes w))).
  { rewrite Heq, lookup_insert_ne, lookup_insert_eq by congruence. reflexivity. }
  assert (H1w : fds1 !! wr = Some (PipeWrite (w_npipes w))).
  { rewrite Heq, lookup_insert_eq. reflexivity. }
  exists (stage_child e l c i pipeIn w).1.1, wr.
  rewrite Hret, Hfds, Hcf. fold r wr fds1.
  split; [unfold spawned; rewrite Him; now rewrite drop_app_length|].
  split; [assumption|].
  unfold sys_close.
  split; [|split; [|split; [|split; [|split; [|split]]]]].
  - destruct (0 <? pipeIn); simpl; rewrite ?lookup_delete_ne by congruence; assumption.
  - destruct (0 <? pipeIn); simpl; rewrite ?lookup_delete_ne by congruence;
      apply lookup_delete_eq.
  - assumption.
  - intros Hpos. apply Z.ltb_lt in Hpos. rewrite Hpos. apply lookup_delete_eq.
  - rewrite (output_table_pipe l i wr _ _ _ (PipeWrite (w_npipes w)) Hl).
    + case_decide as E; [unfold STDOUT_FILENO in E; lia|reflexivity].
    + rewrite input_table_other; [assumption|unfold STDIN_FILENO; lia|assumption].
  - unfold output_table. rewrite Hl. simpl.
    rewrite input_table_other by (unfold STDIN_FILENO; first [lia | assumption]).
    rewrite H1w. destruct (file_output l); apply lookup_delete_eq.
  - rewrite output_table_other; [|unfold STDOUT_FILENO; lia|intros _; assumption].
    rewrite input_table_other; [assumption|unfold STDIN_FILENO; lia|assumption].
Qed.

(** C4 on [yes | head -1]: the shell ends with its three streams only, and
    [head] holds nothing but the read end on its standard input; [yes] has
    the write end on its standard output and, on descriptor 3, the read end
    of that same pipe, which the child branch never closes. *)
Theorem producer_keeps_read_end :
  let l := plain_line [["yes"]; ["head"; "-1"]]%string false in
  let w' := execute_line (machine 420) l fresh_shell in
  exists yes head,
    w_images w' = [yes; head] /\
    map_to_list (w_fds w') = [(2, Inherited 2); (1, Inherited 1); (0, Inherited 0)] /\
    map_to_list (im_fds head) = [(2, Inherited 2); (1, Inherited 1); (0, PipeRead 0)] /\
    im_fds yes !! STDOUT_FILENO = Some (PipeWrite 0) /\
    im_fds yes !! 3 = Some (PipeRead 0).
Proof.
  cbv zeta. do 2 eexists. split; [vm_compute; reflexivity|].
  repeat split; vm_compute; reflexivity.
Qed.

(** ** The builtin leaves descriptors, processes and buffer alone *)

Lemma sys_chdir_frame e path w :
  let w' := sys_chdir e path w in
  w_fds w' = w_fds w /\ w_images w' = w_images w /\ w_children w' = w_children w /\
  w_next_pid w' = w_next_pid w /\ w_endstatus w' = w_endstatus w /\
  w_files w' = w_files w /\ w_nforks w' = w_nforks w /\ w_npipes w' = w_npipes w /\
  blocking_waits (w_trace w') = blocking_waits (w_trace w).
Proof.
  unfold sys_chdir. destruct (e_isdir e _); simpl; repeat split;
    rewrite blocking_waits_app; simpl; now rewrite app_nil_r.
Qed.

Lemma cd_frame e path w :
  let w' := cd e path w in
  w_fds w' = w_fds w /\ w_images w' = w_images w /\ w_children w' = w_children w /\
  w_next_pid w' = w_next_pid w /\ w_endstatus w' = w_endstatus w /\
  w_files w' = w_files w /\ w_nforks w' = w_nforks w /\ w_npipes w' = w_npipes w /\
  blocking_waits (w_trace w') = blocking_waits (w_trace w).
Proof.
  unfold cd.
  destruct (String.eqb path "~" && negb (is_set (e_home e))); [repeat split|].
  destruct (names_user path).
  - destruct (e_passwd e _); [apply sys_chdir_frame|repeat split].
  - apply sys_chdir_frame.
Qed.

(** ** The foreground wait *)

Lemma reap_none pid ready cs :
  Forall (fun c => awaited pid c = false) cs -> reap pid ready cs = None.
Proof.
  induction 1 as [|c cs Hc _ IH]; simpl; [reflexivity|]. now rewrite Hc, IH.
Qed.

Lemma reap_last pid ready cs ch :
  Forall (fun c => awaited pid c = false) cs ->
  reap pid ready (cs ++ [ch]) =
    if awaited pid ch && ready ch then Some (ch, cs) else None.
Proof.
  induction 1 as [|c cs Hc _ IH]; simpl.
  - destruct (awaited pid ch && ready ch); reflexivity.
  - rewrite Hc, IH. simpl. destruct (awaited pid ch && ready ch); reflexivity.
Qed.

(** A blocking call that no signal disturbs returns the child just
    created. *)
Lemma sys_waitpid_fresh stat pid st cs :
  0 < pid -> Forall (fun c => 0 < c_pid c < pid) cs ->
  sys_waitpid pid 0 stat (cs ++ [{| c_pid := pid; c_status := st; c_exited := false |}]) =
    (pid, st, cs).
Proof.
  intros Hpos Hcs. unfold sys_waitpid.
  assert (Hna : Forall (fun c => awaited pid c = false) cs).
  { eapply Forall_impl; [exact Hcs|]. intros c Hc. unfold awaited. simpl in Hc.
    apply orb_false_iff. split; [apply Z.eqb_neq|apply Z.eqb_neq]; lia. }
  assert (Haw : awaited pid {| c_pid := pid; c_status := st; c_exited := false |} = true).
  { unfold awaited. simpl. rewrite Z.eqb_refl. apply orb_true_r. }
  rewrite forallb_app. simpl. rewrite Haw. simpl. rewrite andb_false_r.
  rewrite !reap_last by assumption. rewrite Haw. simpl. reflexivity.
Qed.

Lemma positive_pids pid (cs : list child) :
  Forall (fun c => 0 < c_pid c < pid) cs -> Forall (fun c => 0 < c_pid c) cs.
Proof. intros H. eapply Forall_impl; [exact H|]. simpl. intros c Hc. lia. Qed.

(** The call returns the child: [stat] holds its status, the handler that
    runs as the call returns collects every other child, and records them. *)
Lemma blocking_wait_collected e pid st cs w :
  e_wait e pid = Collected -> 0 < pid -> Forall (fun c => 0 < c_pid c < pid) cs ->
  w_children w = cs ++ [{| c_pid := pid; c_status := st; c_exited := false |}] ->
  (blocking_wait e pid w).1 = st /\
  w_children (blocking_wait e pid w).2 = [] /\
  exists events, events ≡ₚ map report cs /\
                 w_endstatus (blocking_wait e pid w).2 =
                   display_all events (w_endstatus w).
Proof.
  intros Hw Hpos Hcs Hch. unfold blocking_wait. rewrite Hw, Hch.
  rewrite sys_waitpid_fresh by assumption. cbn [fst snd]. split; [reflexivity|].
  apply (handler_at_wait_collects e pid
           (traced (SysWaitpid pid 0 pid) (set_children cs w))).
  simpl. eapply positive_pids, Hcs.
Qed.

(** SIGINT cuts the call short: [stat] is not written and nobody is
    collected. *)
Lemma blocking_wait_interrupted e pid w :
  e_wait e pid = Interrupted ->
  (blocking_wait e pid w).1 = e_uninit e /\
  w_children (blocking_wait e pid w).2 = w_children w /\
  w_endstatus (blocking_wait e pid w).2 = w_endstatus w.
Proof. intros Hw. unfold blocking_wait. rewrite Hw. repeat split. Qed.

(** The handler runs first: it collects and records every child, the
    awaited one among them, and the call finds no child: [stat] is not
    written. *)
Lemma blocking_wait_preempted e pid w :
  e_wait e pid = Preempted -> Forall (fun c => 0 < c_pid c) (w_children w) ->
  (blocking_wait e pid w).1 = e_uninit e /\
  w_children (blocking_wait e pid w).2 = [] /\
  exists events, events ≡ₚ map report (w_children w) /\
                 w_endstatus (blocking_wait e pid w).2 =
                   display_all events (w_endstatus w).
Proof.
  intros Hw Hpos. unfold blocking_wait. rewrite Hw.
  destruct (handler_at_wait_collects e pid w Hpos) as (Hnil & events & Hperm & Hend).
  rewrite Hnil. simpl. split; [reflexivity|]. split; [reflexivity|].
  exists events. now split.
Qed.

Lemma execute_command_fresh e l c i pipeIn w :
  pids_fresh w -> pids_fresh (execute_command e l c i pipeIn w).2.
Proof.
  intros [Hpos Hcs].
  destruct (e_fork_fails e (w_nforks w)) eqn:Hf.
  - destruct (execute_command_failed e l c i pipeIn w Hf) as (_ & _ & _ & Hc & Hn & _).
    unfold pids_fresh. now rewrite Hc, Hn.
  - destruct (execute_command_parent e l c i pipeIn w Hf)
      as (w5 & _ & _ & _ & Hn & _ & _ & Hc & _ & _ & ->).
    cbn [snd].
    assert (H5 : pids_fresh w5).
    { unfold pids_fresh. rewrite Hn, Hc. split; [lia|].
      apply Forall_app. split.
      - eapply Forall_impl; [exact Hcs|]. simpl. intros; lia.
      - constructor; [simpl; lia|constructor]. }
    destruct (negb (background l) && is_last l i); [|exact H5].
    destruct (blocking_wait_frame e (w_next_pid w) w5)
      as ((_ & _ & _ & _ & _ & F6 & _ & _ & F9) & _).
    destruct (blocking_wait e (w_next_pid w) w5) as [stat w6]. simpl in *.
    destruct H5 as [H5a H5b]. unfold pids_fresh. simpl. rewrite F6.
    split; [assumption|].
    apply (proj1 (List.Forall_map c_pid (fun p => 0 < p < w_next_pid w5) _)).
    apply Forall_forall. intros x Hx. apply F9 in Hx.
    apply (proj2 (List.Forall_map c_pid (fun p => 0 < p < w_next_pid w5) _)) in H5b.
    rewrite Forall_forall in H5b. now apply H5b.
Qed.

(** ** The loop of execute_line *)

Lemma child_branch_ids e l c i pipeIn pipes pid cwd fds files :
  let r := child_branch e l c i pipeIn pipes pid cwd fds files in
  im_pid r.1.1 = pid /\ im_index r.1.1 = i /\ im_args r.1.1 = args c /\
  im_pipeIn r.1.1 = pipeIn /\ im_status r.1.1 = r.2.
Proof. unfold child_branch. destruct (e_exec e (args c)); simpl; repeat split. Qed.

Lemma final_stage_one l im :
  final_stage l [im] = if is_last l (im_index im) then [im] else [].
Proof.
  unfold final_stage. rewrite filter_cons, filter_nil.
  destruct (is_last l (im_index im)); reflexivity.
Qed.

Lemma final_stage_app l a b : final_stage l (a ++ b) = final_stage l a ++ final_stage l b.
Proof. apply filter_app. Qed.

(** One external command: at most one process, with the index and the
    arguments of the command, and a blocking wait exactly for a process of
    the final stage of a foreground line. *)
Lemma execute_command_step e l c i pipeIn w :
  let w' := (execute_command e l c i pipeIn w).2 in
  exists ims,
    w_images w' = w_images w ++ ims /\
    (ims = [] \/ exists im, ims = [im] /\ im_index im = i /\ im_args im = args c) /\
    blocking_waits (w_trace w') =
      blocking_waits (w_trace w) ++
      (if background l then [] else map im_pid (final_stage l ims)).
Proof.
  cbv zeta.
  destruct (e_fork_fails e (w_nforks w)) eqn:Hf.
  - destruct (execute_command_failed e l c i pipeIn w Hf) as (_ & Him & _ & _ & _ & _ & _ & _ & Hb).
    exists []. rewrite Him, Hb, !app_nil_r. split; [reflexivity|]. split; [now left|].
    destruct (background l); now rewrite app_nil_r.
  - destruct (execute_command_ok e l c i pipeIn w Hf)
      as (_ & Him & _ & _ & _ & _ & _ & Hb).
    destruct (child_branch_ids e l c i pipeIn (stage_pipe e l i w).1 (w_next_pid w)
                (w_cwd w) (stage_pipe e l i w).2 (w_files w)) as (Hpid & Hidx & Hargs & _ & Hst).
    fold (stage_child e l c i pipeIn w) in Hpid, Hidx, Hargs, Hst.
    exists [(stage_child e l c i pipeIn w).1.1].
    split; [assumption|]. split; [right; eauto|].
    rewrite final_stage_one, Hidx.
    rewrite Hb. destruct (background l), (is_last l i); simpl; rewrite ?Hpid; reflexivity.
Qed.

Lemma execute_from_spec e l cs i p w :
  let w' := (execute_from e l cs i p w).2 in
  exists ims,
    w_images w' = w_images w ++ ims /\
    Forall (fun im => (i <= im_index im)%nat /\
                      exists c, cs !! (im_index im - i)%nat = Some c /\
                                is_cd c = false /\ im_args im = args c) ims /\
    StronglySorted (fun a b => (im_index a < im_index b)%nat) ims /\
    blocking_waits (w_trace w') =
      blocking_waits (w_trace w) ++
      (if background l then [] else map im_pid (final_stage l ims)).
Proof.
  revert i p w. induction cs as [|c rest IH]; intros i p w; cbv zeta.
  - exists []. simpl. rewrite !app_nil_r. split; [reflexivity|].
    split; [constructor|]. split; [constructor|].
    destruct (background l); now rewrite app_nil_r.
  - simpl. destruct (is_cd c) eqn:Hcd.
    + destruct (IH (S i) p (cd e (arg c 1) w)) as (ims & Him & Hall & Hsort & Hb).
      destruct (cd_frame e (arg c 1) w) as (_ & Hi & Hc & Hn & Hs & _ & _ & _ & Ht).
      exists ims. rewrite Him, Hi, Hb, Ht.
      split; [reflexivity|]. split; [|split; [assumption|reflexivity]].
      eapply Forall_impl; [exact Hall|]. simpl.
      intros im (Hge & c' & Hl & Hrest). split; [lia|].
      exists c'. split; [|assumption].
      replace (im_index im - i)%nat with (S (im_index im - S i)) by lia. exact Hl.
    + destruct (execute_command e l c i p w) as [p' w1] eqn:Hex.
      pose proof (execute_command_step e l c i p w) as Hstep. cbv zeta in Hstep.
      rewrite Hex in Hstep. simpl in Hstep.
      destruct Hstep as (ims0 & Him0 & Hshape & Hb0).
      destruct (IH (S i) p' w1) as (ims & Him & Hall & Hsort & Hb).
      exists (ims0 ++ ims).
      rewrite Him, Him0, Hb, Hb0, final_stage_app, <- !app_assoc.
      assert (Hall' : Forall (fun im => (i <= im_index im)%nat /\
                         exists c0, (c :: rest) !! (im_index im - i)%nat = Some c0 /\
                                    is_cd c0 = false /\ im_args im = args c0) ims).
      { eapply Forall_impl; [exact Hall|]. simpl.
        intros im (Hge & c' & Hl & Hrest). split; [lia|].
        exists c'. split; [|assumption].
        replace (im_index im - i)%nat with (S (im_index im - S i)) by lia. exact Hl. }
      split; [reflexivity|]. split; [|split].
      * apply Forall_app. split; [|assumption].
        destruct Hshape as [-> | (im & -> & Hidx & Hargs)]; [constructor|].
        constructor; [|constructor]. split; [lia|].
        exists c. rewrite Hidx, Nat.sub_diag. simpl. auto.
      * destruct Hshape as [-> | (im & -> & Hidx & Hargs)]; [assumption|].
        simpl. constructor; [assumption|].
        eapply Forall_impl; [exact Hall|]. simpl. intros im' [Hge _]. lia.
      * destruct (background l); [reflexivity|]. now rewrite map_app.
Qed.

Lemma is_last_unique l x y : is_last l x = true -> is_last l y = true -> x = y.
Proof.
  unfold is_last. intros Hx Hy. apply Z.eqb_eq in Hx, Hy. lia.
Qed.

Lemma final_stage_at_most_one l ims :
  StronglySorted (fun a b => (im_index a < im_index b)%nat) ims ->
  (length (final_stage l ims) <= 1)%nat.
Proof.
  induction 1 as [|a rest Hs IH Ha]; [simpl; lia|].
  unfold final_stage in *. rewrite filter_cons.
  case_decide as Hl; [|exact IH].
  assert (Hnone : filter (fun im => is_last l (im_index im) = true) rest = []).
  { clear IH Hs. induction rest as [|b rest IHr]; [reflexivity|].
    inversion Ha; subst. rewrite filter_cons. case_decide as Hb.
    - pose proof (is_last_unique _ _ _ Hl Hb). lia.
    - now apply IHr. }
  rewrite Hnone. simpl. lia.
Qed.

(** C5 fails on the foreground line [ls | false], where [false] exits
    with 1.  The executor blocks on process 101 alone, but [execute_command]
    does not look at what [waitpid] returns, and what it records is not the
    outcome of that process when the call fails.  First schedule: [ls] ends
    while the shell sleeps in the call; [sigchld_handler] runs, collects
    100, loops until [false] has ended, collects and records it, and
    returns; the call, started again, finds no child, and
    [display_process_end] is given the [stat] that nobody wrote: the buffer
    ends with a second line for 101, with exit status 0.  Second schedule:
    SIGINT ends the call; the same line is recorded while both processes are
    still children of the shell. *)
Theorem failed_wait_is_recorded_as_outcome :
  let l := plain_line [["ls"]; ["false"]]%string false in
  let handled :=
    with_signals (fun _ => Preempted) (fun _ => [[100]; []; [101]]) (machine 420) in
  let cut := with_signals (fun _ => Interrupted) (fun _ => []) (machine 420) in
  let w1 := execute_line handled l fresh_shell in
  let w2 := execute_line cut l fresh_shell in
  map im_status (w_images w1) = [W_EXITCODE 0 0; W_EXITCODE 1 0] /\
  w_trace w1 =
    [SysPipe 3 4; SysFork 100; SysClose 4; SysFork 101; SysClose 3;
     SysWaitpid (-1) WNOHANG 100; SysWaitpid (-1) WNOHANG 0;
     SysWaitpid (-1) WNOHANG 101; SysWaitpid (-1) WNOHANG (-1);
     SysWaitpid 101 0 (-1)] /\
  w_children w1 = [] /\
  string_of_list_ascii (c_string (w_endstatus w1)) =
    (exit_line 100 0 ++ exit_line 101 1 ++ display_text (e_uninit handled) 101)%string /\
  display_text (e_uninit handled) 101 = exit_line 101 0 /\
  w_trace w2 =
    [SysPipe 3 4; SysFork 100; SysClose 4; SysFork 101; SysClose 3;
     SysWaitpid 101 0 (-1)] /\
  w_children w2 =
    [{| c_pid := 100; c_status := W_EXITCODE 0 0; c_exited := false |};
     {| c_pid := 101; c_status := W_EXITCODE 1 0; c_exited := false |}] /\
  string_of_list_ascii (c_string (w_endstatus w2)) = exit_line 101 0.
Proof. cbv zeta. split_ands; vm_compute; reflexivity. Qed.

(** ** The descriptor threaded to the next stage *)

(** A stage that is given the read end of a pipe has it on its standard
    input, and the shell closes its own copy after the fork. *)
Lemma stage_reads_pipe e l c i pipeIn w k :
  shell_table (w_fds w) -> w_fds w !! pipeIn = Some (PipeRead k) ->
  e_fork_fails e (w_nforks w) = false ->
  let res := execute_command e l c i pipeIn w in
  exists im,
    spawned w res.2 = [im] /\ im_pipeIn im = pipeIn /\
    im_fds im !! STDIN_FILENO = Some (PipeRead k) /\
    w_fds res.2 !! pipeIn = None.
Proof.
  intros Hst Hk Hf. cbv zeta.
  assert (Hth : threaded (w_fds w) pipeIn) by (right; eauto).
  destruct (threaded_above _ _ Hst Hth) as [E | Hp].
  { exfalso. subst pipeIn. destruct Hst as (_ & _ & _ & H3).
    destruct (H3 _ _ Hk) as [H _]; lia. }
  destruct (execute_command_ok e l c i pipeIn w Hf) as (_ & Him & _ & _ & _ & _ & Hfds & _).
  destruct (stage_child_spec e l c i pipeIn w Hst Hth)
    as (Hst1 & Hth1 & Hcf & _ & _ & _ & _ & Hpi & _).
  assert (Hpos : (0 <? pipeIn) = true) by (apply Z.ltb_lt; lia).
  assert (Hwr : is_last l i = false -> 3 <= (stage_pipe e l i w).1.2).
  { intros Hl. apply (stage_pipe_spec e l i w pipeIn Hst Hth Hl). }
  assert (Hk1 : (stage_pipe e l i w).2 !! pipeIn = Some (PipeRead k)).
  { destruct (is_last l i) eqn:Hl; [now rewrite stage_pipe_last|].
    destruct (stage_pipe_spec e l i w pipeIn Hst Hth Hl)
      as (_ & _ & _ & Hrp & Hwp & _ & _ & -> & _).
    now rewrite !lookup_insert_ne by congruence. }
  exists (stage_child e l c i pipeIn w).1.1.
  split; [unfold spawned; rewrite Him; now rewrite drop_app_length|].
  split; [assumption|]. split.
  - rewrite Hcf, output_table_other;
      [|unfold STDOUT_FILENO, STDIN_FILENO; lia
       |intros Hl; specialize (Hwr Hl); unfold STDIN_FILENO; lia].
    unfold input_table. rewrite Hpos, Hk1.
    unfold STDIN_FILENO. rewrite lookup_delete_ne by lia. apply lookup_insert_eq.
  - rewrite Hfds, Hpos. apply lookup_delete_eq.
Qed.

(** C10.  An external command [a] that is not the last, then the builtin,
    then an external command [b]: [b] is executed with the descriptor [a]
    returned; the builtin changes nothing in the shell's descriptor table, so
    that descriptor is still the open read end of the pipe of [a] when [b]
    starts; and when [b] is spawned its standard input is that read end, fed
    by the standard output of [a]. *)
Theorem builtin_keeps_threaded_pipe e l a c b rest i p w :
  is_cd a = false -> is_cd c = true -> is_cd b = false -> is_last l i = false ->
  shell_table (w_fds w) -> threaded (w_fds w) p ->
  e_fork_fails e (w_nforks w) = false ->
  let ra := execute_command e l a i p w in
  let wc := cd e (arg c 1) ra.2 in
  let rb := execute_command e l b (S (S i)) ra.1 wc in
  let k := w_npipes w in
  execute_from e l (a :: c :: b :: rest) i p w =
    execute_from e l rest (S (S (S i))) rb.1 rb.2 /\
  w_fds wc = w_fds ra.2 /\
  w_fds wc !! ra.1 = Some (PipeRead k) /\
  (exists ia, spawned w ra.2 = [ia] /\ im_fds ia !! STDOUT_FILENO = Some (PipeWrite k)) /\
  (e_fork_fails e (w_nforks wc) = false ->
   exists ib, spawned wc rb.2 = [ib] /\ im_pipeIn ib = ra.1 /\
              im_fds ib !! STDIN_FILENO = Some (PipeRead k)).
Proof.
  intros Ha Hc Hb Hl Hst Hth Hf. cbv zeta.
  destruct (nonfinal_stage_descriptors e l a i p w Hst Hth Hf Hl)
    as (ia & wr & Hia & Hge & Hr & _ & _ & _ & Hout & _).
  destruct (cd_frame e (arg c 1) (execute_command e l a i p w).2) as (Hfds & _).
  destruct (execute_command_table e l a i p w Hst Hth) as [Hst2 _].
  split; [|split; [assumption|split; [now rewrite Hfds|split; [eauto|]]]].
  - simpl. rewrite Ha, Hc, Hb.
    destruct (execute_command e l a i p w) as [pa wa]. simpl.
    destruct (execute_command e l b (S (S i)) pa _) as [pb wb]. reflexivity.
  - intros Hfb.
    destruct (stage_reads_pipe e l b (S (S i)) (execute_command e l a i p w).1
                (cd e (arg c 1) (execute_command e l a i p w).2) (w_npipes w))
      as (ib & H1 & H2 & H3 & _); [now rewrite Hfds|now rewrite Hfds|assumption|].
    eauto.
Qed.

(** [ls | cd /tmp | wc]: [wc] reads what [ls] writes. *)
Lemma builtin_keeps_threaded_pipe_witness :
  let l := plain_line [["ls"]; ["cd"; "/tmp"]; ["wc"]]%string false in
  let ra := execute_command (machine 420) l (command ["ls"%string]) 0 (-1) fresh_shell in
  let wc := cd (machine 420) "/tmp" ra.2 in
  let rb := execute_command (machine 420) l (command ["wc"%string]) 2 ra.1 wc in
  execute_line (machine 420) l fresh_shell = rb.2 /\
  w_fds wc !! ra.1 = Some (PipeRead 0) /\
  exists ib, spawned wc rb.2 = [ib] /\ im_pipeIn ib = ra.1 /\
             im_fds ib !! STDIN_FILENO = Some (PipeRead 0).
Proof.
  cbv zeta.
  destruct (builtin_keeps_threaded_pipe (machine 420)
              (plain_line [["ls"]; ["cd"; "/tmp"]; ["wc"]]%string false)
              (command ["ls"%string]) (command ["cd"; "/tmp"]%string)
              (command ["wc"%string]) [] 0 (-1) fresh_shell)
    as (Hrun & _ & Hopen & _ & Hib).
  - reflexivity.
  - reflexivity.
  - reflexivity.
  - vm_compute. reflexivity.
  - apply shell_table_boot.
  - now left.
  - reflexivity.
  - split; [|split].
    + unfold execute_line. exact (f_equal snd Hrun).
    + exact Hopen.
    + apply Hib. vm_compute. reflexivity.
Defined.

(** ** The SIGCHLD handler *)

Lemma reap_any_sub ready cs c r :
  reap (-1) ready cs = Some (c, r) ->
  ready c = true /\ c ∈ cs /\
  (forall x, x ∈ cs -> x = c \/ x ∈ r) /\ (forall x, x ∈ r -> x ∈ cs).
Proof.
  revert c r. induction cs as [|a cs IH]; intros c r; simpl; [discriminate|].
  destruct (ready a) eqn:Ha.
  - intros H. injection H as <- <-. split; [assumption|]. split; [left|].
    split; intros x Hx; [apply elem_of_cons in Hx; tauto|now right].
  - destruct (reap (-1) ready cs) as [[x r']|] eqn:E; [|discriminate].
    intros H. injection H as <- <-.
    destruct (IH x r' eq_refl) as (H1 & H2 & H3 & H4).
    split; [assumption|]. split; [now right|]. split.
    + intros y Hy. apply elem_of_cons in Hy as [-> | Hy].
      * right. left.
      * destruct (H3 y Hy) as [-> | Hr]; [now left|right; now right].
    + intros y Hy. apply elem_of_cons in Hy as [-> | Hy]; [left|right; now apply H4].
Qed.

(** While some child is still running, the loop of the handler cannot reach
    its exit: [waitpid] answers 0, which is not -1, and the loop calls it
    again. *)
Lemma sigchld_loop_spins fuel stat w :
  Forall (fun c => 0 < c_pid c) (w_children w) ->
  (exists c, c ∈ w_children w /\ c_exited c = false) ->
  sigchld_loop fuel stat w = None.
Proof.
  revert stat w. induction fuel as [|fuel IH]; intros stat w Hpos (c & Hin & Hrun);
    [reflexivity|].
  simpl. unfold sys_waitpid.
  destruct (w_children w) as [|c0 cs] eqn:Hcs; [inversion Hin|].
  cbn [forallb]. rewrite awaited_any. cbn [negb andb].
  destruct (reap (-1) c_exited (c0 :: cs)) as [[x r]|] eqn:Hreap.
  - destruct (reap_any_sub _ _ _ _ Hreap) as (Hx & Hxin & Hsub & Hrest).
    rewrite Forall_forall in Hpos.
    assert (E1 : (0 <? c_pid x) = true) by (apply Z.ltb_lt; now apply Hpos).
    assert (E2 : (c_pid x =? -1) = false).
    { apply Z.eqb_neq. specialize (Hpos x Hxin). lia. }
    rewrite E1, E2. cbn [negb]. apply IH; simpl.
    + apply Forall_forall. intros y Hy. apply Hpos. now apply Hrest.
    + exists c. split; [|assumption].
      destruct (Hsub c Hin) as [-> | Hr]; [congruence|assumption].
  - change (has_flag WNOHANG WNOHANG) with true. cbn [negb Z.ltb Z.eqb Z.compare].
    apply IH; simpl; rewrite ?Hcs; [assumption|eauto].
Qed.

(** When every child has terminated the handler returns after one call of
    [waitpid] for each and one more: it has collected them all, recorded each
    in the buffer, and made no blocking wait. *)
Lemma sigchld_loop_drains stat w :
  Forall (fun c => 0 < c_pid c /\ c_exited c = true) (w_children w) ->
  exists w',
    sigchld_loop (S (length (w_children w))) stat w = Some w' /\
    w_children w' = [] /\
    w_endstatus w' =
      display_all (map (fun c => (c_status c, c_pid c)) (w_children w)) (w_endstatus w) /\
    blocking_waits (w_trace w') = blocking_waits (w_trace w) /\
    w_stderr w' = w_stderr w /\ w_images w' = w_images w /\ w_fds w' = w_fds w.
Proof.
  remember (w_children w) as cs eqn:Hcs. revert stat w Hcs.
  induction cs as [|c cs IH]; intros stat w Hcs Hall.
  - simpl. rewrite <- Hcs. simpl. eexists. split; [reflexivity|]. simpl.
    repeat split. rewrite blocking_waits_app. simpl. now rewrite app_nil_r.
  - inversion Hall as [|? ? [Hpos Hex] Hall']; subst.
    cbn [length]. 
    change (sigchld_loop (S (S (length cs))) stat w) with
      (let '(pid, stat', cs0) := sys_waitpid (-1) WNOHANG stat (w_children w) in
       let w1 := traced (SysWaitpid (-1) WNOHANG pid) (set_children cs0 w) in
       let w2 := if 0 <? pid
                 then set_endstatus (display_process_end stat' pid (w_endstatus w1)) w1
                 else w1 in
       if negb (pid =? -1) then sigchld_loop (S (length cs)) stat' w2 else Some w2).
    rewrite <- Hcs. unfold sys_waitpid. cbn [forallb reap]. rewrite awaited_any, Hex.
    cbn [negb andb].
    assert (E1 : (0 <? c_pid c) = true) by now apply Z.ltb_lt.
    assert (E2 : (c_pid c =? -1) = false) by (apply Z.eqb_neq; lia).
    rewrite E1, E2. cbn [negb].
    match goal with |- exists w', sigchld_loop _ _ ?W = _ /\ _ =>
      destruct (IH (c_status c) W eq_refl Hall') as (w' & H1 & H2 & H3 & H4 & H5 & H6 & H7)
    end.
    exists w'. split; [exact H1|]. split; [exact H2|].
    split; [rewrite H3; reflexivity|].
    split; [rewrite H4; simpl; rewrite blocking_waits_app; simpl; now rewrite app_nil_r|].
    split; [rewrite H5; reflexivity|]. split; [rewrite H6|rewrite H7]; reflexivity.
Qed.

(** C1 on two background children, the second of which has terminated: the
    handler collects it; the next [waitpid] answers 0 and changes nothing, so
    the loop is back where it was; and the handler never returns, whatever
    the number of iterations it is given, because the first child is still
    running.  Had the first child terminated too, three calls would do. *)
Theorem sigchld_handler_spins :
  let m := machine 420 in
  let w := execute_line m (plain_line [["true"]]%string true)
             (execute_line m (plain_line [["sleep"; "100"]]%string true) fresh_shell) in
  let sleep := {| c_pid := 100; c_status := 0; c_exited := false |} in
  let w1 := set_children (terminate 101 (w_children w)) w in
  w_children w1 = [sleep; {| c_pid := 101; c_status := 0; c_exited := true |}] /\
  sys_waitpid (-1) WNOHANG (e_uninit m) (w_children w1) = (101, 0, [sleep]) /\
  sys_waitpid (-1) WNOHANG 0 [sleep] = (0, 0, [sleep]) /\
  (forall fuel, sigchld_handler fuel m w1 = None) /\
  exists w2,
    sigchld_handler 3 m (set_children (terminate 100 (w_children w1)) w1) = Some w2 /\
    w_children w2 = [].
Proof.
  cbv zeta. do 3 (split; [vm_compute; reflexivity|]). split.
  - intros fuel. unfold sigchld_handler. apply sigchld_loop_spins.
    + vm_compute. repeat constructor.
    + exists {| c_pid := 100; c_status := 0; c_exited := false |}.
      split; [|reflexivity]. vm_compute. left.
  - eexists. split; vm_compute; reflexivity.
Qed.

(** ** The flush of the main loop against the handler *)

Lemma clear_loop_spec (n : nat) (b : list ascii) :
  (n <= length b)%nat ->
  fold_left (fun b i => <[i := NUL]> b) (seq 0 n) b = replicate n NUL ++ drop n b.
Proof.
  induction n as [|n IH]; intros Hn; [now rewrite drop_0|].
  rewrite seq_S, fold_left_app, IH by lia. cbn [fold_left]. rewrite Nat.add_0_l.
  rewrite insert_app_r_alt by (rewrite length_replicate; lia).
  rewrite length_replicate, Nat.sub_diag.
  destruct (drop n b) as [|x r] eqn:E.
  - apply (f_equal length) in E. rewrite length_drop in E. cbn [length] in E. lia.
  - assert (Hr : drop (S n) b = r).
    { replace (S n) with (n + 1)%nat by lia. rewrite <- drop_drop, E. reflexivity. }
    rewrite Hr, replicate_S_end, <- app_assoc. reflexivity.
Qed.

Lemma flush_clear_zeroes w :
  length (w_endstatus w) = ENDSTATUS_BUF_LEN ->
  w_endstatus (flush_clear w) = calloc ENDSTATUS_BUF_LEN.
Proof.
  intros Hlen. unfold flush_clear, set_endstatus, calloc. cbn [w_endstatus].
  rewrite clear_loop_spec by lia.
  rewrite <- Hlen at 2. rewrite drop_all. apply app_nil_r.
Qed.

(** Left alone, the flush writes the whole text of the buffer to the standard
    error once and leaves the buffer zeroed. *)
Lemma flush_prints_and_clears w :
  buffer_ok (w_endstatus w) -> (0 < strlen (w_endstatus w))%nat ->
  w_stderr (flush w) = w_stderr w ++ [string_of_list_ascii (c_string (w_endstatus w))] /\
  w_endstatus (flush w) = calloc ENDSTATUS_BUF_LEN.
Proof.
  intros [Hlen _] Hpos. unfold flush.
  apply Nat.ltb_lt in Hpos. rewrite Hpos.
  split; [reflexivity|]. now apply flush_clear_zeroes.
Qed.

(** Closed goals about a concrete run: a conjunction of equations, each
    settled by evaluation. *)
Ltac evaluate :=
  repeat match goal with |- _ /\ _ => split end; vm_compute; reflexivity.

(** C2 on two background lines.  The first child terminates while the shell
    reads the second line; the second child terminates between the [fprintf]
    of the flush and the loop that clears the buffer.  Both are collected by
    the handler, the shell has nothing left to wait for and its buffer is
    empty, yet the standard error only ever received the line of the first. *)
Theorem flush_race_loses_message :
  let m := machine 420 in
  let bg := plain_line [["true"]]%string true in
  let s0 := {| sh_pc := AtTest; sh_input := [bg; bg]; sh_world := fresh_shell |} in
  let ticks := [Step; Step; Step; ChildExit 100; Step; Step; Step; ChildExit 101; Step] in
  exists s,
    run m ticks s0 = Some s /\
    sh_pc s = AtRead /\ sh_input s = [] /\
    map im_pid (w_images (sh_world s)) = [100; 101] /\
    w_children (sh_world s) = [] /\
    w_trace (sh_world s) =
      [SysFork 100; SysWaitpid (-1) WNOHANG 100; SysWaitpid (-1) WNOHANG (-1);
       SysFork 101; SysWaitpid (-1) WNOHANG 101; SysWaitpid (-1) WNOHANG (-1)] /\
    w_endstatus (sh_world s) = calloc ENDSTATUS_BUF_LEN /\
    w_stderr (sh_world s) = [exit_line 100 0].
Proof.
  cbv zeta. eexists. split; [vm_compute; reflexivity|]. evaluate.
Qed.

(** The same two lines when the second child terminates after the clearing
    loop instead: the next flush prints its line. *)
Lemma flush_after_clear_keeps_message :
  let m := machine 420 in
  let bg := plain_line [["true"]]%string true in
  let s0 := {| sh_pc := AtTest;
               sh_input := [bg; bg; plain_line [["cd"; "/tmp"]]%string false];
               sh_world := fresh_shell |} in
  let ticks := [Step; Step; Step; ChildExit 100; Step; Step; Step; Step; ChildExit 101;
                Step; Step; Step; Step] in
  exists s,
    run m ticks s0 = Some s /\
    sh_pc s = AtRead /\ sh_input s = [] /\
    w_endstatus (sh_world s) = calloc ENDSTATUS_BUF_LEN /\
    w_stderr (sh_world s) = [exit_line 100 0; exit_line 101 0].
Proof.
  cbv zeta. eexists. split; [vm_compute; reflexivity|]. evaluate.
Qed.

(** ** Output redirection *)

(** C8 when [open] finds 0 where the mode would be: the file the first run
    creates has no permission bit, so it is not writable by its owner; the
    second run of the same appending line cannot open it, reports the failure
    and leaves in the file the output of one run only. *)
Theorem created_file_mode_is_arbitrary :
  let m := machine 0 in
  let l := {| cmds := [command ["echo"; "hi"]%string]; file_input := None;
              file_output := Some "out.txt"%string; file_output_append := true;
              background := false |} in
  let w1 := execute_line m l fresh_shell in
  let w2 := execute_line m l w1 in
  w_files fresh_shell !! "/home/u/out.txt"%string = None /\
  w_files w1 !! "/home/u/out.txt"%string = Some (Regular 0 "hi") /\
  has_flag 0 S_IWUSR = false /\
  w_files w2 !! "/home/u/out.txt"%string = Some (Regular 0 "hi") /\
  map im_perror (w_images w2) = [[]; ["Output redirection failed"%string]] /\
  map (fun im => im_fds im !! STDOUT_FILENO) (w_images w2) =
    [Some (OpenFile "/home/u/out.txt" (Z.lor (Z.lor O_WRONLY O_CREAT) O_APPEND));
     Some (Inherited 1)].
Proof. cbv zeta. evaluate. Qed.

(** With a mode that lets the owner write (here 0644 where the mode would
    be), two runs of an appending line leave the output of both, and two runs
    of a truncating line the output of the last. *)
Lemma output_redirection_two_runs :
  let m := machine 420 in
  let l append :=
    {| cmds := [command ["echo"; "hi"]%string]; file_input := None;
       file_output := Some "out.txt"%string; file_output_append := append;
       background := false |} in
  w_files (execute_line m (l true) (execute_line m (l true) fresh_shell))
    !! "/home/u/out.txt"%string = Some (Regular 420 "hihi") /\
  w_files (execute_line m (l false) (execute_line m (l false) fresh_shell))
    !! "/home/u/out.txt"%string = Some (Regular 420 "hi").
Proof. cbv zeta. evaluate. Qed.

(** * Further properties of the code *)

(** ** What the status buffer holds *)

Lemma c_string_length (b : list ascii) : length (c_string b) = strlen b.
Proof. unfold c_string. rewrite length_take. pose proof (strlen_le b). lia. Qed.

Lemma display_all_text (events : list (Z * Z)) (b : list ascii) (said : list ascii) :
  buffer_ok b -> c_string b = take (ENDSTATUS_BUF_LEN - 1) said ->
  c_string (display_all events b) =
    take (ENDSTATUS_BUF_LEN - 1) (said ++ recorded_text events).
Proof.
  revert b said. induction events as [|[stat pid] es IH]; intros b said Hb Hs.
  - simpl. unfold recorded_text. simpl. now rewrite app_nil_r.
  - simpl. unfold recorded_text. simpl. rewrite app_assoc.
    apply IH; [now apply display_process_end_spec|].
    destruct (display_process_end_spec stat pid b Hb) as [_ ->].
    rewrite take_app, <- Hs. f_equal. f_equal.
    rewrite <- c_string_length, Hs, length_take.
    destruct Hb as [_ Hlt]. lia.
Qed.

(** X1.  The text in the buffer is always the first 4095 bytes of the lines
    recorded since it was zeroed: nothing is reordered or altered, and what
    is lost to the bound is the tail. *)
Theorem status_buffer_holds_prefix (events : list (Z * Z)) :
  c_string (display_all events (calloc ENDSTATUS_BUF_LEN)) =
    take (ENDSTATUS_BUF_LEN - 1) (recorded_text events).
Proof.
  apply (display_all_text events (calloc ENDSTATUS_BUF_LEN) [] buffer_ok_calloc).
  unfold c_string. rewrite strlen_calloc. now rewrite take_nil.
Qed.

(** ** The status shown is the status of the child *)

Lemma exit_status_decoded (code : Z) :
  0 <= code < 256 ->
  WIFEXITED (W_EXITCODE code 0) = true /\ WEXITSTATUS (W_EXITCODE code 0) = code.
Proof.
  intros H.
  assert (Hall : forallb (fun c => WIFEXITED (W_EXITCODE c 0) &&
                                   (WEXITSTATUS (W_EXITCODE c 0) =? c)) (seqZ 0 256) = true)
    by (vm_compute; reflexivity).
  rewrite forallb_forall in Hall.
  specialize (Hall code). rewrite <- list_elem_of_In, elem_of_seqZ in Hall.
  apply andb_prop in Hall as [H1 H2]; [|lia]. split; [assumption|now apply Z.eqb_eq].
Qed.

Lemma signal_decoded (sig core : Z) :
  1 <= sig < 127 -> core = 0 \/ core = 128 ->
  WIFEXITED (Z.lor sig core) = false /\ WIFSIGNALED (Z.lor sig core) = true /\
  WTERMSIG (Z.lor sig core) = sig.
Proof.
  intros H Hc.
  assert (Hall : forallb (fun s => forallb (fun c =>
                    negb (WIFEXITED (Z.lor s c)) && WIFSIGNALED (Z.lor s c) &&
                    (WTERMSIG (Z.lor s c) =? s)) [0; 128]) (seqZ 1 126) = true)
    by (vm_compute; reflexivity).
  rewrite forallb_forall in Hall.
  specialize (Hall sig). rewrite <- list_elem_of_In, elem_of_seqZ in Hall.
  assert (Hs : forallb (fun c => negb (WIFEXITED (Z.lor sig c)) && WIFSIGNALED (Z.lor sig c) &&
                                 (WTERMSIG (Z.lor sig c) =? sig)) [0; 128] = true)
    by (apply Hall; lia).
  rewrite forallb_forall in Hs. specialize (Hs core).
  assert (Hin : In core [0; 128]) by (destruct Hc as [-> | ->]; simpl; auto).
  apply Hs in Hin. apply andb_prop in Hin as [Hin H3]. apply andb_prop in Hin as [H1 H2].
  apply negb_true_iff in H1. apply Z.eqb_eq in H3. auto.
Qed.

(** X2.  A child that calls [exit(code)] is reported with that code, and a child
    killed by a signal with the number of that signal, whether or not it
    dumped core: into the zeroed buffer [display_process_end] writes that one
    line (cut at 4095 bytes). *)
Theorem reported_status_is_child_status (code sig core pid : Z) :
  0 <= code < 256 -> 1 <= sig < 127 -> core = 0 \/ core = 128 ->
  c_string (display_process_end (W_EXITCODE code 0) pid (calloc ENDSTATUS_BUF_LEN)) =
    take (ENDSTATUS_BUF_LEN - 1) (list_ascii_of_string (exit_line pid code)) /\
  c_string (display_process_end (Z.lor sig core) pid (calloc ENDSTATUS_BUF_LEN)) =
    take (ENDSTATUS_BUF_LEN - 1) (list_ascii_of_string (signal_line pid sig)).
Proof.
  intros Hc Hs Hcore.
  destruct (exit_status_decoded code Hc) as [E1 E2].
  destruct (signal_decoded sig core Hs Hcore) as (S1 & S2 & S3).
  assert (H0 : c_string (calloc ENDSTATUS_BUF_LEN) = []).
  { unfold c_string. rewrite strlen_calloc. apply take_0. }
  split.
  - destruct (display_process_end_spec (W_EXITCODE code 0) pid _ buffer_ok_calloc) as [_ ->].
    rewrite H0, strlen_calloc, Nat.sub_0_r. unfold display_text. now rewrite E1, E2.
  - destruct (display_process_end_spec (Z.lor sig core) pid _ buffer_ok_calloc) as [_ ->].
    rewrite H0, strlen_calloc, Nat.sub_0_r. unfold display_text. now rewrite S1, S2, S3.
Qed.

(** [exit(3)] and a SIGKILL. *)
Lemma reported_status_is_child_status_witness :
  string_of_list_ascii
    (c_string (display_process_end (W_EXITCODE 3 0) 4242 (calloc ENDSTATUS_BUF_LEN))) =
    exit_line 4242 3 /\
  string_of_list_ascii
    (c_string (display_process_end 9 4242 (calloc ENDSTATUS_BUF_LEN))) =
    signal_line 4242 9.
Proof.
  destruct (reported_status_is_child_status 3 9 0 4242) as [H1 H2]; [lia|lia|now left|].
  change (Z.lor 9 0) with 9 in H2. rewrite H1, H2. split; vm_compute; reflexivity.
Defined.

(** ** When the handler returns *)

(** X3.  With some child still running the handler never leaves its loop; once
    every child has terminated it returns after one [waitpid] per child and
    one more, having collected them all and recorded them in the order of
    the table, with no blocking wait, and with the descriptors, the processes
    spawned and the standard error of the shell untouched. *)
Theorem sigchld_handler_returns_when_all_terminated e w :
  Forall (fun c => 0 < c_pid c) (w_children w) ->
  ((exists fuel w', sigchld_handler fuel e w = Some w') <->
   Forall (fun c => c_exited c = true) (w_children w)) /\
  (Forall (fun c => c_exited c = true) (w_children w) ->
   exists w',
     sigchld_handler (S (length (w_children w))) e w = Some w' /\
     w_children w' = [] /\
     w_endstatus w' =
       display_all (map (fun c => (c_status c, c_pid c)) (w_children w)) (w_endstatus w) /\
     blocking_waits (w_trace w') = blocking_waits (w_trace w) /\
     w_stderr w' = w_stderr w /\ w_images w' = w_images w /\ w_fds w' = w_fds w).
Proof.
  intros Hpos.
  assert (Hdrain : Forall (fun c => c_exited c = true) (w_children w) ->
            exists w',
              sigchld_handler (S (length (w_children w))) e w = Some w' /\
              w_children w' = [] /\
              w_endstatus w' =
                display_all (map (fun c => (c_status c, c_pid c)) (w_children w))
                            (w_endstatus w) /\
              blocking_waits (w_trace w') = blocking_waits (w_trace w) /\
              w_stderr w' = w_stderr w /\ w_images w' = w_images w /\ w_fds w' = w_fds w).
  { intros Hex. apply sigchld_loop_drains.
    rewrite Forall_forall in *. intros c Hc. split; [now apply Hpos|now apply Hex]. }
  split; [|exact Hdrain]. split.
  - intros (fuel & w' & Hret).
    destruct (decide (Forall (fun c => c_exited c = true) (w_children w))) as [Hall|Hnot];
      [assumption|exfalso].
    apply not_Forall_Exists in Hnot; [|intros c; apply _].
    apply Exists_exists in Hnot as (c & Hin & Hc). simpl in Hc.
    unfold sigchld_handler in Hret.
    rewrite (sigchld_loop_spins fuel (e_uninit e) w Hpos) in Hret; [discriminate|].
    exists c. split; [assumption|]. destruct (c_exited c); [contradiction|reflexivity].
  - intros Hall. destruct (Hdrain Hall) as (w' & Hret & _). eauto.
Qed.

(** Two background children that have both terminated. *)
Lemma sigchld_handler_returns_when_all_terminated_witness :
  let m := machine 420 in
  let w := execute_line m (plain_line [["true"]]%string true)
             (execute_line m (plain_line [["false"]]%string true) fresh_shell) in
  let w1 := set_children (terminate 100 (terminate 101 (w_children w))) w in
  exists w',
    sigchld_handler 3 m w1 = Some w' /\ w_children w' = [] /\
    string_of_list_ascii (c_string (w_endstatus w')) =
      (exit_line 100 1 ++ exit_line 101 0)%string.
Proof.
  cbv zeta.
  match goal with |- exists w', sigchld_handler _ ?m ?w1 = _ /\ _ =>
    destruct (sigchld_handler_returns_when_all_terminated m w1) as [_ H]
  end.
  - vm_compute. repeat constructor.
  - destruct H as (w' & H1 & H2 & H3 & _).
    + vm_compute. repeat constructor.
    + exists w'. split; [exact H1|]. split; [exact H2|].
      rewrite H3. vm_compute. reflexivity.
Defined.

(** ** The flush, left alone *)

Lemma c_string_calloc (n : nat) : c_string (calloc n) = [].
Proof. unfold c_string. rewrite strlen_calloc. apply take_0. Qed.

(** X4.  After any terminations recorded into the zeroed buffer, one flush writes
    to the standard error the text of the buffer, once and whole, or nothing
    at all when there is no text; it leaves the buffer without text, so that
    a second flush writes nothing. *)
Theorem flush_reports_once (events : list (Z * Z)) (w : world) :
  let w1 := set_endstatus (display_all events (calloc ENDSTATUS_BUF_LEN)) w in
  let text := take (ENDSTATUS_BUF_LEN - 1) (recorded_text events) in
  w_stderr (flush w1) =
    w_stderr w ++ (if decide (text = []) then [] else [string_of_list_ascii text]) /\
  c_string (w_endstatus (flush w1)) = [] /\
  flush (flush w1) = flush w1.
Proof.
  intros w1 text.
  assert (Hok : buffer_ok (w_endstatus w1)) by apply display_all_ok, buffer_ok_calloc.
  assert (Htext : c_string (w_endstatus w1) = text).
  { apply (display_all_text events _ [] buffer_ok_calloc). rewrite c_string_calloc.
    now rewrite take_nil. }
  assert (Hlen : strlen (w_endstatus w1) = length text).
  { now rewrite <- c_string_length, Htext. }
  assert (Hidle : forall x, c_string (w_endstatus x) = [] -> flush x = x).
  { intros x Hx. unfold flush. apply (f_equal length) in Hx.
    rewrite c_string_length in Hx. simpl in Hx. now rewrite Hx. }
  case_decide as Hempty.
  - rewrite Hempty in Htext. rewrite (Hidle w1 Htext), app_nil_r.
    split; [reflexivity|]. split; [assumption|now apply Hidle].
  - assert (Hpos : (0 < strlen (w_endstatus w1))%nat).
    { rewrite Hlen. destruct text; [contradiction|simpl; lia]. }
    destruct (flush_prints_and_clears w1 Hok Hpos) as [H1 H2].
    rewrite H1, H2, Htext, c_string_calloc.
    split; [reflexivity|]. split; [reflexivity|].
    apply Hidle. rewrite H2. apply c_string_calloc.
Qed.

(** ** execute_command: a failed fork *)

(** X5.  When [fork] fails the stage is abandoned: -1 is returned, no process
    exists, "fork failed" is reported once, nothing is waited for or
    recorded; and nothing is closed either: the descriptor handed to the
    stage and, for a stage that is not the last, both ends of the pipe just
    opened stay open in the shell. *)
Theorem fork_failure_abandons_stage e l c i pipeIn w :
  shell_table (w_fds w) -> threaded (w_fds w) pipeIn ->
  e_fork_fails e (w_nforks w) = true ->
  let res := execute_command e l c i pipeIn w in
  res.1 = -1 /\ spawned w res.2 = [] /\
  w_stderr res.2 = w_stderr w ++ ["fork failed"%string] /\
  w_children res.2 = w_children w /\ w_endstatus res.2 = w_endstatus w /\
  blocking_waits (w_trace res.2) = blocking_waits (w_trace w) /\
  (forall x f, w_fds w !! x = Some f -> w_fds res.2 !! x = Some f) /\
  (is_last l i = false ->
   exists r wr,
     r <> wr /\ w_fds w !! r = None /\ w_fds w !! wr = None /\
     w_fds res.2 !! r = Some (PipeRead (w_npipes w)) /\
     w_fds res.2 !! wr = Some (PipeWrite (w_npipes w))).
Proof.
  intros Hst Hth Hf. cbv zeta.
  destruct (execute_command_failed e l c i pipeIn w Hf)
    as (Hret & Him & Hend & Hch & _ & _ & _ & Hfds & Hb).
  assert (Herr : w_stderr (execute_command e l c i pipeIn w).2 =
                 w_stderr w ++ ["fork failed"%string]).
  { unfold execute_command. destruct (is_last l i); simpl.
    - rewrite Hf. reflexivity.
    - destruct (sys_pipe (w_npipes w) (w_fds w)) as [[r wr] fds]. simpl.
      rewrite Hf. reflexivity. }
  split; [assumption|]. split; [unfold spawned; rewrite Him; apply drop_all|].
  do 4 (split; [assumption|]). rewrite Hfds.
  destruct (is_last l i) eqn:Hl.
  - rewrite stage_pipe_last by assumption. split; [auto|discriminate].
  - destruct (stage_pipe_spec e l i w pipeIn Hst Hth Hl)
      as (_ & _ & Hne & _ & _ & Hfr & Hfw & Heq & _).
    rewrite Heq. split.
    + intros x f Hx. rewrite !lookup_insert_ne by congruence. assumption.
    + intros _. exists (stage_pipe e l i w).1.1, (stage_pipe e l i w).1.2.
      do 3 (split; [assumption|]). split.
      * rewrite lookup_insert_ne, lookup_insert_eq by congruence. reflexivity.
      * apply lookup_insert_eq.
Qed.

(** The first stage of [ls | wc] on a machine where no fork succeeds. *)
Lemma fork_failure_abandons_stage_witness :
  let m := {| e_fork_fails := fun _ => true; e_wait := fun _ => Collected;
              e_exits := fun _ => []; e_exec := e_exec (machine 420);
              e_output := e_output (machine 420); e_umask := 18; e_vararg := 420;
              e_uninit := 0; e_home := None; e_passwd := fun _ => None;
              e_isdir := fun _ => false |} in
  let res := execute_command m (plain_line [["ls"]; ["wc"]]%string false)
                             (command ["ls"%string]) 0 (-1) fresh_shell in
  res.1 = -1 /\ spawned fresh_shell res.2 = [] /\
  w_stderr res.2 = ["fork failed"%string] /\
  exists r wr, w_fds res.2 !! r = Some (PipeRead 0) /\ w_fds res.2 !! wr = Some (PipeWrite 0).
Proof.
  cbv zeta.
  match goal with |- (execute_command ?m ?l ?c ?i ?p ?w).1 = _ /\ _ =>
    destruct (fork_failure_abandons_stage m l c i p w (shell_table_boot _ _ _)
                (or_introl eq_refl) eq_refl)
      as (H1 & H2 & H3 & _ & _ & _ & _ & H8)
  end.
  split; [exact H1|]. split; [exact H2|]. split; [exact H3|].
  destruct H8 as (r & wr & _ & _ & _ & Hr & Hw); [vm_compute; reflexivity|].
  exists r, wr. split; assumption.
Defined.

(** ** execute_command: the streams of a spawned stage *)

(** X6.  The standard output of a spawned stage: the write end of the pipe it
    just opened when it is not the last; for the last stage the output path
    of the line, opened write-only, created, and appended to or truncated,
    when there is one and it opens; in every other case what the shell has. *)
Theorem stage_standard_output e l c i pipeIn w :
  shell_table (w_fds w) -> threaded (w_fds w) pipeIn ->
  e_fork_fails e (w_nforks w) = false ->
  exists im,
    spawned w (execute_command e l c i pipeIn w).2 = [im] /\
    im_fds im !! STDOUT_FILENO =
      if negb (is_last l i) then Some (PipeWrite (w_npipes w))
      else match file_output l with
           | Some path =>
               if open_fails (w_files w) (w_cwd w) path (output_flags l)
               then Some (Inherited 1)
               else Some (OpenFile (resolve (w_cwd w) path)
                            (Z.lor (Z.lor O_WRONLY O_CREAT)
                               (if file_output_append l then O_APPEND else O_TRUNC)))
           | None => Some (Inherited 1)
           end.
Proof.
  intros Hst Hth Hf.
  destruct (is_last l i) eqn:Hl; simpl.
  - destruct (execute_command_ok e l c i pipeIn w Hf) as (_ & Him & _).
    destruct (stage_child_spec e l c i pipeIn w Hst Hth) as (Hst1 & Hth1 & Hfds & _).
    exists (stage_child e l c i pipeIn w).1.1.
    split; [unfold spawned; rewrite Him; now rewrite drop_app_length|].
    rewrite Hfds.
    destruct (input_table_std l i pipeIn (w_files w) (w_cwd w) _ Hst1 Hth1) as (_ & H1 & _).
    unfold output_table. rewrite Hl. simpl. fold (output_flags l).
    destruct (file_output l) as [path|]; [|exact H1].
    destruct (open_fails _ _ _ _); simpl; [exact H1|apply lookup_insert_eq].
  - destruct (nonfinal_stage_descriptors e l c i pipeIn w Hst Hth Hf Hl)
      as (im & wr & Him & _ & _ & _ & _ & _ & Hout & _).
    exists im. split; assumption.
Qed.

(** [echo hi > out.txt] on the sample machine. *)
Lemma stage_standard_output_witness :
  let l := {| cmds := [command ["echo"; "hi"]%string]; file_input := None;
              file_output := Some "out.txt"%string; file_output_append := false;
              background := false |} in
  exists im,
    spawned fresh_shell (execute_command (machine 420) l (command ["echo"; "hi"]%string)
                           0 (-1) fresh_shell).2 = [im] /\
    im_fds im !! STDOUT_FILENO =
      Some (OpenFile "/home/u/out.txt" (Z.lor (Z.lor O_WRONLY O_CREAT) O_TRUNC)).
Proof.
  intros l.
  destruct (stage_standard_output (machine 420) l (command ["echo"; "hi"]%string) 0 (-1)
              fresh_shell (shell_table_boot _ _ _) (or_introl eq_refl) eq_refl)
    as (im & H1 & H2).
  exists im. split; [exact H1|]. rewrite H2. vm_compute. reflexivity.
Defined.

(** X7.  The standard input of a spawned stage: the descriptor it is given, when
    it is given one; otherwise, for the stage of index 0 of a line with an
    input path, and for any stage of a background line, the input path (the
    null device when the line has none) opened read-only, if it opens; in
    every other case what the shell has.  So in a foreground line a stage
    after the first never reads the input path. *)
Theorem stage_standard_input e l c i pipeIn w :
  shell_table (w_fds w) -> threaded (w_fds w) pipeIn ->
  e_fork_fails e (w_nforks w) = false ->
  exists im,
    spawned w (execute_command e l c i pipeIn w).2 = [im] /\
    im_fds im !! STDIN_FILENO =
      if 0 <? pipeIn then w_fds w !! pipeIn
      else if (((i =? 0)%nat && is_set (file_input l)) || background l) &&
              negb (open_fails (w_files w) (w_cwd w)
                      (default "/dev/null"%string (file_input l)) O_RDONLY)
           then Some (OpenFile (resolve (w_cwd w) (default "/dev/null"%string (file_input l)))
                               O_RDONLY)
           else Some (Inherited 0).
Proof.
  intros Hst Hth Hf.
  destruct (execute_command_ok e l c i pipeIn w Hf) as (_ & Him & _).
  destruct (stage_child_spec e l c i pipeIn w Hst Hth) as (Hst1 & Hth1 & Hfds & _).
  exists (stage_child e l c i pipeIn w).1.1.
  split; [unfold spawned; rewrite Him; now rewrite drop_app_length|].
  assert (Hwr : is_last l i = false -> 3 <= (stage_pipe e l i w).1.2).
  { intros Hl. apply (stage_pipe_spec e l i w pipeIn Hst Hth Hl). }
  rewrite Hfds, output_table_other;
    [|unfold STDOUT_FILENO, STDIN_FILENO; lia
     |intros Hl; specialize (Hwr Hl); unfold STDIN_FILENO; lia].
  unfold input_table.
  destruct (0 <? pipeIn) eqn:Hp.
  - apply Z.ltb_lt in Hp.
    destruct (threaded_above _ _ Hst Hth) as [-> | Hge]; [lia|].
    destruct Hth as [-> | [k Hk]]; [lia|].
    assert (Hk1 : (stage_pipe e l i w).2 !! pipeIn = Some (PipeRead k)).
    { destruct (is_last l i) eqn:Hl; [now rewrite stage_pipe_last|].
      destruct (stage_pipe_spec e l i w pipeIn Hst (or_intror (ex_intro _ k Hk)) Hl)
        as (_ & _ & _ & Hrp & Hwp & _ & _ & -> & _).
      now rewrite !lookup_insert_ne by congruence. }
    rewrite Hk1, Hk. unfold STDIN_FILENO.
    rewrite lookup_delete_ne by lia. apply lookup_insert_eq.
  - destruct (_ && _); [apply lookup_insert_eq|apply Hst1].
Qed.

(** [sort < data] after a builtin, in the foreground: [sort] has index 1 and
    reads what the shell reads, not the file. *)
Lemma stage_standard_input_witness :
  let l := {| cmds := [command ["cd"; "/tmp"]%string; command ["sort"%string]];
              file_input := Some "/dev/null"%string; file_output := None;
              file_output_append := false; background := false |} in
  exists im,
    spawned fresh_shell (execute_command (machine 420) l (command ["sort"%string])
                           1 (-1) fresh_shell).2 = [im] /\
    im_fds im !! STDIN_FILENO = Some (Inherited 0).
Proof.
  intros l.
  destruct (stage_standard_input (machine 420) l (command ["sort"%string]) 1 (-1)
              fresh_shell (shell_table_boot _ _ _) (or_introl eq_refl) eq_refl)
    as (im & H1 & H2).
  exists im. split; [exact H1|]. rewrite H2. vm_compute. reflexivity.
Defined.

(** X8.  Above its three standard streams a child holds, when it calls [execvp],
    only what the shell held before the stage, less the descriptor it was
    given, and the read end of its own pipe: the write end of that pipe and
    every descriptor opened for a redirection are closed. *)
Theorem child_descriptors_above_streams e l c i pipeIn w :
  shell_table (w_fds w) -> threaded (w_fds w) pipeIn ->
  e_fork_fails e (w_nforks w) = false ->
  exists im,
    spawned w (execute_command e l c i pipeIn w).2 = [im] /\
    forall x f, 3 <= x -> im_fds im !! x = Some f ->
      (x <> pipeIn /\ w_fds w !! x = Some f) \/
      (is_last l i = false /\ x = (execute_command e l c i pipeIn w).1 /\
       f = PipeRead (w_npipes w)).
Proof.
  intros Hst Hth Hf.
  destruct (execute_command_ok e l c i pipeIn w Hf) as (Hret & Him & _).
  destruct (stage_child_spec e l c i pipeIn w Hst Hth) as (Hst1 & Hth1 & Hfds & _).
  exists (stage_child e l c i pipeIn w).1.1.
  split; [unfold spawned; rewrite Him; now rewrite drop_app_length|].
  intros x f Hx Hlook. rewrite Hfds in Hlook.
  assert (Hin : forall y g, 3 <= y ->
            input_table l i pipeIn (w_files w) (w_cwd w) (stage_pipe e l i w).2 !! y = Some g ->
            y <> pipeIn /\ (stage_pipe e l i w).2 !! y = Some g).
  { intros y g Hy. unfold input_table, STDIN_FILENO.
    destruct (0 <? pipeIn) eqn:Hp.
    - destruct Hth1 as [-> | [k Hk]]; [discriminate|]. rewrite Hk.
      destruct (decide (y = pipeIn)) as [-> | Hne]; [now rewrite lookup_delete_eq|].
      rewrite lookup_delete_ne, lookup_insert_ne by lia. auto.
    - apply Z.ltb_ge in Hp.
      destruct (threaded_above _ _ Hst1 Hth1) as [-> | Hge]; [|lia].
      destruct (_ && _); [rewrite lookup_insert_ne by lia|]; split; (lia || assumption). }
  destruct (is_last l i) eqn:Hl.
  - left. rewrite stage_pipe_last in Hin, Hlook by assumption.
    apply Hin; [assumption|].
    unfold output_table in Hlook. rewrite Hl in Hlook. simpl in Hlook.
    destruct (file_output l) as [path|]; [|assumption].
    destruct (open_fails (w_files w) (w_cwd w) path (output_flags l));
      simpl in Hlook; [assumption|].
    unfold STDOUT_FILENO in Hlook. now rewrite lookup_insert_ne in Hlook by lia.
  - destruct (stage_pipe_spec e l i w pipeIn Hst Hth Hl)
      as (Hr & Hw & Hne & Hrp & Hwp & Hfr & Hfw & Heq & _).
    simpl in Hret.
    assert (Hxw : x <> (stage_pipe e l i w).1.2).
    { intros ->. unfold output_table in Hlook. rewrite Hl in Hlook. simpl in Hlook.
      rewrite input_table_other in Hlook by (unfold STDIN_FILENO; first [lia|assumption]).
      rewrite Heq, lookup_insert_eq in Hlook.
      destruct (file_output l); now rewrite lookup_delete_eq in Hlook. }
    rewrite output_table_other in Hlook;
      [|unfold STDOUT_FILENO; lia|intros _; assumption].
    destruct (Hin x f Hx Hlook) as [Hxp Hx1].
    rewrite Heq in Hx1. rewrite lookup_insert_ne in Hx1 by congruence.
    destruct (decide (x = (stage_pipe e l i w).1.1)) as [-> | Hxr].
    + right. rewrite lookup_insert_eq in Hx1. injection Hx1 as <-.
      split; [reflexivity|]. split; [now rewrite Hret|reflexivity].
    + left. rewrite lookup_insert_ne in Hx1 by congruence. auto.
Qed.

(** The last stage of [ls | wc]: the descriptor it was given is closed. *)
Lemma child_descriptors_above_streams_witness :
  let l := plain_line [["ls"]; ["wc"]]%string false in
  let w := (execute_command (machine 420) l (command ["ls"%string]) 0 (-1) fresh_shell).2 in
  exists im,
    spawned w (execute_command (machine 420) l (command ["wc"%string]) 1 3 w).2 = [im] /\
    im_fds im !! 3 = None.
Proof.
  intros l w.
  destruct (child_descriptors_above_streams (machine 420) l (command ["wc"%string]) 1 3 w)
    as (im & H1 & H2).
  - apply (execute_command_table (machine 420) l (command ["ls"%string]) 0 (-1) fresh_shell
             (shell_table_boot _ _ _) (or_introl eq_refl)).
  - right. exists 0%nat. vm_compute. reflexivity.
  - vm_compute. reflexivity.
  - exists im. split; [exact H1|].
    destruct (im_fds im !! 3) as [f|] eqn:E; [|reflexivity]. exfalso.
    destruct (H2 3 f ltac:(lia) E) as [[Hne _] | (Hl & _)];
      [congruence|vm_compute in Hl; discriminate].
Defined.

(** ** execute_line: descriptors *)

Lemma execute_from_table e l cs i p w :
  shell_table (w_fds w) -> threaded (w_fds w) p ->
  shell_table (w_fds (execute_from e l cs i p w).2) /\
  threaded (w_fds (execute_from e l cs i p w).2) (execute_from e l cs i p w).1.
Proof.
  revert i p w. induction cs as [|c rest IH]; intros i p w Hst Hth; [simpl; auto|].
  simpl. destruct (is_cd c).
  - destruct (cd_frame e (arg c 1) w) as (Hfds & _).
    apply IH; now rewrite Hfds.
  - destruct (execute_command_table e l c i p w Hst Hth) as [H1 H2].
    destruct (execute_command e l c i p w) as [p' w']. now apply IH.
Qed.

(** X9.  Whatever the line, and whichever forks fail, the shell comes out of
    [execute_line] with its three standard streams as they were, and with
    nothing but ends of pipes above them. *)
Theorem execute_line_keeps_standard_streams e l w :
  shell_table (w_fds w) -> shell_table (w_fds (execute_line e l w)).
Proof.
  intros Hst. unfold execute_line.
  apply (execute_from_table e l (cmds l) 0 (-1) w Hst). now left.
Qed.

(** A line with a failing first fork, executed by the fresh shell. *)
Lemma execute_line_keeps_standard_streams_witness :
  let m := {| e_fork_fails := fun n => (n =? 0)%nat;
              e_wait := fun _ => Collected; e_exits := fun _ => [];
              e_exec := e_exec (machine 420);
              e_output := e_output (machine 420); e_umask := 18; e_vararg := 420;
              e_uninit := 0; e_home := None; e_passwd := fun _ => None;
              e_isdir := fun _ => false |} in
  shell_table (w_fds (execute_line m (plain_line [["ls"]; ["cd"; "x"]; ["wc"]]%string true)
                        fresh_shell)).
Proof.
  intros m. apply execute_line_keeps_standard_streams. apply shell_table_boot.
Defined.

Lemma is_last_index l i :
  Z.of_nat (n_cmds l) < 2 ^ 64 -> (i < n_cmds l)%nat ->
  is_last l i = bool_decide (S i = n_cmds l).
Proof.
  intros Hn Hi. unfold is_last, size_sub.
  rewrite Z.mod_small by lia.
  case_bool_decide as E.
  - apply Z.eqb_eq. lia.
  - apply Z.eqb_neq. lia.
Qed.

Lemma threads_over_table fds0 p fds :
  shell_table fds0 -> threads_over fds0 p fds -> shell_table fds /\ threaded fds p.
Proof.
  intros Hst0 [[-> ->] | (k & Hp & _ & ->)]; [split; [assumption|now left]|].
  split; [apply shell_table_insert; [assumption..|]; exists k; now left|].
  right. exists k. apply lookup_insert_eq.
Qed.

(** A spawned stage that is not the last leaves in the shell, over the table
    from before the line, the read end of its own pipe and nothing else. *)
Lemma nonlast_stage_threads e l c i p w fds0 :
  e_fork_fails e (w_nforks w) = false -> is_last l i = false ->
  shell_table fds0 -> threads_over fds0 p (w_fds w) ->
  exists k, 3 <= (execute_command e l c i p w).1 /\
            fds0 !! (execute_command e l c i p w).1 = None /\
            w_fds (execute_command e l c i p w).2 =
              <[(execute_command e l c i p w).1 := PipeRead k]> fds0.
Proof.
  intros Hf Hl Hst0 Hinv.
  destruct (threads_over_table _ _ _ Hst0 Hinv) as [Hst Hth].
  destruct (execute_command_ok e l c i p w Hf) as (Hret & _ & _ & _ & _ & _ & Hfds & _).
  rewrite Hl in Hret, Hfds. simpl in Hret, Hfds.
  destruct (stage_pipe_spec e l i w p Hst Hth Hl)
    as (Hr & Hw & Hne & Hrp & Hwp & Hfr & Hfw & Heq & _).
  exists (w_npipes w). rewrite Hret. split; [assumption|].
  assert (Hfr0 : fds0 !! (stage_pipe e l i w).1.1 = None).
  { destruct Hinv as [[_ <-] | (k & _ & _ & E)]; [assumption|].
    rewrite E in Hfr. now rewrite lookup_insert_ne in Hfr by congruence. }
  split; [assumption|].
  rewrite Hfds, Heq. unfold sys_close.
  apply map_eq. intros x.
  destruct Hinv as [[-> E0] | (k & Hp & Hfree & E0)]; rewrite E0 in *.
  - simpl. rewrite delete_insert_eq.
    destruct (decide (x = (stage_pipe e l i w).1.2)) as [-> | Hx].
    + rewrite lookup_delete_eq, lookup_insert_ne by congruence. now rewrite Hfw.
    + rewrite lookup_delete_ne by congruence.
      destruct (decide (x = (stage_pipe e l i w).1.1)) as [-> | Hx'].
      * now rewrite !lookup_insert_eq.
      * now rewrite !lookup_insert_ne by congruence.
  - assert (E : (0 <? p) = true) by (apply Z.ltb_lt; lia). rewrite E.
    rewrite delete_insert_eq.
    destruct (decide (x = p)) as [-> | Hxp].
    + rewrite lookup_delete_eq, lookup_insert_ne by congruence. now rewrite Hfree.
    + rewrite lookup_delete_ne by congruence.
      destruct (decide (x = (stage_pipe e l i w).1.2)) as [-> | Hx].
      * rewrite lookup_delete_eq, lookup_insert_ne by congruence.
        rewrite lookup_insert_ne in Hfw by congruence. now rewrite Hfw.
      * rewrite lookup_delete_ne by congruence.
        destruct (decide (x = (stage_pipe e l i w).1.1)) as [-> | Hx'].
        -- now rewrite !lookup_insert_eq.
        -- now rewrite !lookup_insert_ne by congruence.
Qed.

(** A spawned last stage gives the shell its table from before the line
    back. *)
Lemma last_stage_restores e l c i p w fds0 :
  e_fork_fails e (w_nforks w) = false -> is_last l i = true ->
  threads_over fds0 p (w_fds w) ->
  w_fds (execute_command e l c i p w).2 = fds0.
Proof.
  intros Hf Hl Hinv.
  destruct (execute_command_ok e l c i p w Hf) as (_ & _ & _ & _ & _ & _ & Hfds & _).
  rewrite Hl in Hfds. simpl in Hfds. rewrite Hfds, stage_pipe_last by assumption.
  destruct Hinv as [[-> ->] | (k & Hp & Hfree & ->)]; [reflexivity|].
  assert (E : (0 <? p) = true) by (apply Z.ltb_lt; lia). rewrite E.
  unfold sys_close. rewrite delete_insert_eq. now apply delete_id.
Qed.

Lemma execute_from_restores e l fds0 cs i p w :
  (forall n, e_fork_fails e n = false) ->
  Z.of_nat (n_cmds l) < 2 ^ 64 -> (i + length cs = n_cmds l)%nat ->
  (exists c, last cs = Some c /\ is_cd c = false) ->
  shell_table fds0 -> threads_over fds0 p (w_fds w) ->
  w_fds (execute_from e l cs i p w).2 = fds0.
Proof.
  intros Hfork Hn. revert i p w.
  induction cs as [|c rest IH]; intros i p w Hlen (cl & Hlast & Hcl) Hst0 Hinv;
    [discriminate|].
  simpl in Hlen. simpl. destruct (is_cd c) eqn:Hcd.
  - destruct rest as [|c2 rest]; [simpl in Hlast; congruence|].
    destruct (cd_frame e (arg c 1) w) as (Hfds & _).
    apply IH; [simpl in *; lia|exists cl; split; [first [now rewrite last_cons_cons in Hlast | exact Hlast]|exact Hcl]|assumption|].
    now rewrite Hfds.
  - destruct rest as [|c2 rest].
    + pose proof (last_stage_restores e l c i p w fds0 (Hfork _)) as Hres.
      destruct (execute_command e l c i p w) as [p' w']. simpl in *.
      apply Hres; [|assumption].
      rewrite is_last_index by lia. apply bool_decide_eq_true_2. lia.
    + assert (Hl : is_last l i = false).
      { rewrite is_last_index by (simpl in *; lia).
        apply bool_decide_eq_false_2. simpl in *. lia. }
      destruct (nonlast_stage_threads e l c i p w fds0 (Hfork _) Hl Hst0 Hinv)
        as (k & H1 & H2 & H3).
      destruct (execute_command e l c i p w) as [p' w']. simpl in *.
      apply IH; [lia|exists cl; split; [first [now rewrite last_cons_cons in Hlast | exact Hlast]|exact Hcl]|assumption|].
      right. eauto.
Qed.

(** X10.  When no fork fails and the last command of the line is not the builtin,
    the shell has after [execute_line] exactly the descriptors it had before:
    every pipe end it opened has been closed again, builtins in the middle of
    the line included. *)
Theorem execute_line_closes_its_pipes e l w :
  (forall n, e_fork_fails e n = false) ->
  Z.of_nat (n_cmds l) < 2 ^ 64 ->
  (exists c, last (cmds l) = Some c /\ is_cd c = false) ->
  shell_table (w_fds w) ->
  w_fds (execute_line e l w) = w_fds w.
Proof.
  intros Hfork Hn Hlast Hst. unfold execute_line.
  apply (execute_from_restores e l (w_fds w) (cmds l) 0 (-1) w); auto.
  now left.
Qed.

(** [ls | cd /tmp | wc] on the sample machine. *)
Lemma execute_line_closes_its_pipes_witness :
  let l := plain_line [["ls"]; ["cd"; "/tmp"]; ["wc"]]%string false in
  w_fds (execute_line (machine 420) l fresh_shell) = w_fds fresh_shell.
Proof.
  intros l. apply execute_line_closes_its_pipes.
  - reflexivity.
  - vm_compute. reflexivity.
  - exists (command ["wc"%string]). split; reflexivity.
  - apply shell_table_boot.
Defined.

(** ** execute_line: processes *)

Lemma execute_from_spawns e l cs i p w :
  (forall n, e_fork_fails e n = false) ->
  map im_args (spawned w (execute_from e l cs i p w).2) = map args (external cs).
Proof.
  intros Hfork. unfold external. revert i p w.
  induction cs as [|c rest IH]; intros i p w.
  - simpl. unfold spawned. now rewrite drop_all.
  - simpl. rewrite filter_cons. destruct (is_cd c) eqn:Hcd.
    + rewrite decide_False by discriminate.
      destruct (cd_frame e (arg c 1) w) as (_ & Him & _).
      rewrite <- (IH (S i) p (cd e (arg c 1) w)). unfold spawned. now rewrite Him.
    + rewrite decide_True by reflexivity.
      pose proof (execute_command_ok e l c i p w (Hfork _)) as Hok. cbv zeta in Hok.
      destruct Hok as (_ & Him & _).
      destruct (child_branch_ids e l c i p (stage_pipe e l i w).1 (w_next_pid w)
                  (w_cwd w) (stage_pipe e l i w).2 (w_files w)) as (_ & _ & Hargs & _).
      fold (stage_child e l c i p w) in Hargs.
      destruct (execute_command e l c i p w) as [p' w'] eqn:Hex. simpl in Him.
      specialize (IH (S i) p' w').
      destruct (execute_from_spec e l rest (S i) p' w') as (ims & Hims & _).
      unfold spawned in *. rewrite Hims in *. rewrite drop_app_length in IH.
      rewrite Him, <- app_assoc, drop_app_length. simpl.
      now rewrite Hargs, IH.
Qed.

(** X11.  When no fork fails, [execute_line] spawns exactly one process for each
    command that is not the builtin, in the order of the line and with the
    arguments of its command; the builtin itself never becomes a process. *)
Theorem execute_line_spawns_external_commands e l w :
  (forall n, e_fork_fails e n = false) ->
  map im_args (spawned w (execute_line e l w)) = map args (external (cmds l)).
Proof. intros Hfork. apply execute_from_spawns, Hfork. Qed.

(** [ls | cd /tmp | wc -l]: two processes. *)
Lemma execute_line_spawns_external_commands_witness :
  map im_args (spawned fresh_shell
                 (execute_line (machine 420)
                    (plain_line [["ls"]; ["cd"; "/tmp"]; ["wc"; "-l"]]%string false)
                    fresh_shell)) =
  [["ls"]; ["wc"; "-l"]]%string.
Proof.
  rewrite (execute_line_spawns_external_commands (machine 420)) by reflexivity.
  reflexivity.
Defined.

(** ** cd *)

(** X13.  [cd] touches nothing but the working directory and the standard error:
    descriptors, files, processes and the status buffer are as before.  And
    it ends in one of two ways: the directory is unchanged and exactly one
    message was written, or the directory is an existing one and nothing was
    written. *)
Theorem cd_changes_directory_or_reports e path w :
  let w' := cd e path w in
  (w_fds w' = w_fds w /\ w_files w' = w_files w /\ w_images w' = w_images w /\
   w_children w' = w_children w /\ w_endstatus w' = w_endstatus w) /\
  ((w_cwd w' = w_cwd w /\ exists msg, w_stderr w' = w_stderr w ++ [msg]) \/
   (e_isdir e (w_cwd w') = true /\ w_stderr w' = w_stderr w)).
Proof.
  cbv zeta.
  assert (Hch : forall target,
            (w_cwd (sys_chdir e target w) = w_cwd w /\
             exists msg, w_stderr (sys_chdir e target w) = w_stderr w ++ [msg]) \/
            (e_isdir e (w_cwd (sys_chdir e target w)) = true /\
             w_stderr (sys_chdir e target w) = w_stderr w)).
  { intros target. unfold sys_chdir.
    destruct (e_isdir e (resolve (w_cwd w) target)) eqn:E; simpl; [right|left; eauto].
    split; [assumption|reflexivity]. }
  split.
  - destruct (cd_frame e path w) as (H1 & H2 & H3 & _ & H5 & H6 & _). auto.
  - unfold cd.
    destruct (String.eqb path "~" && negb (is_set (e_home e))); [left; simpl; eauto|].
    destruct (names_user path); [|apply Hch].
    destruct (e_passwd e _); [apply Hch|left; simpl; eauto].
Qed.

Lemma substring_all (s : string) (n : nat) :
  (String.length s <= n)%nat -> String.substring 0 n s = s.
Proof.
  revert n. induction s as [|c s IH]; intros n Hn; [destruct n; reflexivity|].
  destruct n; simpl in *; [lia|]. f_equal. apply IH. lia.
Qed.

Lemma until_slash_stops (user rest : string) :
  no_slash user -> until_slash (user ++ String "/" rest) = user.
Proof.
  unfold no_slash. induction user as [|c u IH]; simpl; intros H; [reflexivity|].
  inversion H; subst.
  destruct (Ascii.eqb_spec c "/"); [contradiction|]. f_equal. now apply IH.
Qed.

(** X14.  The three forms with a tilde.  "~" alone goes to $HOME.  "~/rest" is not
    expanded: it is handed to [chdir] as it is.  "~user/rest" goes to the
    home directory of [user], and [rest] is ignored. *)
Theorem cd_tilde_forms e w :
  (forall home, e_home e = Some home -> cd e "~" w = sys_chdir e home w) /\
  (forall rest, cd e (String "~" (String "/" rest)) w =
                sys_chdir e (String "~" (String "/" rest)) w) /\
  (forall user rest dir,
     user <> EmptyString -> no_slash user -> e_passwd e user = Some dir ->
     cd e (String "~" (user ++ String "/" rest)) w = sys_chdir e dir w).
Proof.
  split; [|split].
  - intros home Hh. unfold cd. simpl. now rewrite Hh.
  - intros rest. unfold cd. simpl. reflexivity.
  - intros user rest dir Hne Hns Hpw. unfold cd.
    destruct user as [|c u]; [contradiction|].
    assert (Hc : c <> "/"%char) by (inversion Hns; assumption).
    assert (E1 : String.eqb (String "~" (String c u ++ String "/" rest)) "~" = false).
    { reflexivity. }
    rewrite E1. simpl andb. cbv iota.
    assert (E2 : names_user (String "~" (String c u ++ String "/" rest)) = true).
    { simpl. destruct (Ascii.eqb_spec c "/"); [contradiction|reflexivity]. }
    rewrite E2.
    assert (E3 : String.substring 1 (String.length (String "~" (String c u ++ String "/" rest)))
                   (String "~" (String c u ++ String "/" rest)) =
                 (String c u ++ String "/" rest)%string).
    { change (String.substring 1 ?n (String "~" ?s)) with (String.substring 0 n s).
      apply substring_all. simpl. lia. }
    rewrite E3, until_slash_stops by assumption. now rewrite Hpw.
Qed.

(** [cd ~bob/src] where bob lives in /tmp. *)
Lemma cd_tilde_forms_witness :
  let m := {| e_fork_fails := fun _ => false; e_wait := fun _ => Collected;
              e_exits := fun _ => []; e_exec := e_exec (machine 420);
              e_output := e_output (machine 420); e_umask := 18; e_vararg := 420;
              e_uninit := 0; e_home := Some "/home/u"%string;
              e_passwd := fun u => if String.eqb u "bob" then Some "/tmp"%string else None;
              e_isdir := fun p => String.eqb p "/tmp" || String.eqb p "/home/u" |} in
  w_cwd (cd m "~bob/src" fresh_shell) = "/tmp"%string /\
  w_cwd (cd m "~" (cd m "~bob/src" fresh_shell)) = "/home/u"%string.
Proof.
  intros m.
  destruct (cd_tilde_forms m fresh_shell) as (_ & _ & H3).
  destruct (cd_tilde_forms m (cd m "~bob/src" fresh_shell)) as (H1 & _ & _).
  split.
  - change "~bob/src"%string with (String "~" ("bob" ++ String "/" "src"))%string.
    rewrite (H3 "bob"%string "src"%string "/tmp"%string);
      [reflexivity|discriminate|repeat constructor; discriminate|reflexivity].
  - rewrite (H1 "/home/u"%string eq_refl). reflexivity.
Defined.

(** ** The copy of a user name *)

Lemma store_next (pre rest : list ascii) (c0 c : ascii) :
  store (pre ++ c0 :: rest) (length pre) c = (pre ++ [c]) ++ rest.
Proof.
  unfold store. rewrite take_app_length.
  replace (S (length pre)) with (length pre + 1)%nat by lia.
  rewrite drop_app_add. simpl. rewrite drop_0, <- app_assoc. reflexivity.
Qed.

Lemma copy_user_spec (path : string) (pre : list ascii) (m : nat) :
  no_nul path -> (String.length path <= m)%nat ->
  exists k,
    copy_user path (pre ++ replicate (S m) NUL) (length pre) =
      (pre ++ list_ascii_of_string (until_slash path)) ++ replicate (S k) NUL /\
    (String.length (until_slash path) + S k = S m)%nat.
Proof.
  revert pre m. induction path as [|c r IH]; intros pre m Hn Hm.
  - exists m. cbn [copy_user until_slash list_ascii_of_string String.length].
    rewrite app_nil_r. split; [reflexivity|lia].
  - unfold no_nul in Hn. cbn [list_ascii_of_string] in Hn.
    inversion Hn as [|? ? Hc Hr]; subst.
    cbn [copy_user until_slash]. cbn [String.length] in Hm.
    destruct (Ascii.eqb_spec c "/") as [-> | Hs]; cbn [orb].
    + exists m. cbn [list_ascii_of_string String.length]. rewrite app_nil_r.
      split; [reflexivity|lia].
    + destruct (Ascii.eqb_spec c NUL) as [-> | _]; [contradiction|].
      destruct m as [|m]; [lia|].
      rewrite (replicate_S (S m)), store_next.
      destruct (IH (pre ++ [c]) m Hr) as (k & Hk & Hlen); [lia|].
      rewrite length_app in Hk. cbn [length] in Hk.
      replace (length pre + 1)%nat with (S (length pre)) in Hk by lia.
      exists k. rewrite Hk. cbn [list_ascii_of_string String.length].
      rewrite <- !app_assoc. split; [reflexivity|lia].
Qed.

(** X15.  For what follows the '~' in an argument that came through the 512-byte
    line buffer of [main], the loop of [cd] stays inside the array it fills
    and leaves in it, as a C string, the bytes up to the first '/'. *)
Theorem user_name_copy_in_bounds (path : string) :
  no_nul path -> (String.length path < BUFLEN)%nat ->
  let user := copy_user path (calloc BUFLEN) 0 in
  length user = BUFLEN /\
  c_string user = list_ascii_of_string (until_slash path).
Proof.
  intros Hn Hlen user.
  destruct (copy_user_spec path [] (BUFLEN - 1) Hn) as (k & Hk & Hsum); [lia|].
  unfold user.
  change (copy_user path (calloc BUFLEN) 0)
    with (copy_user path ([] ++ replicate (S (BUFLEN - 1)) NUL) (length (@nil ascii))).
  rewrite Hk, app_nil_l.
  assert (Hnn : Forall (fun c => c <> NUL) (list_ascii_of_string (until_slash path))).
  { clear -Hn. unfold no_nul in Hn. induction path as [|c r IH]; simpl; [constructor|].
    simpl in Hn. inversion Hn; subst.
    destruct (Ascii.eqb c "/"); simpl; [constructor|]. constructor; auto. }
  split.
  - rewrite length_app, length_replicate.
    assert (Hl : length (list_ascii_of_string (until_slash path)) =
                 String.length (until_slash path)).
    { generalize (until_slash path). intros s. induction s; simpl; congruence. }
    rewrite Hl. unfold BUFLEN in *. lia.
  - rewrite replicate_S. now apply take_strlen_app_nul.
Qed.

(** The name in "bob/src". *)
Lemma user_name_copy_in_bounds_witness :
  string_of_list_ascii (c_string (copy_user "bob/src" (calloc BUFLEN) 0)) = "bob"%string.
Proof.
  destruct (user_name_copy_in_bounds "bob/src") as [_ H].
  - repeat constructor; discriminate.
  - unfold BUFLEN. simpl. lia.
  - rewrite H. reflexivity.
Defined.

(** ** execute_line: the chain of pipes *)

Lemma chained_cons_link (a : image) (ims : list image) :
  chained ims -> match ims with b :: _ => feeds a b | [] => True end ->
  chained (a :: ims).
Proof. destruct ims as [|b r]; simpl; auto. Qed.

Lemma execute_from_chain e l cs i p w prev :
  (forall n, e_fork_fails e n = false) ->
  Z.of_nat (n_cmds l) < 2 ^ 64 -> (i + length cs = n_cmds l)%nat ->
  shell_table (w_fds w) -> linked prev p (w_fds w) ->
  chained (option_list prev ++ spawned w (execute_from e l cs i p w).2).
Proof.
  intros Hfork Hn. revert i p w prev.
  induction cs as [|c rest IH]; intros i p w prev Hlen Hst Hlink.
  - simpl. unfold spawned. rewrite drop_all, app_nil_r. destruct prev; exact I.
  - simpl. simpl in Hlen. destruct (is_cd c) eqn:Hcd.
    + destruct (cd_frame e (arg c 1) w) as (Hfds & Him & _).
      specialize (IH (S i) p (cd e (arg c 1) w) prev).
      unfold spawned in *. rewrite Him in IH. apply IH; [lia|now rewrite Hfds..].
    + pose proof (execute_command_ok e l c i p w (Hfork _)) as Hok. cbv zeta in Hok.
      destruct Hok as (_ & Him & _).
      assert (Hth : threaded (w_fds w) p).
      { destruct prev as [a|]; [|now left]. destruct Hlink as (k & _ & Hk). right. eauto. }
      destruct (execute_command_table e l c i p w Hst Hth) as [Hst' _].
      assert (Hin : match prev with
                    | Some a => feeds a (stage_child e l c i p w).1.1
                    | None => True
                    end).
      { destruct prev as [a|]; [|exact I]. destruct Hlink as (k & Ha & Hk).
        destruct (stage_reads_pipe e l c i p w k Hst Hk (Hfork _)) as (im & Hsp & _ & Hi & _).
        unfold spawned in Hsp. rewrite Him, drop_app_length in Hsp.
        injection Hsp as <-. exists k. auto. }
      assert (Hnext : linked (if is_last l i then None else Some (stage_child e l c i p w).1.1)
                             (execute_command e l c i p w).1
                             (w_fds (execute_command e l c i p w).2)).
      { destruct (is_last l i) eqn:Hl.
        - pose proof (execute_command_ok e l c i p w (Hfork _)) as Hok. cbv zeta in Hok.
          destruct Hok as (Hret & _). rewrite Hl in Hret. exact Hret.
        - destruct (nonfinal_stage_descriptors e l c i p w Hst Hth (Hfork _) Hl)
            as (im & wr & Hsp & _ & Hr & _ & _ & _ & Hout & _).
          unfold spawned in Hsp. rewrite Him, drop_app_length in Hsp.
          injection Hsp as <-. exists (w_npipes w). auto. }
      destruct (execute_command e l c i p w) as [p' w'] eqn:Hex. simpl in *.
      destruct (execute_from_spec e l rest (S i) p' w') as (ims & Hims & _).
      assert (Hsp : spawned w (execute_from e l rest (S i) p' w').2 =
                    (stage_child e l c i p w).1.1 :: spawned w' (execute_from e l rest (S i) p' w').2).
      { unfold spawned. rewrite Hims, Him, drop_app_length, <- app_assoc, drop_app_length.
        reflexivity. }
      rewrite Hsp.
      destruct (is_last l i) eqn:Hl.
      * assert (rest = []) as ->.
        { rewrite is_last_index in Hl by lia. apply bool_decide_eq_true_1 in Hl.
          destruct rest; [reflexivity|simpl in Hlen; lia]. }
        simpl. unfold spawned. rewrite drop_all.
        destruct prev as [a|]; simpl; auto.
      * specialize (IH (S i) p' w' (Some (stage_child e l c i p w).1.1)
                       ltac:(lia) Hst' Hnext).
        simpl in IH. destruct prev as [a|]; simpl; [|exact IH]. split; assumption.
Qed.

(** X16.  When no fork fails, the processes of a line form one chain: the standard
    output of each is the write end of the pipe whose read end is the
    standard input of the next, whether or not builtins stand between their
    commands. *)
Theorem execute_line_chains_stages e l w :
  (forall n, e_fork_fails e n = false) ->
  Z.of_nat (n_cmds l) < 2 ^ 64 ->
  shell_table (w_fds w) ->
  chained (spawned w (execute_line e l w)).
Proof.
  intros Hfork Hn Hst.
  apply (execute_from_chain e l (cmds l) 0 (-1) w None Hfork Hn); [reflexivity|assumption|].
  reflexivity.
Qed.

(** [ls | cd /tmp | sort | wc] on the sample machine. *)
Lemma execute_line_chains_stages_witness :
  chained (spawned fresh_shell
             (execute_line (machine 420)
                (plain_line [["ls"]; ["cd"; "/tmp"]; ["sort"]; ["wc"]]%string false)
                fresh_shell)).
Proof.
  apply execute_line_chains_stages.
  - reflexivity.
  - vm_compute. reflexivity.
  - apply shell_table_boot.
Defined.

(** ** execute_line: a builtin at the end of a pipeline *)

Lemma execute_from_app e l cs1 cs2 i p w :
  execute_from e l (cs1 ++ cs2) i p w =
  execute_from e l cs2 (i + length cs1)
               (execute_from e l cs1 i p w).1 (execute_from e l cs1 i p w).2.
Proof.
  revert i p w. induction cs1 as [|c rest IH]; intros i p w; simpl.
  - now rewrite Nat.add_0_r.
  - replace (i + S (length rest))%nat with (S i + length rest)%nat by lia.
    destruct (is_cd c); [apply IH|].
    destruct (execute_command e l c i p w) as [p' w']. apply IH.
Qed.

Lemma execute_from_threads e l fds0 cs i p w :
  (forall n, e_fork_fails e n = false) ->
  Z.of_nat (n_cmds l) < 2 ^ 64 -> (i + length cs < n_cmds l)%nat ->
  shell_table fds0 -> threads_over fds0 p (w_fds w) ->
  threads_over fds0 (execute_from e l cs i p w).1 (w_fds (execute_from e l cs i p w).2) /\
  ((exists c, last cs = Some c /\ is_cd c = false) -> (execute_from e l cs i p w).1 <> -1).
Proof.
  intros Hfork Hn. revert i p w.
  induction cs as [|c rest IH]; intros i p w Hlen Hst0 Hinv.
  - simpl. split; [assumption|]. intros (c & Hc & _). discriminate.
  - simpl in Hlen. simpl. destruct (is_cd c) eqn:Hcd.
    + destruct (cd_frame e (arg c 1) w) as (Hfds & _).
      destruct (IH (S i) p (cd e (arg c 1) w)) as [H1 H2];
        [lia|assumption|now rewrite Hfds|].
      split; [assumption|]. intros (cl & Hlast & Hcl). apply H2.
      destruct rest as [|c2 rest]; [simpl in Hlast; congruence|].
      exists cl. split; [first [now rewrite last_cons_cons in Hlast | exact Hlast]|exact Hcl].
    + assert (Hl : is_last l i = false).
      { rewrite is_last_index by lia. apply bool_decide_eq_false_2. lia. }
      destruct (nonlast_stage_threads e l c i p w fds0 (Hfork _) Hl Hst0 Hinv)
        as (k & H1 & H2 & H3).
      destruct (execute_command e l c i p w) as [p' w']. simpl in *.
      destruct (IH (S i) p' w') as [H4 H5]; [lia|assumption|right; eauto|].
      split; [assumption|]. intros (cl & Hlast & Hcl).
      destruct rest as [|c2 rest]; [simpl; lia|].
      apply H5. exists cl. split; [first [now rewrite last_cons_cons in Hlast | exact Hlast]|exact Hcl].
Qed.

(** X17.  When the last command of a line is the builtin and the command before it
    is not, the read end of the pipe opened for that command is never closed
    by the shell: after [execute_line] the shell's table is its table from
    before with that one descriptor more (no fork failing). *)
Theorem trailing_builtin_leaves_read_end e l w cs a c :
  (forall n, e_fork_fails e n = false) ->
  Z.of_nat (n_cmds l) < 2 ^ 64 ->
  shell_table (w_fds w) ->
  cmds l = cs ++ [a; c] -> is_cd a = false -> is_cd c = true ->
  exists fd k,
    w_fds w !! fd = None /\
    w_fds (execute_line e l w) = <[fd := PipeRead k]> (w_fds w).
Proof.
  intros Hfork Hn Hst Hcmds Ha Hc. unfold execute_line.
  assert (Hlen : n_cmds l = S (length (cs ++ [a]))).
  { unfold n_cmds. rewrite Hcmds, !length_app. simpl. lia. }
  replace (cmds l) with ((cs ++ [a]) ++ [c]) by (rewrite Hcmds, <- app_assoc; reflexivity).
  rewrite execute_from_app.
  destruct (execute_from_threads e l (w_fds w) (cs ++ [a]) 0 (-1) w Hfork Hn)
    as [Hinv Hne]; [lia|assumption|now left|].
  specialize (Hne (ex_intro _ a (conj (last_snoc a cs) Ha))).
  destruct (execute_from e l (cs ++ [a]) 0 (-1) w) as [p' w']. simpl in *.
  rewrite Hc. simpl.
  destruct (cd_frame e (arg c 1) w') as (Hfds & _). rewrite Hfds.
  destruct Hinv as [[Hp _] | (k & _ & Hfree & Heq)]; [contradiction|].
  exists p', k. auto.
Qed.

(** [ls | cd /tmp]: the read end stays on descriptor 3. *)
Lemma trailing_builtin_leaves_read_end_witness :
  w_fds (execute_line (machine 420) (plain_line [["ls"]; ["cd"; "/tmp"]]%string false)
           fresh_shell) !! 3 = Some (PipeRead 0).
Proof.
  destruct (trailing_builtin_leaves_read_end (machine 420)
              (plain_line [["ls"]; ["cd"; "/tmp"]]%string false) fresh_shell []
              (command ["ls"%string]) (command ["cd"; "/tmp"]%string))
    as (fd & k & _ & _).
  - reflexivity.
  - vm_compute. reflexivity.
  - apply shell_table_boot.
  - reflexivity.
  - reflexivity.
  - reflexivity.
  - vm_compute. reflexivity.
Defined.

(** ** Output redirection, run after run *)

Lemma string_app_empty (s : string) : (s ++ "")%string = s.
Proof.
  induction s as [|a s IH]; [reflexivity|].
  change (String a s ++ "")%string with (String a (s ++ "")%string). now rewrite IH.
Qed.

Lemma output_flags_bits l :
  has_flag (output_flags l) O_WRONLY = true /\
  has_flag (output_flags l) O_CREAT = true /\
  has_flag (output_flags l) O_APPEND = file_output_append l /\
  has_flag (output_flags l) O_TRUNC = negb (file_output_append l).
Proof. unfold output_flags. destruct (file_output_append l); repeat split. Qed.

(** The files after a line of one loaded command with an output path. *)
Lemma output_line_files e c path append w st :
  is_cd c = false -> e_fork_fails e (w_nforks w) = false ->
  shell_table (w_fds w) -> e_exec e (args c) = Some st ->
  let l := output_line c path append in
  let key := resolve (w_cwd w) path in
  let w' := execute_line e l w in
  w_cwd w' = w_cwd w /\ shell_table (w_fds w') /\
  w_files w' =
    if open_fails (w_files w) (w_cwd w) path (output_flags l) then w_files w
    else write_stdout (e_output e (args c))
           (<[STDOUT_FILENO := OpenFile key (output_flags l)]> (w_fds w))
           (sys_open e (w_cwd w) path (output_flags l) None (w_fds w) (w_files w)).2.
Proof.
  intros Hcd Hf Hst Hex l key w'.
  assert (Hth : threaded (w_fds w) (-1)) by now left.
  assert (Hrun : w' = (execute_command e l c 0 (-1) w).2).
  { unfold w', execute_line. simpl. rewrite Hcd.
    destruct (execute_command e l c 0 (-1) w). reflexivity. }
  destruct (execute_command_ok e l c 0 (-1) w Hf) as (_ & _ & Hfiles & Hcwd & _).
  destruct (execute_command_table e l c 0 (-1) w Hst Hth) as [Hst' _].
  rewrite Hrun. split; [assumption|]. split; [assumption|].
  rewrite Hfiles. unfold stage_child, child_branch. rewrite Hex. simpl.
  change (stage_pipe e l 0 w).2 with (w_fds w).
  unfold redirect_input, redirect_output. simpl.
  destruct (redirect_spec e (w_cwd w) path (output_flags l) STDOUT_FILENO
              "Output redirection failed"
              {| p_fds := w_fds w; p_files := w_files w; p_perror := [] |}) as (H1 & _ & H3).
  { simpl. apply std_streams_open; [assumption|unfold STDOUT_FILENO; lia]. }
  simpl in H1, H3.
  change (Z.lor (Z.lor O_WRONLY O_CREAT) (if append then O_APPEND else O_TRUNC))
    with (output_flags l).
  rewrite H1, H3.
  destruct (open_fails (w_files w) (w_cwd w) path (output_flags l)) eqn:Hopen.
  - rewrite sys_open_files_failed by assumption.
    unfold write_stdout, STDOUT_FILENO. destruct Hst as (_ & -> & _). reflexivity.
  - reflexivity.
Qed.

(** X18.  A first run on a path that does not exist creates the file with the
    output of the program; when [open] happens to give it a mode its owner
    can write with, a second run of the same line leaves the output twice
    when the line appends, and once when it truncates. *)
Theorem output_redirection_run_twice e c path append w st :
  is_cd c = false -> (forall n, e_fork_fails e n = false) ->
  shell_table (w_fds w) -> e_exec e (args c) = Some st ->
  w_files w !! resolve (w_cwd w) path = None ->
  has_flag (created_mode e) S_IWUSR = true ->
  let l := output_line c path append in
  let out := e_output e (args c) in
  let w1 := execute_line e l w in
  let w2 := execute_line e l w1 in
  w_files w1 !! resolve (w_cwd w) path = Some (Regular (created_mode e) out) /\
  w_files w2 !! resolve (w_cwd w) path =
    Some (Regular (created_mode e) (if append then (out ++ out)%string else out)).
Proof.
  intros Hcd Hfork Hst Hex Hnone Hmode l out w1 w2.
  destruct (output_flags_bits l) as (Bw & Bc & Ba & Bt).
  destruct (output_line_files e c path append w st Hcd (Hfork _) Hst Hex)
    as (Hcwd1 & Hst1 & Hf1).
  fold l w1 in Hcwd1, Hst1, Hf1.
  assert (H1 : w_files w1 !! resolve (w_cwd w) path = Some (Regular (created_mode e) out)).
  { rewrite Hf1. unfold open_fails. rewrite Hnone, Bc. simpl.
    unfold sys_open. rewrite Hnone, Bc. simpl. fold (created_mode e).
    unfold write_stdout. rewrite lookup_insert_eq, lookup_insert_eq, Bw, Ba.
    rewrite lookup_insert_eq. f_equal. f_equal.
    change (file_output_append l) with append.
    destruct append; [reflexivity|].
    cbn [list_ascii_of_string]. rewrite drop_nil. apply string_app_empty. }
  split; [exact H1|].
  destruct (output_line_files e c path append w1 st Hcd (Hfork _) Hst1 Hex)
    as (_ & _ & Hf2).
  fold l w2 in Hf2. rewrite Hcwd1 in Hf2.
  rewrite Hf2. unfold open_fails. rewrite H1, Bw, Hmode. simpl.
  unfold sys_open. rewrite H1, Bw, Hmode, Bt. simpl.
  unfold write_stdout. rewrite lookup_insert_eq, Bw, Ba.
  change (file_output_append l) with append.
  destruct append; cbn [negb].
  - rewrite H1, lookup_insert_eq. reflexivity.
  - rewrite lookup_insert_eq, lookup_insert_eq.
    f_equal. f_equal. cbn [list_ascii_of_string]. rewrite drop_nil.
    apply string_app_empty.
Qed.

(** [echo hi >> out.txt] twice where [open] reads 0644 for the mode. *)
Lemma output_redirection_run_twice_witness :
  let l := output_line (command ["echo"; "hi"]%string) "out.txt" true in
  w_files (execute_line (machine 420) l (execute_line (machine 420) l fresh_shell))
    !! "/home/u/out.txt"%string = Some (Regular 420 "hihi").
Proof.
  intros l.
  destruct (output_redirection_run_twice (machine 420) (command ["echo"; "hi"]%string)
              "out.txt" true fresh_shell 0) as [_ H2].
  - reflexivity.
  - reflexivity.
  - apply shell_table_boot.
  - reflexivity.
  - reflexivity.
  - reflexivity.
  - exact H2.
Defined.

(** ** execute_line: the foreground wait *)

Lemma spawned_app w w' ims : w_images w' = w_images w ++ ims -> spawned w w' = ims.
Proof. intros H. unfold spawned. rewrite H. apply drop_app_length. Qed.

(** Stages that are not the last of their line: nothing is awaited, every
    process spawned is left in the table of children, in order. *)
Lemma execute_from_no_wait e l cs i p w :
  Z.of_nat (n_cmds l) < 2 ^ 64 -> (i + length cs < n_cmds l)%nat ->
  pids_fresh w ->
  let w' := (execute_from e l cs i p w).2 in
  pids_fresh w' /\
  w_children w' = w_children w ++ map child_of (spawned w w') /\
  w_endstatus w' = w_endstatus w /\
  blocking_waits (w_trace w') = blocking_waits (w_trace w).
Proof.
  intros Hn. revert i p w. induction cs as [|c rest IH]; intros i p w Hi Hp; cbv zeta.
  - simpl. unfold spawned. rewrite drop_all. simpl. rewrite app_nil_r. auto.
  - simpl in Hi. simpl. destruct (is_cd c) eqn:Hcd.
    + destruct (cd_frame e (arg c 1) w) as (_ & Him & Hc & Hnp & He & _ & _ & _ & Ht).
      destruct (IH (S i) p (cd e (arg c 1) w)) as (H1 & H2 & H3 & H4); [lia| |].
      { unfold pids_fresh. now rewrite Hc, Hnp. }
      split; [assumption|]. rewrite H2, H3, H4, Hc, He, Ht. unfold spawned.
      now rewrite Him.
    + assert (Hl : is_last l i = false).
      { rewrite is_last_index by lia. apply bool_decide_eq_false. lia. }
      pose proof (execute_command_fresh e l c i p w Hp) as Hp1.
      assert (Hstep : exists ims,
                w_images (execute_command e l c i p w).2 = w_images w ++ ims /\
                w_children (execute_command e l c i p w).2 =
                  w_children w ++ map child_of ims /\
                w_endstatus (execute_command e l c i p w).2 = w_endstatus w /\
                blocking_waits (w_trace (execute_command e l c i p w).2) =
                  blocking_waits (w_trace w)).
      { destruct (e_fork_fails e (w_nforks w)) eqn:Hf.
        - destruct (execute_command_failed e l c i p w Hf)
            as (_ & Him & He & Hc & _ & _ & _ & _ & Hb).
          exists []. rewrite Him, Hc, He, Hb, !app_nil_r. auto.
        - destruct (execute_command_parent e l c i p w Hf)
            as (w5 & Him & _ & _ & _ & _ & _ & Hc & He & Hb & ->).
          destruct (child_branch_ids e l c i p (stage_pipe e l i w).1 (w_next_pid w)
                      (w_cwd w) (stage_pipe e l i w).2 (w_files w))
            as (Hpid & _ & _ & _ & Hst).
          fold (stage_child e l c i p w) in Hpid, Hst.
          rewrite Hl, andb_false_r. cbn [snd].
          exists [(stage_child e l c i p w).1.1].
          split; [assumption|]. split; [|now split].
          rewrite Hc. simpl. unfold child_of. now rewrite Hpid, Hst. }
      destruct Hstep as (ims0 & Him0 & Hc0 & He0 & Hb0).
      destruct (execute_command e l c i p w) as [p' w1]. simpl in *.
      destruct (IH (S i) p' w1) as (H1 & H2 & H3 & H4); [lia|assumption|].
      split; [assumption|]. rewrite H2, H3, H4, Hc0, He0, Hb0, <- app_assoc, <- map_app.
      split; [|now split]. f_equal. f_equal.
      destruct (execute_from_spec e l rest (S i) p' w1) as (ims & Hims & _).
      rewrite (spawned_app _ _ _ Hims).
      symmetry. apply spawned_app. rewrite Hims, Him0. now rewrite app_assoc.
Qed.

(** A foreground line whose last command is not the builtin, when no fork
    fails: the shell as it enters the blocking wait, with every process of
    the line in its table of children, and what the wait makes of it. *)
Lemma execute_line_at_wait e l w cs c :
  background l = false -> cmds l = cs ++ [c] -> is_cd c = false ->
  (forall n, e_fork_fails e n = false) -> Z.of_nat (n_cmds l) < 2 ^ 64 ->
  pids_fresh w ->
  exists w5 ims im,
    spawned w (execute_line e l w) = ims ++ [im] /\
    im_args im = args c /\ im_index im = length cs /\ 0 < im_pid im /\
    Forall (fun x => 0 < c_pid x < im_pid im) (w_children w ++ map child_of ims) /\
    w_children w5 = (w_children w ++ map child_of ims) ++ [child_of im] /\
    w_endstatus w5 = w_endstatus w /\
    blocking_waits (w_trace w5) = blocking_waits (w_trace w) /\
    execute_line e l w =
      set_endstatus
        (display_process_end (blocking_wait e (im_pid im) w5).1 (im_pid im)
           (w_endstatus (blocking_wait e (im_pid im) w5).2))
        (blocking_wait e (im_pid im) w5).2.
Proof.
  intros Hbg Hcmds Hcd Hfork Hn Hp.
  assert (Hlen : n_cmds l = S (length cs)).
  { unfold n_cmds. rewrite Hcmds, length_app. simpl. lia. }
  unfold execute_line. rewrite Hcmds, execute_from_app.
  destruct (execute_from_no_wait e l cs 0 (-1) w Hn) as (Hp1 & Hc1 & He1 & Hb1);
    [lia|assumption|].
  destruct (execute_from_spec e l cs 0 (-1) w) as (ims & Hims & _).
  rewrite (spawned_app _ _ _ Hims) in Hc1.
  destruct (execute_from e l cs 0 (-1) w) as [p1 w1]. cbn [fst snd] in *.
  simpl. rewrite Hcd.
  assert (Hl : is_last l (length cs) = true).
  { rewrite is_last_index by lia. apply bool_decide_eq_true. lia. }
  destruct (execute_command_parent e l c (length cs) p1 w1 (Hfork _))
    as (w5 & Him & _ & _ & Hnp & _ & _ & Hc & He & Hb & Heq).
  destruct (child_branch_ids e l c (length cs) p1 (stage_pipe e l (length cs) w1).1
              (w_next_pid w1) (w_cwd w1) (stage_pipe e l (length cs) w1).2 (w_files w1))
    as (Hpid & Hidx & Hargs & _ & Hst).
  fold (stage_child e l c (length cs) p1 w1) in Hpid, Hidx, Hargs, Hst.
  rewrite Heq, Hbg, Hl. cbn [negb andb fst snd].
  set (im := (stage_child e l c (length cs) p1 w1).1.1) in *.
  exists w5, ims, im. rewrite Hpid.
  destruct Hp1 as [Hpos Hall].
  split; [apply spawned_app|].
  { destruct (blocking_wait e (w_next_pid w1) w5) as [stat w6] eqn:E.
    destruct (blocking_wait_frame e (w_next_pid w1) w5) as ((_ & _ & _ & _ & _ & _ & F7 & _) & _).
    rewrite E in F7. simpl in *. rewrite F7, Him, Hims. now rewrite app_assoc. }
  split; [assumption|]. split; [assumption|]. split; [assumption|].
  split; [now rewrite <- Hc1|].
  split; [rewrite Hc, Hc1; f_equal; unfold child_of; now rewrite Hpid, Hst|].
  split; [congruence|]. split; [congruence|].
  destruct (blocking_wait e (w_next_pid w1) w5) as [stat w6]. reflexivity.
Qed.


(** X20.  A foreground line whose last command is run as a process, when no
    fork fails: the executor makes exactly one blocking wait, and it is for
    the process it spawned last, which runs the last command of the line;
    this whatever the signals that come meanwhile. *)
Theorem foreground_line_blocks_once e l w cs c :
  background l = false -> cmds l = cs ++ [c] -> is_cd c = false ->
  (forall n, e_fork_fails e n = false) -> Z.of_nat (n_cmds l) < 2 ^ 64 ->
  let w' := execute_line e l w in
  exists im,
    last (spawned w w') = Some im /\ im_args im = args c /\
    im_index im = length cs /\
    blocking_waits (w_trace w') = blocking_waits (w_trace w) ++ [im_pid im].
Proof.
  intros Hbg Hcmds Hcd Hfork Hn. cbv zeta.
  assert (Hlen : n_cmds l = S (length cs)).
  { unfold n_cmds. rewrite Hcmds, length_app. simpl. lia. }
  unfold execute_line. rewrite Hcmds, execute_from_app.
  destruct (execute_from_spec e l cs 0 (-1) w) as (ims & Hims & Hall & _ & Hb1).
  rewrite Hbg in Hb1.
  assert (Hnone : final_stage l ims = []).
  { unfold final_stage. clear Hims Hb1. induction Hall as [|im ims [_ (c' & Hl & _)] _ IH];
      [reflexivity|].
    rewrite filter_cons, IH. rewrite Nat.sub_0_r in Hl.
    apply lookup_lt_Some in Hl.
    rewrite is_last_index by lia.
    rewrite decide_False; [reflexivity|].
    intros H. apply bool_decide_eq_true in H. lia. }
  rewrite Hnone, app_nil_r in Hb1.
  destruct (execute_from e l cs 0 (-1) w) as [p1 w1]. cbn [fst snd] in *.
  simpl. rewrite Hcd.
  assert (Hl : is_last l (length cs) = true).
  { rewrite is_last_index by lia. apply bool_decide_eq_true. lia. }
  destruct (execute_command_ok e l c (length cs) p1 w1 (Hfork _))
    as (_ & Him & _ & _ & _ & _ & _ & Hb).
  destruct (child_branch_ids e l c (length cs) p1 (stage_pipe e l (length cs) w1).1
              (w_next_pid w1) (w_cwd w1) (stage_pipe e l (length cs) w1).2 (w_files w1))
    as (Hpid & Hidx & Hargs & _).
  fold (stage_child e l c (length cs) p1 w1) in Hpid, Hidx, Hargs.
  rewrite Hbg, Hl in Hb. simpl in Hb.
  destruct (execute_command e l c (length cs) p1 w1) as [p2 w2]. cbn [snd] in *.
  exists (stage_child e l c (length cs) p1 w1).1.1.
  split.
  - rewrite (spawned_app w w2 (ims ++ [(stage_child e l c (length cs) p1 w1).1.1])).
    + apply last_snoc.
    + rewrite Him, Hims. now rewrite app_assoc.
  - split; [assumption|]. split; [assumption|]. now rewrite Hb, Hb1, Hpid.
Qed.

(** [ls | cd /tmp | wc -l]: one blocking wait, for [wc]. *)
Lemma foreground_line_blocks_once_witness :
  blocking_waits
    (w_trace (execute_line (machine 420)
                (plain_line [["ls"]; ["cd"; "/tmp"]; ["wc"; "-l"]]%string false)
                fresh_shell)) = [101].
Proof.
  destruct (foreground_line_blocks_once (machine 420)
              (plain_line [["ls"]; ["cd"; "/tmp"]; ["wc"; "-l"]]%string false) fresh_shell
              [command ["ls"%string]; command ["cd"; "/tmp"]%string]
              (command ["wc"; "-l"]%string))
    as (im & Hlast & _ & _ & Hb).
  - reflexivity.
  - reflexivity.
  - reflexivity.
  - reflexivity.
  - vm_compute. reflexivity.
  - assert (E : option_map im_pid
                (last (spawned fresh_shell
                         (execute_line (machine 420)
                            (plain_line [["ls"]; ["cd"; "/tmp"]; ["wc"; "-l"]]%string false)
                            fresh_shell))) = Some 101) by (vm_compute; reflexivity).
    rewrite Hlast in E. injection E as E. now rewrite Hb, E.
Defined.

(** X21.  Whatever the line, the forks that fail and the signals that come,
    the executor makes a blocking wait for nothing but a process it spawned
    for the final command of a foreground line: that is at most one
    process, its command is not the builtin, and for a background line
    nothing is awaited. *)
Theorem executor_blocks_on_nothing_else e l w :
  let w' := execute_line e l w in
  let final := final_stage l (spawned w w') in
  (length final <= 1)%nat /\
  Forall (fun im => exists c, cmds l !! im_index im = Some c /\
                              is_cd c = false /\ im_args im = args c) final /\
  blocking_waits (w_trace w') =
    blocking_waits (w_trace w) ++ (if background l then [] else map im_pid final).
Proof.
  cbv zeta. unfold execute_line.
  destruct (execute_from_spec e l (cmds l) 0 (-1) w) as (ims & Him & Hall & Hsort & Hb).
  rewrite (spawned_app _ _ _ Him). split; [now apply final_stage_at_most_one|].
  split; [|assumption].
  unfold final_stage. apply Forall_forall. intros im Hin.
  apply list_elem_of_filter in Hin as [_ Hin].
  rewrite Forall_forall in Hall. destruct (Hall im Hin) as (_ & c & Hl & Hrest).
  exists c. rewrite Nat.sub_0_r in Hl. auto.
Qed.



(** X12.  A foreground line whose last command is run as a process, when no
    fork fails and SIGINT does not end the wait: when [execute_line] returns
    the shell has no child left.  The wait or the handler has collected
    every process of the line, and every child the shell had before: the
    handler that runs at the wait does not return while a child remains. *)
Theorem foreground_line_leaves_no_child e l w cs c :
  background l = false -> cmds l = cs ++ [c] -> is_cd c = false ->
  (forall n, e_fork_fails e n = false) -> Z.of_nat (n_cmds l) < 2 ^ 64 ->
  pids_fresh w -> (forall pid, e_wait e pid <> Interrupted) ->
  w_children (execute_line e l w) = [].
Proof.
  intros Hbg Hcmds Hcd Hfork Hn Hp Hint.
  destruct (execute_line_at_wait e l w cs c Hbg Hcmds Hcd Hfork Hn Hp)
    as (w5 & ims & im & _ & _ & _ & Hpos & Hall & Hc & _ & _ & ->).
  cbn [w_children set_endstatus].
  destruct (e_wait e (im_pid im)) eqn:Hw.
  - apply (blocking_wait_collected e (im_pid im) (im_status im) _ w5 Hw Hpos Hall Hc).
  - now destruct (Hint (im_pid im)).
  - apply (blocking_wait_preempted e (im_pid im) w5 Hw).
    rewrite Hc. apply Forall_app. split; [eapply positive_pids, Hall|].
    constructor; [exact Hpos|constructor].
Qed.

(** [sleep 100 &] and then [ls | wc] in the foreground: the shell comes back
    from the second line with no child, the background one included. *)
Lemma foreground_line_leaves_no_child_witness :
  let w := execute_line (machine 420) (plain_line [["sleep"; "100"]]%string true)
                        fresh_shell in
  map c_pid (w_children w) = [100] /\
  w_children (execute_line (machine 420) (plain_line [["ls"]; ["wc"]]%string false) w) = [].
Proof.
  cbv zeta. split; [vm_compute; reflexivity|].
  apply (foreground_line_leaves_no_child (machine 420) _ _
           [command ["ls"%string]] (command ["wc"%string])).
  - reflexivity.
  - reflexivity.
  - reflexivity.
  - reflexivity.
  - vm_compute. reflexivity.
  - split; [vm_compute; reflexivity|].
    vm_compute. repeat constructor.
  - discriminate.
Defined.

(** ** A command that cannot be loaded *)

(** X19.  A foreground line of one command whose program [execvp] does not
    find, the shell having no other child: the process is created all the
    same, it reports "execvp failed" and exits with 1; the shell blocks on
    it, and when the wait returns it the line recorded is
    "PID <pid> finished with exit status 1". *)
Theorem unloadable_command_exits_with_1 e l c w :
  cmds l = [c] -> is_cd c = false -> background l = false ->
  e_fork_fails e (w_nforks w) = false -> e_exec e (args c) = None ->
  shell_table (w_fds w) -> 0 < w_next_pid w -> w_children w = [] ->
  w_endstatus w = calloc ENDSTATUS_BUF_LEN ->
  e_wait e (w_next_pid w) = Collected ->
  let w' := execute_line e l w in
  exists im,
    spawned w w' = [im] /\ im_pid im = w_next_pid w /\ im_loaded im = false /\
    last (im_perror im) = Some "execvp failed"%string /\
    im_status im = W_EXITCODE 1 0 /\
    blocking_waits (w_trace w') = blocking_waits (w_trace w) ++ [im_pid im] /\
    c_string (w_endstatus w') =
      take (ENDSTATUS_BUF_LEN - 1) (list_ascii_of_string (exit_line (im_pid im) 1)).
Proof.
  intros Hcmds Hcd Hbg Hf Hex Hst Hpos Hnone Hbuf Hw w'.
  assert (Hth : threaded (w_fds w) (-1)) by now left.
  assert (Hl : is_last l 0 = true).
  { unfold is_last, n_cmds. rewrite Hcmds. reflexivity. }
  assert (Hrun : w' = (execute_command e l c 0 (-1) w).2).
  { unfold w', execute_line. rewrite Hcmds. simpl. rewrite Hcd.
    destruct (execute_command e l c 0 (-1) w). reflexivity. }
  destruct (execute_command_ok e l c 0 (-1) w Hf) as (_ & Him & _ & _ & _ & _ & _ & Hb).
  destruct (execute_command_parent e l c 0 (-1) w Hf)
    as (w5 & _ & _ & _ & _ & _ & _ & Hc & He & _ & Heq).
  destruct (stage_child_spec e l c 0 (-1) w Hst Hth)
    as (_ & _ & _ & Hper & _ & Hpid & _ & _ & Hload & Hstat).
  destruct (child_branch_ids e l c 0 (-1) (stage_pipe e l 0 w).1 (w_next_pid w)
              (w_cwd w) (stage_pipe e l 0 w).2 (w_files w)) as (_ & _ & _ & _ & Hst2).
  fold (stage_child e l c 0 (-1) w) in Hst2.
  assert (Hval : (stage_child e l c 0 (-1) w).2 = W_EXITCODE 1 0).
  { unfold stage_child, child_branch. now rewrite Hex. }
  rewrite Hbg, Hl in Hb. simpl in Hb.
  exists (stage_child e l c 0 (-1) w).1.1. rewrite Hrun.
  split; [apply spawned_app, Him|].
  split; [assumption|]. unfold loads in Hload, Hper. rewrite Hex in Hload, Hper.
  split; [assumption|]. split; [rewrite Hper, !app_assoc; apply last_snoc|].
  split; [congruence|]. split; [now rewrite Hb, Hpid|].
  rewrite Heq, Hbg, Hl. cbn [negb andb snd].
  rewrite Hnone in Hc. simpl in Hc.
  destruct (blocking_wait_collected e (w_next_pid w) _ [] w5 Hw Hpos (List.Forall_nil _) Hc)
    as (Hstat5 & _ & events & Hperm & Hend).
  apply Permutation_nil_r in Hperm. subst events.
  destruct (blocking_wait e (w_next_pid w) w5) as [stat w6]. simpl in *.
  rewrite Hend, Hstat5, Hval, He, Hbuf, Hpid.
  destruct (display_process_end_spec (W_EXITCODE 1 0) (w_next_pid w) _ buffer_ok_calloc)
    as [_ ->].
  rewrite c_string_calloc, strlen_calloc, Nat.sub_0_r. reflexivity.
Qed.

(** [nosuch] on the sample machine. *)
Lemma unloadable_command_exits_with_1_witness :
  string_of_list_ascii
    (c_string (w_endstatus (execute_line (machine 420) (plain_line [["nosuch"]]%string false)
                              fresh_shell))) =
  exit_line 100 1.
Proof.
  destruct (unloadable_command_exits_with_1 (machine 420)
              (plain_line [["nosuch"]]%string false) (command ["nosuch"%string]) fresh_shell)
    as (im & _ & Hpid & _ & _ & _ & _ & Hbuf).
  - reflexivity.
  - reflexivity.
  - reflexivity.
  - reflexivity.
  - reflexivity.
  - apply shell_table_boot.
  - reflexivity.
  - reflexivity.
  - reflexivity.
  - reflexivity.
  - rewrite Hbuf, Hpid. vm_compute. reflexivity.
Defined.
